(** * KRWL HOF: event filtering, time boundaries, templates and bubble
      de-duplication

    A shallow embedding of the algorithmic core of the KRWL HOF community
    events viewer:

    - [assets/js/filters.js] (class [EventFilter]): great-circle distance,
      the time boundaries of the named time filters, [filterEvents] and
      [countCategoriesUnderFilters];
    - [assets/js/app-refactored.js] (classes [SpeechBubbles] and
      [EventUtils]): [showAllSpeechBubbles], [deduplicateEvents],
      [truncateText], [processTemplateEvents], [formatDateTime];
    - [assets/js/speech-bubbles.js]: the simplified [deduplicateEvents],
      [calculateSimplePosition] and [truncateText];
    - [assets/js/storage.js] (class [EventStorage]): [isBookmarked],
      [toggleBookmark], [getBookmarks].

    Modelling conventions.

    - A JavaScript [Date] is its time value, an integer number of
      milliseconds since the epoch ([Z]). The [Date] methods follow the
      abstract operations of ECMAScript ([Day], [MakeDay], [MakeTime], ...).
      The local time zone is a fixed offset [LocalTZA] from UTC (no
      daylight-saving transitions), and the range limit of [TimeClip] is
      not modelled.
    - [new Date()] reads the system clock. The clock is threaded through
      the code as state: a [Clock] is the sequence of its future readings.
    - JavaScript numbers that are not times are exact: the lunar cycle
      arithmetic is done in [Q] and the haversine formula in [R]. IEEE
      rounding and the truncation of a fractional time value to a whole
      millisecond (both below one millisecond) are not modelled.
    - Event objects live in a heap; an event array is a list of
      references, so that writes to an event are visible through every
      alias, as in the source.
    - [toLowerCase] and [trim] are those of the engine (they depend on
      the Unicode tables) and are taken from the runtime, as are the
      properties that a plain object inherits from [Object.prototype];
      the theorems hold for every such runtime.
    - A property of an event that is absent is [None]; event data holds
      no [null]. *)

From Stdlib Require Import ZArith QArith Qround Qminmax Reals Lia Lqa Ascii
  String.
From Stdlib Require Lra.
From stdpp Require Import base option list strings pretty gmap fin_maps.

Open Scope Z_scope.

(* ================================================================== *)
(** * The runtime: time zone and date parser *)

(** The values that a property of the object [categoryCounts] can hold:
    a number (a count), a string, or an object or function, of which
    only the conversion to a string matters here. *)
Inductive JSValue :=
  | Num (n : nat)
  | Str (s : string)
  | Obj (toString : string).

(** What the code takes from its JavaScript engine and cannot compute
    itself: the offset of local time from UTC in milliseconds, the
    parser behind [new Date(string)] ([None] is an Invalid Date, whose
    time value is NaN), [String.prototype.toLowerCase] and
    [String.prototype.trim], and the properties that every plain object
    inherits from [Object.prototype] ([None] for a name that is not
    inherited). *)
Class Runtime := {
  LocalTZA : Z;
  Date_parse : string → option Z;
  toLowerCase : string → string;
  trim : string → string;
  Object_prototype : string → option JSValue
}.

(* ================================================================== *)
(** * ECMAScript time values *)

Definition msPerSecond : Z := 1000.
Definition msPerMinute : Z := 60000.
Definition msPerHour : Z := 3600000.
Definition msPerDay : Z := 86400000.

Definition Day (t : Z) : Z := t / msPerDay.
Definition TimeWithinDay (t : Z) : Z := t mod msPerDay.

Definition DaysInYear (y : Z) : Z :=
  if negb (y mod 4 =? 0) then 365
  else if negb (y mod 100 =? 0) then 366
  else if negb (y mod 400 =? 0) then 365
  else 366.

Definition DayFromYear (y : Z) : Z :=
  365 * (y - 1970) + (y - 1969) / 4 - (y - 1901) / 100 + (y - 1601) / 400.

(** The largest year whose first day is not after the day of [t]: an
    estimate from the mean year length, corrected by one year at most. *)
Definition YearFromTime (t : Z) : Z :=
  let d := Day t in
  let y := 1970 + d * 400 / 146097 in
  if d <? DayFromYear y then y - 1
  else if DayFromYear (y + 1) <=? d then y + 1
  else y.

Definition LeapDays (y : Z) : Z := DaysInYear y - 365.
Definition InLeapYear (t : Z) : Z := LeapDays (YearFromTime t).
Definition DayWithinYear (t : Z) : Z := Day t - DayFromYear (YearFromTime t).

(** Number of days of the year before month [m] (0 = January). *)
Definition monthStart (m leap : Z) : Z :=
  match m with
  | 0 => 0
  | 1 => 31
  | 2 => 59 + leap
  | 3 => 90 + leap
  | 4 => 120 + leap
  | 5 => 151 + leap
  | 6 => 181 + leap
  | 7 => 212 + leap
  | 8 => 243 + leap
  | 9 => 273 + leap
  | 10 => 304 + leap
  | _ => 334 + leap
  end.

Definition MonthFromTime (t : Z) : Z :=
  let d := DayWithinYear t in
  let leap := InLeapYear t in
  if d <? 31 then 0
  else if d <? 59 + leap then 1
  else if d <? 90 + leap then 2
  else if d <? 120 + leap then 3
  else if d <? 151 + leap then 4
  else if d <? 181 + leap then 5
  else if d <? 212 + leap then 6
  else if d <? 243 + leap then 7
  else if d <? 273 + leap then 8
  else if d <? 304 + leap then 9
  else if d <? 334 + leap then 10
  else 11.

Definition DateFromTime (t : Z) : Z :=
  DayWithinYear t - monthStart (MonthFromTime t) (InLeapYear t) + 1.

Definition WeekDay (t : Z) : Z := (Day t + 4) mod 7.
Definition HourFromTime (t : Z) : Z := (t / msPerHour) mod 24.
Definition MinFromTime (t : Z) : Z := (t / msPerMinute) mod 60.
Definition SecFromTime (t : Z) : Z := (t / msPerSecond) mod 60.
Definition msFromTime (t : Z) : Z := t mod msPerSecond.

Definition MakeTime (hour min sec ms : Z) : Z :=
  hour * msPerHour + min * msPerMinute + sec * msPerSecond + ms.

Definition MakeDay (year month date : Z) : Z :=
  let ym := year + month / 12 in
  let mn := month mod 12 in
  DayFromYear ym + monthStart mn (LeapDays ym) + date - 1.

Definition MakeDate (day time : Z) : Z := day * msPerDay + time.

(** Two-digit years passed to the [Date] constructor and to [Date.UTC]
    mean 1900 + year. *)
Definition MakeFullYear (y : Z) : Z :=
  if (0 <=? y) && (y <=? 99) then 1900 + y else y.

Section JSDate.
Context {rt : Runtime}.

Definition LocalTime (t : Z) : Z := t + LocalTZA.
Definition UTC (t : Z) : Z := t - LocalTZA.

(** ** Methods of [Date.prototype], on the time value *)

Definition getTime (d : Z) : Z := d.
Definition getFullYear (d : Z) : Z := YearFromTime (LocalTime d).
Definition getMonth (d : Z) : Z := MonthFromTime (LocalTime d).
Definition getDate (d : Z) : Z := DateFromTime (LocalTime d).
Definition getDay (d : Z) : Z := WeekDay (LocalTime d).
Definition getHours (d : Z) : Z := HourFromTime (LocalTime d).
Definition getMinutes (d : Z) : Z := MinFromTime (LocalTime d).
Definition getSeconds (d : Z) : Z := SecFromTime (LocalTime d).

(** [d.setHours(hour, min, sec, ms)] *)
Definition setHours (d hour min sec ms : Z) : Z :=
  let t := LocalTime d in
  UTC (MakeDate (Day t) (MakeTime hour min sec ms)).

(** [d.setHours(hour)]: minutes, seconds and milliseconds are kept. *)
Definition setHours1 (d hour : Z) : Z :=
  let t := LocalTime d in
  UTC (MakeDate (Day t)
         (MakeTime hour (MinFromTime t) (SecFromTime t) (msFromTime t))).

(** [d.setMinutes(min)] *)
Definition setMinutes (d min : Z) : Z :=
  let t := LocalTime d in
  UTC (MakeDate (Day t)
         (MakeTime (HourFromTime t) min (SecFromTime t) (msFromTime t))).

(** [d.setDate(date)] *)
Definition setDate (d date : Z) : Z :=
  let t := LocalTime d in
  UTC (MakeDate (MakeDay (YearFromTime t) (MonthFromTime t) date)
         (TimeWithinDay t)).

(** [new Date(year, month, date)], local midnight. *)
Definition Date_ymd (year month date : Z) : Z :=
  UTC (MakeDate (MakeDay (MakeFullYear year) month date) 0).
End JSDate.

(** [Date.UTC(year, month, date, hours, minutes, seconds)] *)
Definition Date_UTC (year month date hours minutes seconds : Z) : Z :=
  MakeDate (MakeDay (MakeFullYear year) month date)
    (MakeTime hours minutes seconds 0).

(* ================================================================== *)
(** * The system clock *)

(** The readings that successive calls of [new Date()] will return. *)
Definition Clock : Type := nat → Z.

(** Computations that read the clock. *)
Definition M (A : Type) : Type := Clock → A * Clock.

Global Instance M_ret : MRet M := λ A x c, (x, c).
Global Instance M_bind : MBind M := λ A B f m c, f (m c).1 (m c).2.

(** [new Date()]: the next reading. *)
Definition new_Date : M Z := λ c, (c 0%nat, λ k, c (S k)).

(** A clock that stands still at [now]. *)
Definition frozen (now : Z) : Clock := λ _, now.

(** [l.map(f)] for a callback that reads the clock. *)
Fixpoint mapM_clock {A B} (f : A → M B) (l : list A) : M (list B) :=
  match l with
  | [] => mret []
  | x :: l' => y ← f x; ys ← mapM_clock f l'; mret (y :: ys)
  end.

(* ================================================================== *)
(** * Data model *)

(** [event.location]; the display name plays no role in the code below. *)
Record Location := {
  lat : R;
  lon : R
}.

(** [event.relative_time], the specification of a template event. The
    numeric fields are optional (absent is [None]); the templates of the
    demo generator carry whole numbers, and so does the model. *)
Record RelativeTime := {
  type : string;
  hours : option Z;
  minutes : option Z;
  duration_hours : option Z;
  timezone_offset : option Z;
  start_offset_hours : option Z;
  start_offset_minutes : option Z;
  end_offset_hours : option Z;
  end_offset_minutes : option Z
}.

(** An event object. A property that may be missing is an [option];
    every event has a title. *)
Record Event := {
  id : option string;
  title : string;
  category : option string;
  start_time : option string;
  end_time : option string;
  location : option Location;
  distance : option R;
  relative_time : option RelativeTime;
  published_at : option string
}.

(** [event.category], under a name that a local [category] cannot hide. *)
Definition event_category (e : Event) : option string := category e.

(** Event objects are referred to by address. *)
Definition Heap : Type := nat → Event.

Definition heap_update (h : Heap) (r : nat) (e : Event) : Heap :=
  λ r', if Nat.eqb r' r then e else h r'.

(** [event.distance = d] *)
Definition set_distance (d : R) (e : Event) : Event :=
  {| id := id e; title := title e; category := category e;
     start_time := start_time e; end_time := end_time e;
     location := location e; distance := Some d;
     relative_time := relative_time e; published_at := published_at e |}.

(** What the filtering code runs in: the system clock and the heap of
    event objects. *)
Record World := {
  clock : Clock;
  heap : Heap
}.

(* ================================================================== *)
(** * storage.js: [EventStorage] *)

Module EventStorage.
Record t := {
  bookmarks : list string
}.

(** [this.bookmarks.includes(eventId)]; the stored bookmarks are
    strings, so a missing id is never bookmarked. *)
Definition isBookmarked (storage : t) (eventId : option string) : bool :=
  match eventId with
  | Some i => bool_decide (i ∈ bookmarks storage)
  | None => false
  end.

Definition MAX_BOOKMARKS : nat := 15.

(** [array.indexOf(x)]: the first index that holds [x]; [None] stands
    for -1. *)
Fixpoint indexOf (l : list string) (x : string) : option nat :=
  match l with
  | [] => None
  | y :: l' => if String.eqb y x then Some 0%nat else S <$> indexOf l' x
  end.

(** [toggleBookmark(eventId)]: the returned flag and the storage
    afterwards. [splice(index, 1)] deletes the element at [index],
    [shift()] drops the first element and [push] appends.
    [saveBookmarks] copies the list to localStorage and leaves the
    object alone. *)
Definition toggleBookmark (storage : t) (eventId : string) : bool * t :=
  match indexOf (bookmarks storage) eventId with
  | Some index =>
      (false, {| bookmarks := delete index (bookmarks storage) |})
  | None =>
      let shifted :=
        if (MAX_BOOKMARKS <=? length (bookmarks storage))%nat
        then tail (bookmarks storage)
        else bookmarks storage in
      (true, {| bookmarks := shifted ++ [eventId] |})
  end.

(** [getBookmarks()]: a copy of the list. *)
Definition getBookmarks (storage : t) : list string := bookmarks storage.
End EventStorage.

(* ================================================================== *)
(** * filters.js: [EventFilter] *)

(** [Math.atan2] on exact reals. *)
Definition Math_atan2 (y x : R) : R :=
  if Rlt_dec 0 x then atan (y / x)
  else if Rlt_dec x 0 then
    if Rle_dec 0 y then (atan (y / x) + PI)%R else (atan (y / x) - PI)%R
  else if Rlt_dec 0 y then (PI / 2)%R
  else if Rlt_dec y 0 then (- PI / 2)%R
  else 0%R.

Module Filters.
(** The filter settings object. *)
Record t := {
  maxDistance : R;
  timeFilter : string;
  category : string
}.
End Filters.

Module EventFilter.
Section EventFilter.
Context {rt : Runtime}.
Variable storage : EventStorage.t.

Definition calculateDistance (lat1 lon1 lat2 lon2 : R) : R :=
  let R_ := 6371%R in
  let dLat := ((lat2 - lat1) * PI / 180)%R in
  let dLon := ((lon2 - lon1) * PI / 180)%R in
  let a := (sin (dLat / 2) * sin (dLat / 2) +
            cos (lat1 * PI / 180) * cos (lat2 * PI / 180) *
            sin (dLon / 2) * sin (dLon / 2))%R in
  let c := (2 * Math_atan2 (sqrt a) (sqrt (1 - a)))%R in
  (R_ * c)%R.

Definition getNextSunrise : M Z :=
  now ← new_Date;
  let sunrise := now in
  let sunrise := setHours sunrise 6 0 0 0 in
  let sunrise :=
    if 6 <=? getHours now then setDate sunrise (getDate sunrise + 1)
    else sunrise in
  mret sunrise.

Definition getNextSundayPrimetime : M Z :=
  now ← new_Date;
  let result := now in
  let currentDay := getDay now in
  let daysUntilSunday :=
    if currentDay =? 0 then
      let currentTime := getHours now * 60 + getMinutes now in
      let primetimeMinutes := 20 * 60 + 15 in
      if primetimeMinutes <=? currentTime then 7 else 0
    else 7 - currentDay in
  let result := setDate result (getDate result + daysUntilSunday) in
  let result := setHours result 20 15 0 0 in
  mret result.

(** Lunar cycle length in milliseconds. *)
Definition lunarCycle : Q := (29.53058770576 * 24 * 60 * 60 * 1000)%Q.

(** Known full moon: January 6, 2000, 18:14 UTC. *)
Definition knownFullMoon : Z := Date_UTC 2000 0 6 18 14 0.

(** [while (fullMoon <= nextSunday) fullMoon += lunarCycle], run for at
    most [fuel] iterations; [None] when the fuel is used up with the
    loop condition still true. *)
Fixpoint fullMoon_while (fuel : nat) (nextSunday : Z) (fullMoon : Q)
    : option Q :=
  if Qle_bool fullMoon (inject_Z nextSunday) then
    match fuel with
    | O => None
    | S fuel' => fullMoon_while fuel' nextSunday (fullMoon + lunarCycle)%Q
    end
  else Some fullMoon.

(** A number of iterations that is enough for the loop to finish (see
    [fullMoon_fuel_enough] below). *)
Definition fullMoon_fuel (nextSunday : Z) (fullMoon : Q) : nat :=
  Z.to_nat (Qceiling ((inject_Z nextSunday - fullMoon) / lunarCycle) + 1).

(** The calendar fields of a date with the rational time value [t] are
    those of the millisecond that contains [t]. *)
Definition wholeMs (t : Q) : Z := Qfloor t.

Definition getNextFullMoonMorning : M Z :=
  primetime ← getNextSundayPrimetime;
  let nextSunday := getTime primetime in
  let nextSunday := setHours nextSunday 0 0 0 0 in
  now ← new_Date;
  let timeSinceKnownFullMoon := getTime now - knownFullMoon in
  let cyclesSinceKnown :=
    Qfloor (inject_Z timeSinceKnownFullMoon / lunarCycle) in
  let fullMoon :=
    (inject_Z knownFullMoon + inject_Z cyclesSinceKnown * lunarCycle)%Q in
  let fullMoon :=
    match fullMoon_while (fullMoon_fuel nextSunday fullMoon)
            nextSunday fullMoon with
    | Some found => found
    | None => fullMoon
    end in
  let dayAfterFullMoon := wholeMs fullMoon in
  let dayAfterFullMoon :=
    setDate dayAfterFullMoon (getDate dayAfterFullMoon + 1) in
  let dayAfterFullMoon := setHours dayAfterFullMoon 6 0 0 0 in
  mret dayAfterFullMoon.

Definition getMaxEventTime (timeFilter : string) : M Z :=
  now ← new_Date;
  if String.eqb timeFilter "sunrise" then getNextSunrise
  else if String.eqb timeFilter "sunday-primetime" then
    getNextSundayPrimetime
  else if String.eqb timeFilter "full-moon" then getNextFullMoonMorning
  else if String.eqb timeFilter "6h" then
    mret (getTime now + 6 * 60 * 60 * 1000)
  else if String.eqb timeFilter "12h" then
    mret (getTime now + 12 * 60 * 60 * 1000)
  else if String.eqb timeFilter "24h" then
    mret (getTime now + 24 * 60 * 60 * 1000)
  else if String.eqb timeFilter "48h" then
    mret (getTime now + 48 * 60 * 60 * 1000)
  else if String.eqb timeFilter "all" then
    mret (Date_ymd (getFullYear now + 10) 11 31)
  else getNextSunrise.

(** [new Date(event.start_time)]: a missing start time is an Invalid
    Date. *)
Definition new_Date_of (s : option string) : option Z :=
  s ≫= Date_parse.

(** [eventTime > maxEventTime]; every comparison with NaN is false. *)
Definition Date_gt (eventTime : option Z) (maxEventTime : Z) : bool :=
  match eventTime with
  | Some t => maxEventTime <? t
  | None => false
  end.

(** [event.category !== category] *)
Definition category_differs (c : option string) (category : string)
    : bool :=
  match c with
  | Some c' => negb (String.eqb c' category)
  | None => true
  end.

(** [events.filter(callback)] for a callback that may write to the
    heap: the elements for which the callback returns true, in order. *)
Fixpoint array_filter (callback : nat → Heap → bool * Heap)
    (events : list nat) (h : Heap) : list nat * Heap :=
  match events with
  | [] => ([], h)
  | event :: rest =>
      let keep := (callback event h).1 in
      let h1 := (callback event h).2 in
      let tl := array_filter callback rest h1 in
      ((if keep then event :: tl.1 else tl.1), tl.2)
  end.

(** The callback of [filterEvents]. *)
Definition filterEvents_callback (maxEventTime : Z) (maxDistance : R)
    (category : string) (referenceLocation : option Location)
    (event : nat) (h : Heap) : bool * Heap :=
  let e := h event in
  if EventStorage.isBookmarked storage (id e) then
    match referenceLocation, location e with
    | Some ref, Some loc =>
        let distance :=
          calculateDistance (lat ref) (lon ref) (lat loc) (lon loc) in
        (true, heap_update h event (set_distance distance e))
    | _, _ => (true, h)
    end
  else
    let eventTime := new_Date_of (start_time e) in
    if Date_gt eventTime maxEventTime then (false, h)
    else if negb (String.eqb category "all") &&
            category_differs (event_category e) category
    then (false, h)
    else
      match referenceLocation, location e with
      | Some ref, Some loc =>
          let distance :=
            calculateDistance (lat ref) (lon ref) (lat loc) (lon loc) in
          let h' := heap_update h event (set_distance distance e) in
          if Rgt_dec distance maxDistance then (false, h')
          else (true, h')
      | _, _ => (true, h)
      end.

Definition filterEvents (events : list nat) (filters : Filters.t)
    (referenceLocation : option Location) (w : World)
    : list nat * World :=
  let max := getMaxEventTime (Filters.timeFilter filters) (clock w) in
  let maxEventTime := max.1 in
  let maxDistance := Filters.maxDistance filters in
  let category := Filters.category filters in
  let filtered :=
    array_filter
      (filterEvents_callback maxEventTime maxDistance category
         referenceLocation)
      events (heap w) in
  (filtered.1, {| clock := max.2; heap := filtered.2 |}).

(** [event.category || 'uncategorized'] *)
Definition category_or_uncategorized (c : option string) : string :=
  match c with
  | Some c' => if String.eqb c' EmptyString then "uncategorized" else c'
  | None => "uncategorized"
  end.

(** The object [categoryCounts = {}] is the map of its own properties;
    it inherits the properties of [Object.prototype]. *)

(** [o[key]]: the own property, else the inherited one. *)
Definition Object_get (o : gmap string JSValue) (key : string)
    : option JSValue :=
  match o !! key with
  | Some v => Some v
  | None => Object_prototype key
  end.

(** [o[key] = v] for a number or string [v]: an own property is made or
    overwritten, except that the inherited setter of [__proto__] ignores
    a value that is not an object. *)
Definition Object_set (o : gmap string JSValue) (key : string)
    (v : JSValue) : gmap string JSValue :=
  if String.eqb key "__proto__" &&
     bool_decide (is_Some (Object_prototype key))
  then o
  else <[key := v]> o.

(** Whether [v] is truthy. *)
Definition truthy (v : JSValue) : bool :=
  match v with
  | Num n => negb (n =? 0)%nat
  | Str s => negb (String.eqb s EmptyString)
  | Obj _ => true
  end.

(** [v || 0] for the value of a property that may be missing. *)
Definition or_zero (v : option JSValue) : JSValue :=
  match v with
  | Some v' => if truthy v' then v' else Num 0
  | None => Num 0
  end.

(** [v + 1]: addition for a number, concatenation with ["1"] for a
    string and for the string that an object or function converts to. *)
Definition plus_one (v : JSValue) : JSValue :=
  match v with
  | Num n => Num (n + 1)
  | Str s => Str (s +:+ "1")
  | Obj s => Str (s +:+ "1")
  end.

(** [categoryCounts[cat] = (categoryCounts[cat] || 0) + 1] *)
Definition count_up (cat : string) (categoryCounts : gmap string JSValue)
    : gmap string JSValue :=
  Object_set categoryCounts cat
    (plus_one (or_zero (Object_get categoryCounts cat))).

(** The callback of [countCategoriesUnderFilters]. *)
Definition countCategories_callback (maxEventTime : Z) (maxDistance : R)
    (referenceLocation : option Location) (h : Heap)
    (categoryCounts : gmap string JSValue) (event : nat)
    : gmap string JSValue :=
  let e := h event in
  if EventStorage.isBookmarked storage (id e) then
    let cat := category_or_uncategorized (category e) in
    count_up cat categoryCounts
  else
    let eventTime := new_Date_of (start_time e) in
    if Date_gt eventTime maxEventTime then categoryCounts
    else
      match referenceLocation, location e with
      | Some ref, Some loc =>
          let distance :=
            calculateDistance (lat ref) (lon ref) (lat loc) (lon loc) in
          if Rgt_dec distance maxDistance then categoryCounts
          else
            let cat := category_or_uncategorized (category e) in
            count_up cat categoryCounts
      | _, _ =>
          let cat := category_or_uncategorized (category e) in
          count_up cat categoryCounts
      end.

Definition countCategoriesUnderFilters (events : list nat)
    (filters : Filters.t) (referenceLocation : option Location)
    (w : World) : gmap string JSValue * World :=
  let max := getMaxEventTime (Filters.timeFilter filters) (clock w) in
  let maxEventTime := max.1 in
  let maxDistance := Filters.maxDistance filters in
  let categoryCounts :=
    foldl
      (countCategories_callback maxEventTime maxDistance
         referenceLocation (heap w))
      ∅ events in
  (categoryCounts, {| clock := max.2; heap := heap w |}).
End EventFilter.
End EventFilter.

(* ================================================================== *)
(** * Strings *)

(** [toLowerCase] and [trim] as they are on ASCII text, for the sample
    engine below: the letters A to Z are folded, other characters are
    kept. *)
Definition toLowerCase_ascii (c : ascii) : ascii :=
  let n := nat_of_ascii c in
  if ((65 <=? n) && (n <=? 90))%nat then ascii_of_nat (n + 32) else c.

Fixpoint toLowerCase_ASCII (s : string) : string :=
  match s with
  | EmptyString => EmptyString
  | String c s' => String (toLowerCase_ascii c) (toLowerCase_ASCII s')
  end.

(** White space removed by [trim]: tab, line feed, vertical tab, form
    feed, carriage return and space. *)
Definition isWhiteSpace (c : ascii) : bool :=
  let n := nat_of_ascii c in
  ((9 <=? n) && (n <=? 13) || (n =? 32))%nat.

Fixpoint trimStart (s : string) : string :=
  match s with
  | EmptyString => EmptyString
  | String c s' => if isWhiteSpace c then trimStart s' else s
  end.

Fixpoint trimEnd (s : string) : string :=
  match s with
  | EmptyString => EmptyString
  | String c s' =>
      match trimEnd s' with
      | EmptyString => if isWhiteSpace c then EmptyString
                       else String c EmptyString
      | t => String c t
      end
  end.

Definition trim_ASCII (s : string) : string := trimEnd (trimStart s).

(** [`${v}`] for a string property that may be missing. *)
Definition template_string (v : option string) : string :=
  match v with
  | Some s => s
  | None => "undefined"
  end.

(** [s.padStart(n, c)] for a one-character pad string. *)
Fixpoint repeat_ascii (n : nat) (c : ascii) (s : string) : string :=
  match n with
  | O => s
  | S n' => String c (repeat_ascii n' c s)
  end.

Definition padStart (s : string) (n : nat) (c : ascii) : string :=
  repeat_ascii (n - String.length s) c s.

(** [String(n)] for an integer. *)
Definition String_of (n : Z) : string := pretty n.

(** [s.substring(start, end)]: both arguments are clamped to the range
    from 0 to the length of [s], and swapped when [start] is the
    larger. *)
Definition String_substring (s : string) (start end_ : Z) : string :=
  let len := Z.of_nat (String.length s) in
  let finalStart := Z.min (Z.max start 0) len in
  let finalEnd := Z.min (Z.max end_ 0) len in
  let from := Z.min finalStart finalEnd in
  let to := Z.max finalStart finalEnd in
  substring (Z.to_nat from) (Z.to_nat (to - from)) s.

(* ================================================================== *)
(** * A JavaScript [Map] with string keys *)

(** The entries in insertion order. *)
Definition JSMap (V : Type) : Type := list (string * V).

Fixpoint Map_get {V} (m : JSMap V) (key : string) : option V :=
  match m with
  | [] => None
  | (k, v) :: m' => if String.eqb k key then Some v else Map_get m' key
  end.

Definition Map_has {V} (m : JSMap V) (key : string) : bool :=
  match Map_get m key with
  | Some _ => true
  | None => false
  end.

(** A write to the object stored under [key]; the entry keeps its place. *)
Fixpoint Map_modify {V} (f : V → V) (m : JSMap V) (key : string)
    : JSMap V :=
  match m with
  | [] => []
  | (k, v) :: m' =>
      if String.eqb k key then (k, f v) :: m'
      else (k, v) :: Map_modify f m' key
  end.

(** [m.set(key, v)]: a new key goes to the end. *)
Definition Map_set {V} (m : JSMap V) (key : string) (v : V) : JSMap V :=
  if Map_has m key then Map_modify (λ _, v) m key else m ++ [(key, v)].

(** [Array.from(m.values())] *)
Definition Map_values {V} (m : JSMap V) : list V := m.*2.

(* ================================================================== *)
(** * app-refactored.js: [SpeechBubbles] *)

Module SpeechBubbles.
Section SpeechBubbles.
Context {rt : Runtime}.
(** Leaflet markers are opaque here. *)
Variable Marker : Type.

(** [{event, marker, originalIndex}] *)
Record EventItem := {
  event : nat;
  marker : option Marker;
  originalIndex : nat
}.

(** [{...item, duplicateCount, duplicates}] *)
Record UniqueItem := {
  item : EventItem;
  duplicateCount : nat;
  duplicates : list nat
}.

(** The key under which [deduplicateEvents] files an item. *)
Definition item_key (h : Heap) (i : EventItem) : string :=
  let title := trim (toLowerCase (title (h (event i)))) in
  let startTime := start_time (h (event i)) in
  title +:+ "|" +:+ template_string startTime.

(** [existing.duplicateCount++; existing.duplicates.push(item.event)] *)
Definition add_duplicate (i : EventItem) (existing : UniqueItem)
    : UniqueItem :=
  {| item := item existing;
     duplicateCount := S (duplicateCount existing);
     duplicates := duplicates existing ++ [event i] |}.

Definition deduplicate_step (h : Heap) (uniqueMap : JSMap UniqueItem)
    (i : EventItem) : JSMap UniqueItem :=
  let key := item_key h i in
  if Map_has uniqueMap key then Map_modify (add_duplicate i) uniqueMap key
  else
    Map_set uniqueMap key
      {| item := i; duplicateCount := 1; duplicates := [event i] |}.

Definition deduplicateEvents (h : Heap) (eventItems : list EventItem)
    : list UniqueItem :=
  let uniqueMap := foldl (deduplicate_step h) [] eventItems in
  Map_values uniqueMap.

Definition maxBubbles : nat := 30.

(** [showAllSpeechBubbles] up to the list of unique items, for each of
    which one bubble is created (the DOM is not modelled). *)
Definition showAllSpeechBubbles (h : Heap) (events : list nat)
    (markers : list Marker) : list UniqueItem :=
  let eventsToShow := take maxBubbles events in
  let eventItems :=
    imap (λ index event,
            {| event := event; marker := markers !! index;
               originalIndex := index |}) eventsToShow in
  let uniqueItems := deduplicateEvents h eventItems in
  uniqueItems.

(** [truncateText(text, maxLength)] for a string [text]. *)
Definition truncateText (text : string) (maxLength : Z) : string :=
  if Z.of_nat (String.length text) <=? maxLength then text
  else String_substring text 0 (maxLength - 3) +:+ "...".
End SpeechBubbles.
End SpeechBubbles.

(* ================================================================== *)
(** * speech-bubbles.js: the simplified [SpeechBubbles] *)

Module SpeechBubblesSimple.
Section SpeechBubblesSimple.
Context {rt : Runtime}.
(** [{event, groupSize, duplicateCount}]; [event] is [group[0]]. *)
Record EventItem := {
  event : option nat;
  groupSize : nat;
  duplicateCount : nat
}.

Definition event_key (h : Heap) (event : nat) : string :=
  trim (toLowerCase (title (h event))).

(** [if (!titleMap.has(key)) titleMap.set(key, []);
     titleMap.get(key).push(event)] *)
Definition group_step (h : Heap) (titleMap : JSMap (list nat))
    (event : nat) : JSMap (list nat) :=
  let key := event_key h event in
  let titleMap :=
    if negb (Map_has titleMap key) then Map_set titleMap key []
    else titleMap in
  Map_modify (λ group, group ++ [event]) titleMap key.

Definition deduplicateEvents (h : Heap) (events : list nat)
    : list EventItem :=
  let titleMap := foldl (group_step h) [] events in
  (λ group, {| event := group !! 0%nat;
               groupSize := length group;
               duplicateCount := length group |}) <$> Map_values titleMap.

(** [{x, y}], in pixels from the top left corner of the map. *)
Record Position := {
  x : Q;
  y : Q
}.

Definition bubbleWidth : Z := 220.
Definition bubbleHeight : Z := 140.
Definition margin : Z := 10.
Definition spacing : Z := 15.

(** [calculateSimplePosition(markerPos, index)]; the size of the map
    container is read from the DOM, and [markerPos] is not used. *)
Definition calculateSimplePosition (viewportWidth viewportHeight : Z)
    (index : nat) : Position :=
  let cellWidth := bubbleWidth + spacing in
  let cellHeight := bubbleHeight + spacing in
  let columns := Z.max 1 (viewportWidth / cellWidth) in
  let col := Z.of_nat index mod columns in
  let row := Z.of_nat index / columns in
  let rowOffset := (inject_Z (row mod 2) * (inject_Z cellWidth / 2))%Q in
  let x := (inject_Z (col * cellWidth) + inject_Z margin + rowOffset)%Q in
  let y := (inject_Z (row * cellHeight) + inject_Z margin)%Q in
  let seed := (Z.of_nat index * 13 + 7) mod 100 in
  let randomX := seed mod 11 - 5 in
  let randomY := (seed * 17) mod 11 - 5 in
  let x := (x + inject_Z randomX)%Q in
  let y := (y + inject_Z randomY)%Q in
  let x :=
    Qmax (inject_Z margin)
      (Qmin x (inject_Z (viewportWidth - bubbleWidth - margin))) in
  let y :=
    Qmax (inject_Z margin)
      (Qmin y (inject_Z (viewportHeight - bubbleHeight - margin))) in
  {| x := x; y := y |}.

(** [truncateText(text, maxLength)] for a string [text]; the empty
    string is falsy. *)
Definition truncateText (text : string) (maxLength : Z) : string :=
  if String.eqb text EmptyString ||
     (Z.of_nat (String.length text) <=? maxLength)
  then text
  else String_substring text 0 (maxLength - 3) +:+ "...".
End SpeechBubblesSimple.
End SpeechBubblesSimple.

(* ================================================================== *)
(** * app-refactored.js: [EventUtils] *)

Module EventUtils.
Section EventUtils.
Context {rt : Runtime}.

Definition pad2 (n : Z) : string := padStart (String_of n) 2 "0".

Definition formatDateTime (date : Z) : string :=
  let year := getFullYear date in
  let month := pad2 (getMonth date + 1) in
  let day := pad2 (getDate date) in
  let hours := pad2 (getHours date) in
  let minutes := pad2 (getMinutes date) in
  let seconds := pad2 (getSeconds date) in
  String_of year +:+ "-" +:+ month +:+ "-" +:+ day +:+ "T" +:+
  hours +:+ ":" +:+ minutes +:+ ":" +:+ seconds.

Definition formatDateTimeWithTZ (date : Z) (tzString : string) : string :=
  formatDateTime date +:+ tzString.

(** [if (n) d = set(d, get(d) + n)]: nothing happens for a missing or
    zero [n]. *)
Definition add_if_truthy (n : option Z) (get : Z → Z) (set : Z → Z → Z)
    (d : Z) : Z :=
  match n with
  | Some v => if v =? 0 then d else set d (get d + v)
  | None => d
  end.

(** [n || d] *)
Definition number_or (n : option Z) (d : Z) : Z :=
  match n with
  | Some v => if v =? 0 then d else v
  | None => d
  end.

Definition set_times (start_time' end_time' : string) (e : Event)
    : Event :=
  {| id := id e; title := title e; category := category e;
     start_time := Some start_time'; end_time := Some end_time';
     location := location e; distance := distance e;
     relative_time := relative_time e; published_at := published_at e |}.

Definition set_published_at (p : string) (e : Event) : Event :=
  {| id := id e; title := title e; category := category e;
     start_time := start_time e; end_time := end_time e;
     location := location e; distance := distance e;
     relative_time := relative_time e; published_at := Some p |}.

(** The callback of [processTemplateEvents]; [now] was read once,
    before the loop over the events. *)
Definition processTemplateEvent (now : Z) (event : Event) : M Event :=
  match relative_time event with
  | None => mret event
  | Some spec =>
      let processedEvent := event in
      let type := type spec in
      processedEvent ←
        (if String.eqb type "offset" then
           let startTime := now in
           let startTime :=
             add_if_truthy (hours spec) getHours setHours1 startTime in
           let startTime :=
             add_if_truthy (minutes spec) getMinutes setMinutes
               startTime in
           let durationMs :=
             number_or (duration_hours spec) 2 * 60 * 60 * 1000 in
           let endTime := getTime startTime + durationMs in
           let tzOffset := number_or (timezone_offset spec) 0 in
           if negb (tzOffset =? 0) then
             let sign := if 0 <=? tzOffset then "+" else "-" in
             let hours := Z.abs tzOffset in
             let minutes := Z.abs (Z.rem tzOffset 1 * 60) in
             let tzString :=
               sign +:+ pad2 hours +:+ ":" +:+ pad2 minutes in
             mret (set_times (formatDateTimeWithTZ startTime tzString)
                     (formatDateTimeWithTZ endTime tzString)
                     processedEvent)
           else
             mret (set_times (formatDateTime startTime)
                     (formatDateTime endTime) processedEvent)
         else if String.eqb type "sunrise_relative" then
           sunrise ← EventFilter.getNextSunrise;
           let startTime := sunrise in
           let startTime :=
             add_if_truthy (start_offset_hours spec) getHours setHours1
               startTime in
           let startTime :=
             add_if_truthy (start_offset_minutes spec) getMinutes
               setMinutes startTime in
           let endTime := sunrise in
           let endTime :=
             add_if_truthy (end_offset_hours spec) getHours setHours1
               endTime in
           let endTime :=
             add_if_truthy (end_offset_minutes spec) getMinutes
               setMinutes endTime in
           mret (set_times (formatDateTime startTime)
                   (formatDateTime endTime) processedEvent)
         else mret processedEvent);
      mret (set_published_at (formatDateTime now) processedEvent)
  end.

Definition processTemplateEvents (events : list Event)
    : M (list Event) :=
  now ← new_Date;
  mapM_clock (processTemplateEvent now) events.
End EventUtils.
End EventUtils.

(* ================================================================== *)
(** * A concrete runtime *)

Definition digit (c : ascii) : option Z :=
  let n := nat_of_ascii c in
  if ((48 <=? n) && (n <=? 57))%nat then Some (Z.of_nat (n - 48)) else None.

Fixpoint digits (acc : Z) (l : list ascii) : option Z :=
  match l with
  | [] => Some acc
  | c :: l' => d ← digit c; digits (10 * acc + d) l'
  end.

Definition in_range (lo hi v : Z) : option Z :=
  if (lo <=? v) && (v <=? hi) then Some v else None.

(** The parser for the one format that [formatDateTime] writes,
    [YYYY-MM-DDTHH:mm:ss], read as local time as ECMAScript prescribes;
    every other string is taken as an Invalid Date. *)
Definition parseLocalDateTime (tz : Z) (s : string) : option Z :=
  match list_ascii_of_string s with
  | [y1; y2; y3; y4; "-"; m1; m2; "-"; d1; d2; "T";
     h1; h2; ":"; n1; n2; ":"; s1; s2]%char =>
      year ← digits 0 [y1; y2; y3; y4];
      month ← digits 0 [m1; m2] ≫= in_range 1 12;
      day ← digits 0 [d1; d2] ≫= in_range 1 31;
      hour ← digits 0 [h1; h2] ≫= in_range 0 24;
      min ← digits 0 [n1; n2] ≫= in_range 0 59;
      sec ← digits 0 [s1; s2] ≫= in_range 0 59;
      Some (MakeDate (MakeDay year (month - 1) day)
              (MakeTime hour min sec 0) - tz)
  | _ => None
  end.

(** The properties of [Object.prototype], with the strings that the
    functions convert to in V8. *)
Definition native (name : string) : JSValue :=
  Obj ("function " +:+ name +:+ "() { [native code] }").

Definition standard_Object_prototype (key : string) : option JSValue :=
  if String.eqb key "__proto__" then Some (Obj "[object Object]")
  else if String.eqb key "constructor" then Some (native "Object")
  else if bool_decide
            (key ∈ ["hasOwnProperty"; "isPrototypeOf";
                    "propertyIsEnumerable"; "toLocaleString"; "toString";
                    "valueOf"; "__defineGetter__"; "__defineSetter__";
                    "__lookupGetter__"; "__lookupSetter__"])
  then Some (native key)
  else None.

(** An engine in a zone [tz] milliseconds east of Greenwich, for ASCII
    text. *)
Definition runtime (tz : Z) : Runtime :=
  {| LocalTZA := tz; Date_parse := parseLocalDateTime tz;
     toLowerCase := toLowerCase_ASCII; trim := trim_ASCII;
     Object_prototype := standard_Object_prototype |}.

(** Central European Time all year: one hour east of Greenwich. *)
Definition CET : Runtime := runtime (1 * msPerHour).


(* ================================================================== *)
(** * Vocabulary of the statements *)

Section Vocabulary.
Context {rt : Runtime}.

(** The value of [daysUntilSunday] in [getNextSundayPrimetime], for the
    clock reading [now]. *)
Definition daysUntilSunday (now : Z) : Z :=
  if getDay now =? 0 then
    if 20 * 60 + 15 <=? getHours now * 60 + getMinutes now then 7 else 0
  else 7 - getDay now.

(** The midnight that begins the Sunday of [getNextSundayPrimetime]:
    the value of [nextSunday] in [getNextFullMoonMorning]. *)
Definition sundayMidnight (c : Clock) : Z :=
  setHours (getTime (EventFilter.getNextSundayPrimetime c).1) 0 0 0 0.

(** The full moon from which the search starts: the value of
    [fullMoon] before the loop, for the clock reading [now]. *)
Definition fullMoon_start (now : Z) : Q :=
  (inject_Z EventFilter.knownFullMoon +
   inject_Z
     (Qfloor (inject_Z (now - EventFilter.knownFullMoon) /
              EventFilter.lunarCycle)) *
   EventFilter.lunarCycle)%Q.

(** The candidate after [n] iterations of the loop body. *)
Definition fullMoon_advance (n : nat) (fullMoon : Q) : Q :=
  Nat.iter n (λ m, (m + EventFilter.lunarCycle)%Q) fullMoon.

(** The value of [fullMoon] after the loop, for the Sunday midnight
    [nextSunday] and the clock reading [now]. *)
Definition foundFullMoon (nextSunday now : Z) : Q :=
  let start := fullMoon_start now in
  match EventFilter.fullMoon_while
          (EventFilter.fullMoon_fuel nextSunday start) nextSunday start
  with
  | Some found => found
  | None => start
  end.

(** 06:00 on the calendar day after [fullMoon]: the last three
    statements of [getNextFullMoonMorning]. *)
Definition morningAfter (fullMoon : Q) : Z :=
  let d := EventFilter.wholeMs fullMoon in
  setHours (setDate d (getDate d + 1)) 6 0 0 0.

(** The full-moon boundary when the clock stands still at [now]. *)
Definition fullMoonBoundary (now : Z) : Z :=
  (EventFilter.getNextFullMoonMorning (frozen now)).1.
End Vocabulary.

(** [e] without its [distance] annotation. *)
Definition clear_distance (e : Event) : Event :=
  {| id := id e; title := title e; category := category e;
     start_time := start_time e; end_time := end_time e;
     location := location e; distance := None;
     relative_time := relative_time e; published_at := published_at e |}.

(** The number that a property of [categoryCounts] holds; a property
    that holds a string contributes nothing to a sum of counts. *)
Definition count_of (v : JSValue) : nat :=
  match v with
  | Num n => n
  | _ => 0%nat
  end.

(** The sum of the counts of the own properties of [categoryCounts]. *)
Definition sum_counts (categoryCounts : gmap string JSValue) : nat :=
  map_fold (λ _ v acc, (count_of v + acc)%nat) 0%nat categoryCounts.

(** All the own properties of [categoryCounts] hold counts of 1 or
    more. *)
Definition all_counts (m : gmap string JSValue) : Prop :=
  ∀ k v, m !! k = Some v → ∃ n, v = Num (S n).

(** The events for which [filterEvents] gets as far as the distance:
    the bookmarked ones, and those that have passed the time gate and
    the category gate. *)
Definition measured {rt : Runtime} (storage : EventStorage.t)
    (maxEventTime : Z) (category : string) (e : Event) : Prop :=
  EventStorage.isBookmarked storage (id e) = true ∨
  (EventFilter.Date_gt (EventFilter.new_Date_of (start_time e))
     maxEventTime = false ∧
   (category = "all" ∨ event_category e = Some category)).

(** ** Grouping by a key *)

Section Grouping.
Context {A K : Type} `{EqDecision K} (key : A → K).

(** The items of [l] with the key [k], in the order of [l]. *)
Definition with_key (k : K) (l : list A) : list A :=
  filter (λ x, key x = k) l.

(** The items of [l] that are the first with their key, skipping the
    keys in [seen]. *)
Fixpoint first_seen (seen : list K) (l : list A) : list A :=
  match l with
  | [] => []
  | x :: l' =>
      if decide (key x ∈ seen) then first_seen seen l'
      else x :: first_seen (key x :: seen) l'
  end.
End Grouping.

(** The map that a grouping loop has built after the items of [l]: one
    entry for each first-seen item [i], with the value [G l i]. *)
Definition grouped {A V : Type} (key : A → string) (G : list A → A → V)
    (l : list A) : JSMap V :=
  (λ i, (key i, G l i)) <$> first_seen key [] l.

Global Instance R_eq_dec : EqDecision R := Req_dec_T.
Global Instance Location_eq_dec : EqDecision Location.
Proof. solve_decision. Defined.

Section IdentityKey.
Context {rt : Runtime}.
Variable Marker : Type.

(** One group for each key that occurs in [items], in the order of
    first occurrence; the first item with the key represents the group,
    and all the items with the key are its members. *)
Definition group_by {K : Type} `{EqDecision K}
    (key : SpeechBubbles.EventItem Marker → K)
    (items : list (SpeechBubbles.EventItem Marker))
    : list (SpeechBubbles.UniqueItem Marker) :=
  (λ i, {| SpeechBubbles.item := i;
           SpeechBubbles.duplicateCount :=
             length (with_key key (key i) items);
           SpeechBubbles.duplicates :=
             SpeechBubbles.event Marker <$> with_key key (key i) items |})
    <$> first_seen key [] items.

(** Following the specification's words: the identity key of an event
    is its identifier when present, otherwise the composite of the
    case-folded, trimmed title, the start time and the location
    coordinates. *)
Definition identityKey (h : Heap) (i : SpeechBubbles.EventItem Marker)
    : string + string * option string * option Location :=
  let e := h (SpeechBubbles.event Marker i) in
  match id e with
  | Some identifier => inl identifier
  | None => inr (trim (toLowerCase (title e)), start_time e, location e)
  end.
End IdentityKey.

Section Members.
Variable Marker : Type.

(** All the members of all the groups of a map, and the sum of the
    counts of its groups. *)
Definition members (m : JSMap (SpeechBubbles.UniqueItem Marker))
    : list nat :=
  concat (SpeechBubbles.duplicates Marker <$> Map_values m).

Definition total_count (m : JSMap (SpeechBubbles.UniqueItem Marker))
    : nat :=
  sum_list_with (SpeechBubbles.duplicateCount Marker) (Map_values m).
End Members.

(** The groups of the simplified [deduplicateEvents], in the same way. *)
Definition group_by_title {rt : Runtime} (h : Heap) (events : list nat)
    : list SpeechBubblesSimple.EventItem :=
  let key := SpeechBubblesSimple.event_key h in
  (λ e, {| SpeechBubblesSimple.event := Some e;
           SpeechBubblesSimple.groupSize :=
             length (with_key key (key e) events);
           SpeechBubblesSimple.duplicateCount :=
             length (with_key key (key e) events) |})
    <$> first_seen key [] events.


(* ================================================================== *)
(** * Sample data *)

(** An event with an id, a title, a category and a start time only. *)
Definition plain_event (i t cat start : string) : Event :=
  {| id := Some i; title := t; category := Some cat;
     start_time := Some start; end_time := None; location := None;
     distance := None; relative_time := None; published_at := None |}.

(** The heap that holds the events of [l] at the addresses 0, 1, ... *)
Definition heap_of (l : list Event) : Heap :=
  λ r, default
         (plain_event EmptyString EmptyString EmptyString EmptyString)
         (l !! r).

Definition no_bookmarks : EventStorage.t :=
  {| EventStorage.bookmarks := [] |}.

(** A concert on 15 July 2026 at 20:00. *)
Definition concert : Event :=
  plain_event "concert-1" "Concert" "music" "2026-07-15T20:00:00".

(** A workshop at the same time, filed under the category
    [__proto__]. *)
Definition workshop : Event :=
  plain_event "workshop-1" "Workshop" "__proto__" "2026-07-15T20:00:00".

(** The next six hours, any category, within 50 km. *)
Definition next_6h : Filters.t :=
  {| Filters.maxDistance := 50; Filters.timeFilter := "6h";
     Filters.category := "all" |}.

(** 15 July 2026 at 05:59:59, 06:00, 10:00 and 18:00 Central European
    Time. *)
Definition at_05_59_59 : Z := 1784091599000.
Definition at_06_00 : Z := 1784091600000.
Definition at_10_00 : Z := 1784106000000.
Definition at_18_00 : Z := 1784134800000.

(** A clock that reads 18:00 three times and 10:00 from then on. *)
Definition clock_set_back : Clock :=
  λ k, if (k <? 3)%nat then at_18_00 else at_10_00.

(** A market at the town square of Hof. *)
Definition town_square : Location := {| lat := 50.3150; lon := 11.9180 |}.

Definition market : Event :=
  {| id := Some "market-1"; title := "Market Day";
     category := Some "culture";
     start_time := Some "2026-07-15T10:00:00"; end_time := None;
     location := Some town_square; distance := None;
     relative_time := None; published_at := None |}.

(** Everything upcoming, any category, within 50 km. *)
Definition all_upcoming : Filters.t :=
  {| Filters.maxDistance := 50; Filters.timeFilter := "all";
     Filters.category := "all" |}.

(** Two distinct events, with their own identifiers, that share title
    and start time. *)
Definition concert_a : Event :=
  plain_event "a" "Concert" "music" "2026-07-15T20:00:00".
Definition concert_b : Event :=
  plain_event "b" "Concert" "music" "2026-07-15T20:00:00".

(** The items that [showAllSpeechBubbles] builds for two events without
    markers. *)
Definition two_items : list (SpeechBubbles.EventItem unit) :=
  [ {| SpeechBubbles.event := 0%nat; SpeechBubbles.marker := None;
       SpeechBubbles.originalIndex := 0%nat |};
    {| SpeechBubbles.event := 1%nat; SpeechBubbles.marker := None;
       SpeechBubbles.originalIndex := 1%nat |} ].

(** A template of the demo generator: its static timestamps and the
    specification of its relative time. *)
Definition template (spec : RelativeTime) : Event :=
  {| id := Some "demo_happening_now";
     title := "[DEMO] Event Happening Now"; category := Some "music";
     start_time := Some "2026-01-02T12:00:00";
     end_time := Some "2026-01-02T14:00:00";
     location := None; distance := None;
     relative_time := Some spec; published_at := None |}.

Definition spec_of_type (t : string) : RelativeTime :=
  {| type := t; hours := None; minutes := None; duration_hours := None;
     timezone_offset := None; start_offset_hours := None;
     start_offset_minutes := None; end_offset_hours := None;
     end_offset_minutes := None |}.

(** [{"type": "offset", "minutes": -30, "duration_hours": 2}] *)
Definition started_30_minutes_ago : RelativeTime :=
  {| type := "offset"; hours := None; minutes := Some (-30);
     duration_hours := Some 2; timezone_offset := None;
     start_offset_hours := None; start_offset_minutes := None;
     end_offset_hours := None; end_offset_minutes := None |}.

(** Three records of one market, as three event objects. *)
Definition three_items : list (SpeechBubbles.EventItem unit) :=
  (λ r, {| SpeechBubbles.event := r; SpeechBubbles.marker := None;
           SpeechBubbles.originalIndex := r |}) <$> [0; 1; 2]%nat.

(* ================================================================== *)
(** * More sample data *)

(** Three bookmarks, and a full list of fifteen. *)
Definition three_bookmarks : EventStorage.t :=
  {| EventStorage.bookmarks := ["concert-1"; "market-1"; "reading-1"] |}.

Definition full_bookmarks : EventStorage.t :=
  {| EventStorage.bookmarks :=
       ["e01"; "e02"; "e03"; "e04"; "e05"; "e06"; "e07"; "e08"; "e09";
        "e10"; "e11"; "e12"; "e13"; "e14"; "e15"] |}.


(** A title of 58 characters. *)
Definition long_title : string :=
  "Open-Air Concert of the Hof Symphony Orchestra in the Park".

(** 15 July 2026 at 20:00 and at 22:00 Central European Time. *)
Definition at_20_00 : Z := 1784142000000.
Definition at_22_00 : Z := 1784149200000.

(* ================================================================== *)
(** * More vocabulary *)

Section FilterVocabulary.
Context {rt : Runtime}.

(** What lets an event through [filterEvents]: a bookmark, or all three
    gates (a start time that is not after the boundary, the category of
    the settings, and a distance within the radius when both locations
    are known). The distance is the exact real number, which is never
    NaN. *)
Definition passes (storage : EventStorage.t) (maxEventTime : Z)
    (maxDistance : R) (category : string)
    (referenceLocation : option Location) (e : Event) : Prop :=
  EventStorage.isBookmarked storage (id e) = true ∨
  ((∀ t, EventFilter.new_Date_of (start_time e) = Some t →
         t <= maxEventTime) ∧
   (category = "all" ∨ event_category e = Some category) ∧
   (∀ ref loc,
      referenceLocation = Some ref → location e = Some loc →
      (EventFilter.calculateDistance (lat ref) (lon ref) (lat loc)
         (lon loc) <= maxDistance)%R)).
End FilterVocabulary.

(** What [categoryCounts] holds for a category of which [n] events have
    been counted: the number [n], and no entry at all for 0. *)
Definition count_entry (n : nat) : option JSValue :=
  if (n =? 0)%nat then None else Some (Num n).

(** The settings [filters] with another category or time filter. *)
Definition with_category (c : string) (filters : Filters.t) : Filters.t :=
  {| Filters.maxDistance := Filters.maxDistance filters;
     Filters.timeFilter := Filters.timeFilter filters;
     Filters.category := c |}.

Definition with_timeFilter (t : string) (filters : Filters.t)
    : Filters.t :=
  {| Filters.maxDistance := Filters.maxDistance filters;
     Filters.timeFilter := t;
     Filters.category := Filters.category filters |}.

(** The time filters that are a number of hours, and ['all'], from the
    narrowest to the widest. *)
Definition time_windows : list string := ["6h"; "12h"; "24h"; "48h"; "all"].
(* ================================================================== *)
(** * Facts about time values *)

(** Goals about [/] and [mod] by constants, after unfolding. *)
Ltac date_unfold :=
  unfold setHours, setHours1, setMinutes, getHours, getMinutes, getSeconds,
    getDay, getTime, WeekDay, HourFromTime, MinFromTime, SecFromTime,
    msFromTime, MakeDate, MakeTime, LocalTime, UTC, Day, TimeWithinDay,
    msPerDay, msPerHour, msPerMinute, msPerSecond in *.

Ltac date_arith := date_unfold; Z.div_mod_to_equations; lia.

Lemma MonthFromTime_range (t : Z) : 0 <= MonthFromTime t <= 11.
Proof.
  unfold MonthFromTime.
  repeat match goal with |- context [if ?b then _ else _] => destruct b end;
    lia.
Qed.

(** [MakeDay] undoes the decomposition of a day into year, month and
    date, whatever the date is moved by. *)
Lemma MakeDay_DateFromTime (t k : Z) :
  MakeDay (YearFromTime t) (MonthFromTime t) (DateFromTime t + k) = Day t + k.
Proof.
  pose proof (MonthFromTime_range t) as Hm.
  unfold MakeDay, DateFromTime, DayWithinYear, InLeapYear.
  rewrite (Z.div_small (MonthFromTime t) 12) by lia.
  rewrite (Z.mod_small (MonthFromTime t) 12) by lia.
  rewrite Z.add_0_r. lia.
Qed.

(** [YearFromTime] is the year that contains the day of [t]. *)
Lemma YearFromTime_spec (t : Z) :
  DayFromYear (YearFromTime t) <= Day t < DayFromYear (YearFromTime t + 1).
Proof.
  unfold YearFromTime. cbv zeta. generalize (Day t). intros d.
  set (y := 1970 + d * 400 / 146097).
  assert (Hy : 146097 * (y - 1970) <= d * 400 < 146097 * (y - 1970) + 146097).
  { unfold y. Z.div_mod_to_equations. lia. }
  clearbody y.
  destruct (Z.ltb_spec d (DayFromYear y)) as [H1|H1].
  - replace (y - 1 + 1) with y by lia. split; [|done].
    unfold DayFromYear in *. Z.div_mod_to_equations. lia.
  - destruct (Z.leb_spec (DayFromYear (y + 1)) d) as [H2|H2].
    + split; [done|].
      unfold DayFromYear in *. Z.div_mod_to_equations. lia.
    + done.
Qed.

(** The leap-year rule and the day number of the first of January
    agree. *)
Lemma DaysInYear_DayFromYear (y : Z) :
  DayFromYear (y + 1) - DayFromYear y = DaysInYear y.
Proof.
  unfold DaysInYear, DayFromYear.
  repeat match goal with
         | |- context [?a =? ?b] => destruct (Z.eqb_spec a b)
         end; cbn [negb]; Z.div_mod_to_equations; lia.
Qed.

Lemma DayWithinYear_range (t : Z) :
  0 <= DayWithinYear t < DaysInYear (YearFromTime t).
Proof.
  unfold DayWithinYear. rewrite <- DaysInYear_DayFromYear.
  pose proof (YearFromTime_spec t). lia.
Qed.

Lemma DateFromTime_range (t : Z) : 1 <= DateFromTime t <= 31.
Proof.
  pose proof (DayWithinYear_range t) as H.
  unfold DateFromTime, MonthFromTime, InLeapYear, LeapDays in *.
  revert H. generalize (DayWithinYear t). intros d.
  assert (Hl : 365 <= DaysInYear (YearFromTime t) <= 366).
  { unfold DaysInYear. repeat destruct (negb _); lia. }
  revert Hl. generalize (DaysInYear (YearFromTime t)). intros n Hl H.
  repeat match goal with
         | |- context [?a <? ?b] => destruct (Z.ltb_spec a b)
         end; cbn [monthStart]; lia.
Qed.

Section DateFacts.
Context {rt : Runtime}.

(** [d.setDate(d.getDate() + k)] moves [d] by [k] days. *)
Lemma setDate_getDate (d k : Z) :
  setDate d (getDate d + k) = d + k * msPerDay.
Proof.
  unfold setDate, getDate. rewrite MakeDay_DateFromTime.
  date_arith.
Qed.

Lemma Day_setHours (d hour min sec ms : Z) :
  0 <= MakeTime hour min sec ms < msPerDay →
  Day (LocalTime (setHours d hour min sec ms)) = Day (LocalTime d).
Proof. date_arith. Qed.

Lemma TimeWithinDay_setHours (d hour min sec ms : Z) :
  0 <= MakeTime hour min sec ms < msPerDay →
  TimeWithinDay (LocalTime (setHours d hour min sec ms)) =
  MakeTime hour min sec ms.
Proof. date_arith. Qed.

Lemma setHours_mono (d1 d2 hour min sec ms : Z) :
  Day (LocalTime d1) <= Day (LocalTime d2) →
  setHours d1 hour min sec ms <= setHours d2 hour min sec ms.
Proof. date_arith. Qed.

Lemma Day_LocalTime_mono (d1 d2 : Z) :
  d1 <= d2 → Day (LocalTime d1) <= Day (LocalTime d2).
Proof. date_arith. Qed.

Lemma Day_LocalTime_add_days (d k : Z) :
  Day (LocalTime (d + k * msPerDay)) = Day (LocalTime d) + k.
Proof. date_arith. Qed.

Lemma TimeWithinDay_LocalTime_add_days (d k : Z) :
  TimeWithinDay (LocalTime (d + k * msPerDay)) =
  TimeWithinDay (LocalTime d).
Proof. date_arith. Qed.
End DateFacts.

(* ================================================================== *)
(** * The sunrise boundary *)

Section Sunrise.
Context {rt : Runtime}.

(** [getNextSunrise] reads the clock once. *)
Lemma getNextSunrise_clock (c : Clock) :
  (EventFilter.getNextSunrise c).2 = (new_Date c).2.
Proof. reflexivity. Qed.

(** The value of [getNextSunrise] in terms of the reading [now]. *)
Lemma getNextSunrise_value (c : Clock) :
  (EventFilter.getNextSunrise c).1 =
    let now := c 0%nat in
    if 6 <=? getHours now then setHours now 6 0 0 0 + msPerDay
    else setHours now 6 0 0 0.
Proof.
  unfold EventFilter.getNextSunrise, mbind, M_bind, mret, M_ret, new_Date.
  cbn [fst snd]. destruct (6 <=? getHours (c 0%nat)); [|done].
  rewrite setDate_getDate. lia.
Qed.

(** C4. For every clock reading [now] whose local hour is below 6, the
    sunrise boundary is on the local calendar day of [now] at
    06:00:00.000; for every [now] whose local hour is 6 or more (so also
    at 06:00:00 sharp) it is on the following day at 06:00:00.000. *)
Theorem getNextSunrise_boundary (c : Clock) :
  let now := c 0%nat in
  let sunrise := (EventFilter.getNextSunrise c).1 in
  (getHours now < 6 →
     Day (LocalTime sunrise) = Day (LocalTime now) ∧
     TimeWithinDay (LocalTime sunrise) = MakeTime 6 0 0 0) ∧
  (6 <= getHours now →
     Day (LocalTime sunrise) = Day (LocalTime now) + 1 ∧
     TimeWithinDay (LocalTime sunrise) = MakeTime 6 0 0 0).
Proof.
  intros now sunrise. subst sunrise. rewrite getNextSunrise_value.
  fold now. cbv zeta.
  assert (Hr : 0 <= MakeTime 6 0 0 0 < msPerDay) by (by compute).
  split; intros Hh.
  - destruct (Z.leb_spec 6 (getHours now)); [lia|].
    by rewrite Day_setHours, TimeWithinDay_setHours.
  - destruct (Z.leb_spec 6 (getHours now)); [|lia].
    replace (setHours now 6 0 0 0 + msPerDay)
      with (setHours now 6 0 0 0 + 1 * msPerDay) by lia.
    by rewrite Day_LocalTime_add_days, TimeWithinDay_LocalTime_add_days,
      Day_setHours, TimeWithinDay_setHours.
Qed.
End Sunrise.

(** The boundary at 05:59:59 and at 06:00:00 sharp. *)
Lemma getNextSunrise_boundary_witness :
  (@getHours CET at_05_59_59 < 6 ∧
   Day (@LocalTime CET
          (@EventFilter.getNextSunrise CET (frozen at_05_59_59)).1) =
     Day (@LocalTime CET at_05_59_59) ∧
   TimeWithinDay (@LocalTime CET
          (@EventFilter.getNextSunrise CET (frozen at_05_59_59)).1) =
     MakeTime 6 0 0 0) ∧
  (6 <= @getHours CET at_06_00 ∧
   Day (@LocalTime CET
          (@EventFilter.getNextSunrise CET (frozen at_06_00)).1) =
     Day (@LocalTime CET at_06_00) + 1 ∧
   TimeWithinDay (@LocalTime CET
          (@EventFilter.getNextSunrise CET (frozen at_06_00)).1) =
     MakeTime 6 0 0 0).
Proof.
  split.
  - assert (H : @getHours CET at_05_59_59 < 6) by (vm_compute; reflexivity).
    split; [exact H|].
    exact (proj1 (@getNextSunrise_boundary CET (frozen at_05_59_59)) H).
  - assert (H : 6 <= @getHours CET at_06_00)
      by (vm_compute; discriminate).
    split; [exact H|].
    exact (proj2 (@getNextSunrise_boundary CET (frozen at_06_00)) H).
Defined.

(* ================================================================== *)
(** * The Sunday and full-moon boundaries *)

Section FullMoon.
Context {rt : Runtime}.
Import EventFilter.

Lemma lunarCycle_pos : (0 < lunarCycle)%Q.
Proof. reflexivity. Qed.

Lemma lunarCycle_day : (inject_Z msPerDay <= lunarCycle)%Q.
Proof. by vm_compute. Qed.

Lemma fullMoon_advance_S n f :
  fullMoon_advance (S n) f = fullMoon_advance n (f + lunarCycle)%Q.
Proof. unfold fullMoon_advance. by rewrite Nat.iter_succ_r. Qed.

Lemma fullMoon_advance_eq n f :
  (fullMoon_advance n f == f + inject_Z (Z.of_nat n) * lunarCycle)%Q.
Proof.
  induction n as [|n IH].
  - cbn. ring.
  - change (fullMoon_advance (S n) f)
      with (fullMoon_advance n f + lunarCycle)%Q.
    rewrite IH, Nat2Z.inj_succ. unfold Z.succ. rewrite inject_Z_plus. ring.
Qed.

Lemma fullMoon_while_spec fuel S f r :
  fullMoon_while fuel S f = Some r →
  ∃ n : nat,
    (n <= fuel)%nat ∧ r = fullMoon_advance n f ∧ (inject_Z S < r)%Q ∧
    ∀ j, (j < n)%nat → (fullMoon_advance j f <= inject_Z S)%Q.
Proof.
  revert f. induction fuel as [|fuel IH]; intros f; cbn.
  - destruct (Qle_bool f (inject_Z S)) eqn:E; [done|].
    intros [= <-]. exists 0%nat. split; [lia|]. split; [done|]. split.
    + apply Qnot_le_lt. intros H. apply Qle_bool_iff in H. congruence.
    + intros; lia.
  - destruct (Qle_bool f (inject_Z S)) eqn:E.
    + intros H. destruct (IH _ H) as (n & Hn & -> & Hlt & Hj).
      exists (Datatypes.S n). split; [lia|].
      split; [by rewrite fullMoon_advance_S|].
      split; [done|]. intros [|j] Hjn.
      * by apply Qle_bool_iff.
      * rewrite fullMoon_advance_S. apply Hj. lia.
    + intros [= <-]. exists 0%nat. split; [lia|]. split; [done|]. split.
      * apply Qnot_le_lt. intros H. apply Qle_bool_iff in H. congruence.
      * intros; lia.
Qed.

Lemma fullMoon_while_enough fuel S f :
  (inject_Z S - f < inject_Z (Z.of_nat fuel) * lunarCycle)%Q →
  is_Some (fullMoon_while fuel S f).
Proof.
  revert f. induction fuel as [|fuel IH]; intros f Hm; cbn.
  - destruct (Qle_bool f (inject_Z S)) eqn:E; [|done].
    apply Qle_bool_iff in E. exfalso.
    change (inject_Z (Z.of_nat 0)) with 0%Q in Hm. lra.
  - destruct (Qle_bool f (inject_Z S)) eqn:E; [|done].
    apply IH. rewrite Nat2Z.inj_succ in Hm. unfold Z.succ in Hm.
    rewrite inject_Z_plus in Hm.
    change (inject_Z 1) with 1%Q in Hm.
    rewrite Qmult_plus_distr_l, Qmult_1_l in Hm.
    apply Qle_bool_iff in E. lra.
Qed.

Lemma fullMoon_fuel_enough S f :
  (inject_Z S - f < inject_Z (Z.of_nat (fullMoon_fuel S f)) * lunarCycle)%Q.
Proof.
  unfold fullMoon_fuel.
  set (x := ((inject_Z S - f) / lunarCycle)%Q).
  pose proof lunarCycle_pos as HL.
  assert (Hx : (inject_Z S - f == x * lunarCycle)%Q).
  { unfold x. field. lra. }
  rewrite Hx. apply Qmult_lt_compat_r; [done|].
  apply Qle_lt_trans with (inject_Z (Qceiling x)); [apply Qle_ceiling|].
  rewrite <- Zlt_Qlt. lia.
Qed.

Lemma fullMoon_start_bounds now :
  (fullMoon_start now <= inject_Z now)%Q ∧
  (inject_Z now < fullMoon_start now + lunarCycle)%Q.
Proof.
  unfold fullMoon_start.
  set (x := (inject_Z (now - knownFullMoon) / lunarCycle)%Q).
  pose proof lunarCycle_pos as HL.
  assert (Hx : (inject_Z now == inject_Z knownFullMoon + x * lunarCycle)%Q).
  { unfold x, Z.sub. rewrite inject_Z_plus, inject_Z_opp. field. lra. }
  pose proof (Qfloor_le x) as H1. pose proof (Qlt_floor x) as H2.
  rewrite inject_Z_plus in H2. change (inject_Z 1) with 1%Q in H2.
  assert (H1' := Qmult_le_compat_r _ _ lunarCycle H1 (Qlt_le_weak _ _ HL)).
  assert (H2' := Qmult_lt_compat_r _ _ lunarCycle HL H2).
  split; lra.
Qed.


Lemma getNextSundayPrimetime_value (c : Clock) :
  (getNextSundayPrimetime c).1 =
    setHours (c 0%nat + daysUntilSunday (c 0%nat) * msPerDay) 20 15 0 0.
Proof.
  unfold getNextSundayPrimetime, mbind, M_bind, mret, M_ret, new_Date.
  cbn [fst snd]. by rewrite setDate_getDate.
Qed.

Lemma sundayMidnight_value (c : Clock) :
  sundayMidnight c =
    UTC (MakeDate (Day (LocalTime (c 0%nat)) + daysUntilSunday (c 0%nat)) 0).
Proof.
  unfold sundayMidnight. rewrite getNextSundayPrimetime_value.
  generalize (daysUntilSunday (c 0%nat)); intros k. date_arith.
Qed.

Lemma daysUntilSunday_range (now : Z) : 0 <= daysUntilSunday now <= 7.
Proof.
  unfold daysUntilSunday.
  destruct (Z.eqb_spec (getDay now) 0); [destruct (_ <=? _); lia|].
  date_arith.
Qed.

Lemma sunday_day_mono (now1 now2 : Z) :
  now1 <= now2 →
  Day (LocalTime now1) + daysUntilSunday now1 <=
  Day (LocalTime now2) + daysUntilSunday now2.
Proof.
  intros Hle. unfold daysUntilSunday.
  repeat match goal with
         | |- context [?a =? ?b] => destruct (Z.eqb_spec a b)
         | |- context [?a <=? ?b] => destruct (Z.leb_spec a b)
         end; date_arith.
Qed.

Lemma fullMoon_while_complete n S f fuel :
  (inject_Z S < fullMoon_advance n f)%Q →
  (∀ j, (j < n)%nat → (fullMoon_advance j f <= inject_Z S)%Q) →
  (n <= fuel)%nat →
  fullMoon_while fuel S f = Some (fullMoon_advance n f).
Proof.
  revert f fuel. induction n as [|n IH]; intros f fuel Hlt Hj Hfuel.
  - cbn in Hlt.
    assert (E : Qle_bool f (inject_Z S) = false).
    { destruct (Qle_bool f (inject_Z S)) eqn:E; [|done].
      apply Qle_bool_iff in E. lra. }
    destruct fuel; cbn; by rewrite E.
  - destruct fuel as [|fuel]; [lia|]. cbn [fullMoon_while].
    assert (E : Qle_bool f (inject_Z S) = true).
    { apply Qle_bool_iff. apply (Hj 0%nat). lia. }
    rewrite E, fullMoon_advance_S. apply IH.
    + by rewrite <- fullMoon_advance_S.
    + intros j Hjn. rewrite <- fullMoon_advance_S. apply Hj. lia.
    + lia.
Qed.


Lemma foundFullMoon_spec (nextSunday now : Z) :
  ∃ n : nat,
    foundFullMoon nextSunday now = fullMoon_advance n (fullMoon_start now) ∧
    (inject_Z nextSunday < foundFullMoon nextSunday now)%Q ∧
    (∀ j, (j < n)%nat →
      (fullMoon_advance j (fullMoon_start now) <= inject_Z nextSunday)%Q) ∧
    (n <= fullMoon_fuel nextSunday (fullMoon_start now))%nat.
Proof.
  unfold foundFullMoon. cbv zeta.
  destruct (fullMoon_while_enough _ _ _
              (fullMoon_fuel_enough nextSunday (fullMoon_start now)))
    as [found Hf].
  rewrite Hf.
  destruct (fullMoon_while_spec _ _ _ _ Hf) as (n & Hn & -> & Hlt & Hj).
  by exists n.
Qed.

(** The found full moon is the first one after [nextSunday], when the
    Sunday midnight is less than a lunar cycle before [now]. *)
Lemma foundFullMoon_first (nextSunday now : Z) :
  (inject_Z now - lunarCycle <= inject_Z nextSunday)%Q →
  (foundFullMoon nextSunday now - lunarCycle <= inject_Z nextSunday)%Q.
Proof.
  intros Hnow.
  destruct (foundFullMoon_spec nextSunday now) as (n & -> & Hlt & Hj & _).
  destruct n as [|n].
  - cbn. pose proof (fullMoon_start_bounds now) as [H1 _]. lra.
  - specialize (Hj n). 
    change (fullMoon_advance (S n) (fullMoon_start now))
      with (fullMoon_advance n (fullMoon_start now) + lunarCycle)%Q.
    assert (H := Hj ltac:(lia)). lra.
Qed.

(** The found full moon is the known one plus a whole number of cycles. *)
Lemma foundFullMoon_multiple (nextSunday now : Z) :
  ∃ m : Z,
    (foundFullMoon nextSunday now ==
       inject_Z knownFullMoon + inject_Z m * lunarCycle)%Q.
Proof.
  destruct (foundFullMoon_spec nextSunday now) as (n & -> & _).
  exists (Qfloor (inject_Z (now - knownFullMoon) / lunarCycle) + Z.of_nat n).
  rewrite fullMoon_advance_eq. unfold fullMoon_start.
  rewrite inject_Z_plus. ring.
Qed.

Lemma foundFullMoon_mono (S1 S2 now1 now2 : Z) :
  S1 <= S2 →
  (inject_Z now1 - lunarCycle <= inject_Z S1)%Q →
  (foundFullMoon S1 now1 <= foundFullMoon S2 now2)%Q.
Proof.
  intros HS Hnow.
  pose proof (foundFullMoon_first S1 now1 Hnow) as H1.
  destruct (foundFullMoon_spec S2 now2) as (_ & _ & H2 & _).
  destruct (foundFullMoon_multiple S1 now1) as [m1 E1].
  destruct (foundFullMoon_multiple S2 now2) as [m2 E2].
  rewrite E1 in *. rewrite E2 in *.
  rewrite Zle_Qle in HS.
  pose proof lunarCycle_pos as HL.
  assert (Hm : ((inject_Z m1 - 1) * lunarCycle < inject_Z m2 * lunarCycle)%Q)
    by lra.
  apply Qmult_lt_r in Hm; [|done].
  assert (Hle : m1 <= m2).
  { destruct (Z.le_gt_cases m1 m2) as [|Hgt]; [done|]. exfalso.
    assert (Hgt' : m2 + 1 <= m1) by lia.
    rewrite Zle_Qle, inject_Z_plus in Hgt'.
    change (inject_Z 1) with 1%Q in Hgt'. lra. }
  rewrite Zle_Qle in Hle.
  assert (H := Qmult_le_compat_r _ _ lunarCycle Hle (Qlt_le_weak _ _ HL)).
  lra.
Qed.

Lemma morningAfter_value (fullMoon : Q) :
  morningAfter fullMoon = setHours (wholeMs fullMoon + msPerDay) 6 0 0 0.
Proof.
  unfold morningAfter. cbv zeta. by rewrite setDate_getDate, Z.mul_1_l.
Qed.

Lemma morningAfter_mono (f1 f2 : Q) :
  (f1 <= f2)%Q → morningAfter f1 <= morningAfter f2.
Proof.
  intros H. apply Qfloor_resp_le in H. rewrite !morningAfter_value.
  unfold wholeMs. apply setHours_mono, Day_LocalTime_mono. lia.
Qed.

Lemma morningAfter_gt (S : Z) (f : Q) :
  (inject_Z S < f)%Q → S < morningAfter f.
Proof.
  intros H. apply Qlt_le_weak, Qfloor_resp_le in H. rewrite Qfloor_Z in H.
  rewrite morningAfter_value. unfold wholeMs.
  generalize dependent (Qfloor f). intros w Hw. date_arith.
Qed.

Lemma getNextFullMoonMorning_value (c : Clock) :
  (getNextFullMoonMorning c).1 =
    morningAfter (foundFullMoon (sundayMidnight c) (c 1%nat)).
Proof.
  unfold getNextFullMoonMorning, morningAfter, foundFullMoon, sundayMidnight,
    fullMoon_start, mbind, M_bind, mret, M_ret, new_Date.
  cbn [fst snd]. unfold getTime. reflexivity.
Qed.

Lemma sundayMidnight_lower (c : Clock) :
  c 0%nat - msPerDay < sundayMidnight c.
Proof.
  rewrite sundayMidnight_value.
  pose proof (daysUntilSunday_range (c 0%nat)).
  generalize dependent (daysUntilSunday (c 0%nat)). intros. date_arith.
Qed.

Lemma sundayMidnight_mono (c1 c2 : Clock) :
  c1 0%nat <= c2 0%nat → sundayMidnight c1 <= sundayMidnight c2.
Proof.
  intros H. rewrite !sundayMidnight_value.
  pose proof (sunday_day_mono _ _ H). date_arith.
Qed.

Lemma morningAfter_fields (fullMoon : Q) :
  Day (LocalTime (morningAfter fullMoon)) =
    Day (LocalTime (wholeMs fullMoon)) + 1 ∧
  TimeWithinDay (LocalTime (morningAfter fullMoon)) = MakeTime 6 0 0 0.
Proof.
  rewrite morningAfter_value.
  assert (Hr : 0 <= MakeTime 6 0 0 0 < msPerDay) by (by compute).
  rewrite Day_setHours, TimeWithinDay_setHours by done.
  split; [|done].
  replace (wholeMs fullMoon + msPerDay)
    with (wholeMs fullMoon + 1 * msPerDay) by lia.
  by rewrite Day_LocalTime_add_days.
Qed.

(** C5. With the clock standing at [now], the full-moon boundary is 06:00
    on the calendar day after the first full moon that lies strictly
    after the Sunday midnight, the full moons being the known one plus
    whole multiples of the lunar cycle; the boundary is strictly after
    that midnight, and it does not decrease when [now] advances. *)
Theorem fullMoon_boundary (now1 now2 : Z) :
  now1 <= now2 →
  (∃ m : Z,
     let fullMoon :=
       (inject_Z knownFullMoon + inject_Z m * lunarCycle)%Q in
     (inject_Z (sundayMidnight (frozen now1)) < fullMoon)%Q ∧
     (fullMoon - lunarCycle <= inject_Z (sundayMidnight (frozen now1)))%Q ∧
     Day (LocalTime (fullMoonBoundary now1)) =
       Day (LocalTime (wholeMs fullMoon)) + 1 ∧
     TimeWithinDay (LocalTime (fullMoonBoundary now1)) = MakeTime 6 0 0 0) ∧
  sundayMidnight (frozen now1) < fullMoonBoundary now1 ∧
  fullMoonBoundary now1 <= fullMoonBoundary now2.
Proof.
  intros Hle. unfold fullMoonBoundary. rewrite !getNextFullMoonMorning_value.
  change (frozen now1 1%nat) with now1. change (frozen now2 1%nat) with now2.
  set (S1 := sundayMidnight (frozen now1)).
  assert (Hnow : (inject_Z now1 - lunarCycle <= inject_Z S1)%Q).
  { pose proof (sundayMidnight_lower (frozen now1)) as H.
    change (frozen now1 0%nat) with now1 in H. fold S1 in H.
    assert (H' : now1 - msPerDay <= S1) by lia.
    rewrite Zle_Qle in H'. unfold Z.sub in H'.
    rewrite inject_Z_plus, inject_Z_opp in H'.
    pose proof lunarCycle_day. lra. }
  destruct (foundFullMoon_spec S1 now1) as (_ & _ & Hgt & _).
  split; [|split].
  - destruct (foundFullMoon_multiple S1 now1) as [m Hm].
    pose proof (foundFullMoon_first S1 now1 Hnow) as Hfirst.
    pose proof (morningAfter_fields (foundFullMoon S1 now1)) as [Hd Ht].
    exists m. cbv zeta. split; [by rewrite <- Hm|]. split; [by rewrite <- Hm|].
    split; [|exact Ht].
    rewrite Hd. unfold wholeMs. by rewrite (Qfloor_comp _ _ Hm).
  - by apply morningAfter_gt.
  - apply morningAfter_mono, foundFullMoon_mono; [|done].
    by apply sundayMidnight_mono.
Qed.

(** C10. The full-moon search terminates, whatever the clock reads: every
    iteration of the loop strictly increases the candidate, the loop
    condition fails after some number [n] of iterations, the loop then
    returns with any fuel of at least [n], the fuel that
    [getNextFullMoonMorning] passes is at least [n], and its result is
    06:00 on the day after the candidate so found: it is a total
    function. *)
Theorem fullMoon_search_terminates (c : Clock) :
  let nextSunday := sundayMidnight c in
  let start := fullMoon_start (c 1%nat) in
  (∀ fullMoon : Q, (fullMoon < fullMoon + lunarCycle)%Q) ∧
  ∃ n : nat,
    (∀ j, (j < n)%nat →
       (fullMoon_advance j start <= inject_Z nextSunday)%Q) ∧
    (inject_Z nextSunday < fullMoon_advance n start)%Q ∧
    (∀ fuel, (n <= fuel)%nat →
       fullMoon_while fuel nextSunday start =
         Some (fullMoon_advance n start)) ∧
    (n <= fullMoon_fuel nextSunday start)%nat ∧
    (getNextFullMoonMorning c).1 = morningAfter (fullMoon_advance n start).
Proof.
  intros nextSunday start. split.
  { intros fullMoon. pose proof lunarCycle_pos. lra. }
  rewrite getNextFullMoonMorning_value. fold nextSunday.
  destruct (foundFullMoon_spec nextSunday (c 1%nat))
    as (n & Hfound & Hgt & Hj & Hfuel).
  fold start in Hfound, Hj, Hfuel. rewrite Hfound in *.
  exists n. split; [exact Hj|]. split; [exact Hgt|]. split; [|by split].
  intros fuel Hn. by apply fullMoon_while_complete.
Qed.
End FullMoon.

(** The boundary at 10:00 and at 18:00 of one day. *)
Lemma fullMoon_boundary_witness :
  at_10_00 <= at_18_00 ∧
  @sundayMidnight CET (frozen at_10_00) < @fullMoonBoundary CET at_10_00 ∧
  @fullMoonBoundary CET at_10_00 <= @fullMoonBoundary CET at_18_00.
Proof.
  assert (H : at_10_00 <= at_18_00) by (vm_compute; discriminate).
  split; [exact H|].
  exact (proj2 (@fullMoon_boundary CET at_10_00 at_18_00 H)).
Defined.

(** The search that starts at 10:00 on 15 July 2026 finishes. *)
Lemma fullMoon_search_terminates_witness :
  ∃ n found,
    @EventFilter.fullMoon_while n (@sundayMidnight CET (frozen at_10_00))
      (fullMoon_start at_10_00) = Some found.
Proof.
  destruct (@fullMoon_search_terminates CET (frozen at_10_00))
    as (_ & n & _ & _ & Hfuel & _).
  exists n. eexists. apply Hfuel. apply Nat.le_refl.
Defined.

(* ================================================================== *)
(** * Filtering and counting *)

Section Filter.
Context {rt : Runtime}.
Import EventFilter.

Lemma getMaxEventTime_value (timeFilter : string) (c : Clock) :
  (getMaxEventTime timeFilter c).1 =
    let now := c 0%nat in
    let c' : Clock := λ k, c (S k) in
    if String.eqb timeFilter "sunrise" then (getNextSunrise c').1
    else if String.eqb timeFilter "sunday-primetime" then
      (getNextSundayPrimetime c').1
    else if String.eqb timeFilter "full-moon" then
      (getNextFullMoonMorning c').1
    else if String.eqb timeFilter "6h" then now + 6 * 60 * 60 * 1000
    else if String.eqb timeFilter "12h" then now + 12 * 60 * 60 * 1000
    else if String.eqb timeFilter "24h" then now + 24 * 60 * 60 * 1000
    else if String.eqb timeFilter "48h" then now + 48 * 60 * 60 * 1000
    else if String.eqb timeFilter "all" then
      Date_ymd (getFullYear now + 10) 11 31
    else (getNextSunrise c').1.
Proof.
  unfold getMaxEventTime, mbind, M_bind, new_Date. cbn [fst snd].
  repeat match goal with
         | |- context [String.eqb timeFilter ?s] =>
             destruct (String.eqb timeFilter s)
         end; reflexivity.
Qed.

(** The boundary depends on the first three readings of the clock. *)
Lemma getMaxEventTime_readings (timeFilter : string) (c1 c2 : Clock) :
  (∀ k, (k < 3)%nat → c1 k = c2 k) →
  (getMaxEventTime timeFilter c1).1 = (getMaxEventTime timeFilter c2).1.
Proof.
  intros H. rewrite !getMaxEventTime_value. cbv zeta.
  rewrite !getNextSunrise_value, !getNextSundayPrimetime_value,
    !getNextFullMoonMorning_value, !sundayMidnight_value.
  cbv zeta beta.
  by rewrite (H 0%nat), (H 1%nat), (H 2%nat) by lia.
Qed.

Variable storage : EventStorage.t.

Lemma clear_distance_set_distance (d : R) (e : Event) :
  clear_distance (set_distance d e) = clear_distance e.
Proof. reflexivity. Qed.

Lemma heap_update_eq (h : Heap) (r : nat) (e : Event) :
  heap_update h r e r = e.
Proof. unfold heap_update. by rewrite Nat.eqb_refl. Qed.

Lemma heap_update_ne (h : Heap) (r r' : nat) (e : Event) :
  r' ≠ r → heap_update h r e r' = h r'.
Proof.
  intros H. unfold heap_update. by destruct (Nat.eqb_spec r' r).
Qed.

Lemma category_differs_false (c : option string) (category : string) :
  category_differs c category = false ↔ c = Some category.
Proof.
  unfold category_differs. destruct c as [c'|]; [|done].
  destruct (String.eqb_spec c' category) as [->|Hne]; cbn [negb].
  - done.
  - split; [done|]. intros [= ->]. done.
Qed.

Lemma Date_gt_false (eventTime : option Z) (maxEventTime : Z) :
  Date_gt eventTime maxEventTime = false ↔
  ∀ t, eventTime = Some t → t <= maxEventTime.
Proof.
  unfold Date_gt. destruct eventTime as [t|]; [|done].
  rewrite Z.ltb_ge. split.
  - by intros H t' [= <-].
  - intros H. by apply H.
Qed.

Lemma category_gate (c : option string) (category : string) :
  negb (String.eqb category "all") && category_differs c category = false ↔
  category = "all" ∨ c = Some category.
Proof.
  rewrite andb_false_iff, negb_false_iff, category_differs_false.
  by rewrite String.eqb_eq.
Qed.

Ltac callback_cases :=
  repeat match goal with
    | |- context [EventStorage.isBookmarked ?s ?i] =>
        destruct (EventStorage.isBookmarked s i)
    | |- context [Date_gt ?a ?b] => destruct (Date_gt a b)
    | |- context [negb ?a && ?b] => destruct (negb a && b)
    | |- context [match ?x with Some _ => _ | None => _ end] =>
        destruct x
    | |- context [Rgt_dec ?a ?b] => destruct (Rgt_dec a b)
    end; cbn [fst snd].

Section Callback.
Variables (maxEventTime : Z) (maxDistance : R) (category : string)
  (referenceLocation : option Location).

Local Abbreviation callback :=
  (filterEvents_callback storage maxEventTime maxDistance category
     referenceLocation).

(** The callback leaves the heap alone or writes the distance of the
    event from the reference location onto the event. *)
Lemma callback_heap (event : nat) (h : Heap) :
  (callback event h).2 = h ∨
  ∃ ref loc,
    referenceLocation = Some ref ∧ location (h event) = Some loc ∧
    (callback event h).2 =
      heap_update h event
        (set_distance
           (calculateDistance (lat ref) (lon ref) (lat loc) (lon loc))
           (h event)).
Proof.
  unfold filterEvents_callback. cbv zeta.
  destruct referenceLocation as [ref|], (location (h event)) as [loc|];
    callback_cases; first [by left | right; by eexists _, _].
Qed.

(** If the callback keeps an event that has a location, and there is
    a reference location, the distance has been written. *)
Lemma callback_keep (event : nat) (h : Heap) (ref loc : Location) :
  (callback event h).1 = true →
  referenceLocation = Some ref → location (h event) = Some loc →
  (callback event h).2 =
    heap_update h event
      (set_distance
         (calculateDistance (lat ref) (lon ref) (lat loc) (lon loc))
         (h event)).
Proof.
  unfold filterEvents_callback. cbv zeta. intros Hk -> ->.
  revert Hk. callback_cases; done.
Qed.

Lemma callback_frame (event : nat) (h : Heap) (r : nat) :
  clear_distance ((callback event h).2 r) = clear_distance (h r).
Proof.
  destruct (callback_heap event h) as [->|(ref & loc & _ & _ & ->)];
    [done|].
  destruct (decide (r = event)) as [->|Hne].
  - by rewrite heap_update_eq.
  - by rewrite heap_update_ne.
Qed.

Lemma callback_outside (event : nat) (h : Heap) (r : nat) :
  r ≠ event → (callback event h).2 r = h r.
Proof.
  intros Hne.
  destruct (callback_heap event h) as [->|(ref & loc & _ & _ & ->)];
    [done|].
  by rewrite heap_update_ne.
Qed.

(** A distance that is already the right one stays. *)
Lemma callback_distance (event : nat) (h : Heap) (r : nat)
    (ref loc : Location) :
  referenceLocation = Some ref → location (h r) = Some loc →
  distance (h r) =
    Some (calculateDistance (lat ref) (lon ref) (lat loc) (lon loc)) →
  distance ((callback event h).2 r) =
    Some (calculateDistance (lat ref) (lon ref) (lat loc) (lon loc)).
Proof.
  intros Href Hloc Hd.
  destruct (callback_heap event h)
    as [->|(ref' & loc' & Href' & Hloc' & ->)]; [done|].
  destruct (decide (r = event)) as [->|Hne].
  - rewrite heap_update_eq. cbn. congruence.
  - by rewrite heap_update_ne.
Qed.

Lemma array_filter_frame (events : list nat) (h : Heap) (r : nat) :
  clear_distance ((array_filter callback events h).2 r) =
  clear_distance (h r).
Proof.
  revert h. induction events as [|event rest IH]; intros h; [done|].
  cbn [array_filter snd]. by rewrite IH, callback_frame.
Qed.

Lemma array_filter_outside (events : list nat) (h : Heap) (r : nat) :
  r ∉ events → (array_filter callback events h).2 r = h r.
Proof.
  revert h. induction events as [|event rest IH]; intros h Hr; [done|].
  apply not_elem_of_cons in Hr as [Hne Hr].
  cbn [array_filter snd]. by rewrite IH, callback_outside.
Qed.

Lemma array_filter_sublist (events : list nat) (h : Heap) :
  (array_filter callback events h).1 `sublist_of` events.
Proof.
  revert h. induction events as [|event rest IH]; intros h; [done|].
  cbn [array_filter fst].
  destruct ((callback event h).1); by constructor.
Qed.

Lemma location_frame (h h' : Heap) (r : nat) :
  clear_distance (h' r) = clear_distance (h r) →
  location (h' r) = location (h r).
Proof. intros H. exact (f_equal location H). Qed.

Lemma array_filter_distance_stays (events : list nat) (h : Heap)
    (r : nat) (ref loc : Location) :
  referenceLocation = Some ref → location (h r) = Some loc →
  distance (h r) =
    Some (calculateDistance (lat ref) (lon ref) (lat loc) (lon loc)) →
  distance ((array_filter callback events h).2 r) =
    Some (calculateDistance (lat ref) (lon ref) (lat loc) (lon loc)).
Proof.
  intros Href. revert h.
  induction events as [|event rest IH]; intros h Hloc Hd; [done|].
  cbn [array_filter snd]. apply IH.
  - by rewrite (location_frame h _ r (callback_frame event h r)).
  - by apply callback_distance.
Qed.

Lemma array_filter_distance (events : list nat) (h : Heap) (r : nat)
    (ref loc : Location) :
  r ∈ (array_filter callback events h).1 →
  referenceLocation = Some ref → location (h r) = Some loc →
  distance ((array_filter callback events h).2 r) =
    Some (calculateDistance (lat ref) (lon ref) (lat loc) (lon loc)).
Proof.
  intros Hin Href. revert h Hin.
  induction events as [|event rest IH]; intros h Hin Hloc.
  { by apply elem_of_nil in Hin. }
  cbn [array_filter fst snd] in *.
  assert (Hloc1 : location ((callback event h).2 r) = Some loc).
  { by rewrite (location_frame h _ r (callback_frame event h r)). }
  destruct ((callback event h).1) eqn:Hkeep; [|by apply IH].
  apply elem_of_cons in Hin as [->|Hin]; [|by apply IH].
  apply array_filter_distance_stays; [done..|].
  rewrite (callback_keep event h ref loc) by done.
  by rewrite heap_update_eq.
Qed.

(** The callback writes the distance exactly on the events that get as
    far as the distance. *)
Lemma callback_measured (event : nat) (h : Heap) (ref loc : Location) :
  referenceLocation = Some ref → location (h event) = Some loc →
  measured storage maxEventTime category (h event) →
  (callback event h).2 =
    heap_update h event
      (set_distance
         (calculateDistance (lat ref) (lon ref) (lat loc) (lon loc))
         (h event)).
Proof.
  intros -> Hloc Hm. unfold filterEvents_callback. cbv zeta. rewrite Hloc.
  destruct (EventStorage.isBookmarked storage (id (h event))) eqn:Hb;
    [done|].
  destruct Hm as [Hm|[Ht Hc]]; [unfold measured in *; congruence|].
  rewrite Ht. rewrite (proj2 (category_gate _ _) Hc).
  by destruct (Rgt_dec _ _).
Qed.

Lemma callback_not_measured (event : nat) (h : Heap) :
  referenceLocation = None ∨ location (h event) = None ∨
    ¬ measured storage maxEventTime category (h event) →
  (callback event h).2 = h.
Proof.
  intros H. unfold filterEvents_callback. cbv zeta.
  destruct (EventStorage.isBookmarked storage (id (h event))) eqn:Hb.
  { destruct H as [->|[->|Hn]]; [done|by destruct referenceLocation|].
    destruct Hn. by left. }
  destruct (Date_gt _ _) eqn:Ht; [done|].
  destruct (negb _ && _) eqn:Hc; [done|].
  destruct H as [->|[->|Hn]]; [done|by destruct referenceLocation|].
  destruct Hn. right. split; [done|]. by apply category_gate.
Qed.

Lemma measured_frame (h h' : Heap) (r : nat) :
  clear_distance (h' r) = clear_distance (h r) →
  measured storage maxEventTime category (h' r) ↔
  measured storage maxEventTime category (h r).
Proof.
  intros H. unfold measured.
  pose proof (f_equal id H) as Hid.
  pose proof (f_equal start_time H) as Hst.
  pose proof (f_equal event_category H) as Hcat.
  change (event_category (h' r) = event_category (h r)) in Hcat.
  cbn in Hid, Hst. by rewrite Hid, Hst, Hcat.
Qed.

(** A distance that has been written stays. *)
Lemma array_filter_written_stays (events : list nat) (h : Heap)
    (r : nat) (ref loc : Location) (e0 : Event) :
  referenceLocation = Some ref → location (h r) = Some loc →
  h r =
    set_distance
      (calculateDistance (lat ref) (lon ref) (lat loc) (lon loc)) e0 →
  (array_filter callback events h).2 r =
    set_distance
      (calculateDistance (lat ref) (lon ref) (lat loc) (lon loc)) e0.
Proof.
  intros Href. revert h.
  induction events as [|event rest IH]; intros h Hloc Hr; [done|].
  cbn [array_filter snd]. apply IH.
  - by rewrite (location_frame h _ r (callback_frame event h r)).
  - destruct (callback_heap event h)
      as [->|(ref' & loc' & Href' & Hloc' & ->)]; [done|].
    destruct (decide (r = event)) as [->|Hne];
      [|by rewrite heap_update_ne].
    rewrite heap_update_eq.
    assert (ref' = ref) as -> by congruence.
    assert (loc' = loc) as -> by congruence.
    by rewrite Hr.
Qed.

Lemma array_filter_written (events : list nat) (h : Heap) (r : nat)
    (ref loc : Location) :
  r ∈ events →
  referenceLocation = Some ref → location (h r) = Some loc →
  measured storage maxEventTime category (h r) →
  (array_filter callback events h).2 r =
    set_distance
      (calculateDistance (lat ref) (lon ref) (lat loc) (lon loc)) (h r).
Proof.
  intros Hin Href. revert h Hin.
  induction events as [|event rest IH]; intros h Hin Hloc Hm.
  { by apply elem_of_nil in Hin. }
  cbn [array_filter snd].
  destruct (decide (r = event)) as [->|Hne].
  - apply array_filter_written_stays; [done| |].
    + by rewrite (location_frame h _ event (callback_frame event h event)).
    + rewrite (callback_measured event h ref loc) by done.
      by rewrite heap_update_eq.
  - apply elem_of_cons in Hin as [?|Hin]; [done|].
    pose proof (callback_outside event h r Hne) as Hr.
    rewrite <- Hr. apply IH; [done|by rewrite Hr..].
Qed.

Lemma array_filter_not_written (events : list nat) (h : Heap) (r : nat) :
  r ∉ events ∨ referenceLocation = None ∨ location (h r) = None ∨
    ¬ measured storage maxEventTime category (h r) →
  (array_filter callback events h).2 r = h r.
Proof.
  revert h. induction events as [|event rest IH]; intros h H; [done|].
  cbn [array_filter snd].
  destruct (decide (r = event)) as [->|Hne].
  - assert (Hsame : (callback event h).2 = h).
    { apply callback_not_measured.
      destruct H as [H|[H|[H|H]]]; [|tauto..].
      destruct H. by left. }
    rewrite Hsame. apply IH.
    destruct H as [H|H]; [|tauto]. destruct H. by left.
  - pose proof (callback_outside event h r Hne) as Hr.
    rewrite <- Hr. apply IH. rewrite Hr.
    destruct H as [H|H]; [|tauto].
    left. intros Hin. apply H. by right.
Qed.
End Callback.

(** ** Counting *)

(** For a name that is not inherited, the object is a map of counts. *)
Lemma count_up_plain (cat : string) (m : gmap string JSValue) :
  Object_prototype cat = None →
  count_up cat m = <[cat := plus_one (or_zero (m !! cat))]> m.
Proof.
  intros H. unfold count_up, Object_set, Object_get. rewrite H.
  rewrite (bool_decide_eq_false_2 (is_Some None))
    by (intros [? ?]; done).
  rewrite andb_false_r. by destruct (m !! cat).
Qed.

Lemma all_counts_count_up (cat : string) (m : gmap string JSValue) :
  Object_prototype cat = None → all_counts m →
  all_counts (count_up cat m).
Proof.
  intros H Hm k v. rewrite (count_up_plain _ _ H).
  destruct (decide (cat = k)) as [->|Hne].
  - rewrite lookup_insert_eq. intros [= <-].
    destruct (m !! k) as [v'|] eqn:E.
    + destruct (Hm k v' E) as [n ->]. cbn. by exists (n + 1)%nat.
    + by exists 0%nat.
  - rewrite lookup_insert_ne by done. apply Hm.
Qed.

Lemma sum_counts_count_up (cat : string) (m : gmap string JSValue) :
  Object_prototype cat = None → all_counts m →
  sum_counts (count_up cat m) = S (sum_counts m).
Proof.
  intros H Hm. rewrite (count_up_plain _ _ H). unfold sum_counts.
  assert (Hcomm : ∀ (j1 j2 : string) (z1 z2 : JSValue) (y : nat),
             (count_of z1 + (count_of z2 + y) =
              count_of z2 + (count_of z1 + y))%nat) by (intros; lia).
  destruct (m !! cat) as [v|] eqn:E.
  - destruct (Hm cat v E) as [n ->].
    rewrite <- (insert_delete_eq m).
    rewrite map_fold_insert_L;
      [|by intros; apply Hcomm|by rewrite lookup_delete_eq].
    rewrite (map_fold_delete_L _ _ cat (Num (S n)) m);
      [cbn; lia|by intros; apply Hcomm|done].
  - rewrite map_fold_insert_L; [cbn; lia|by intros; apply Hcomm|done].
Qed.

Lemma count_filter_step (maxEventTime : Z) (maxDistance : R)
    (referenceLocation : option Location) (h0 h : Heap)
    (acc : gmap string JSValue) (event : nat) :
  clear_distance (h event) = clear_distance (h0 event) →
  countCategories_callback storage maxEventTime maxDistance
    referenceLocation h0 acc event =
  if (filterEvents_callback storage maxEventTime maxDistance "all"
        referenceLocation event h).1
  then count_up (category_or_uncategorized (category (h0 event))) acc
  else acc.
Proof.
  intros H.
  pose proof (f_equal id H) as Hid.
  pose proof (f_equal start_time H) as Hst.
  pose proof (f_equal location H) as Hloc.
  cbn in Hid, Hst, Hloc.
  unfold countCategories_callback, filterEvents_callback. cbv zeta.
  rewrite Hid, Hst, Hloc. cbn [String.eqb Ascii.eqb Bool.eqb negb andb].
  destruct referenceLocation as [ref|], (location (h0 event)) as [loc|];
    callback_cases; done.
Qed.

Lemma count_filter_agree (maxEventTime : Z) (maxDistance : R)
    (referenceLocation : option Location) (h0 : Heap)
    (events : list nat) (h : Heap) (acc : gmap string JSValue) :
  (∀ r, clear_distance (h r) = clear_distance (h0 r)) →
  all_counts acc →
  (∀ r,
     r ∈ (array_filter
            (filterEvents_callback storage maxEventTime maxDistance "all"
               referenceLocation) events h).1 →
     Object_prototype (category_or_uncategorized (category (h0 r))) =
       None) →
  sum_counts
    (foldl
       (countCategories_callback storage maxEventTime maxDistance
          referenceLocation h0) acc events) =
  (sum_counts acc +
   length
     (array_filter
        (filterEvents_callback storage maxEventTime maxDistance "all"
           referenceLocation) events h).1)%nat.
Proof.
  revert h acc.
  induction events as [|event rest IH]; intros h acc Hh Hacc Hplain.
  { cbn. lia. }
  cbn [foldl array_filter fst] in *.
  rewrite (count_filter_step _ _ _ h0 h) by done.
  assert (Hh' : ∀ r,
            clear_distance
              ((filterEvents_callback storage maxEventTime maxDistance
                  "all" referenceLocation event h).2 r) =
            clear_distance (h0 r)).
  { intros r. by rewrite callback_frame. }
  destruct (filterEvents_callback storage maxEventTime maxDistance "all"
              referenceLocation event h).1.
  - assert (Hevent :
      Object_prototype
        (category_or_uncategorized (category (h0 event))) = None).
    { apply Hplain. by left. }
    rewrite (IH _ _ Hh').
    + rewrite sum_counts_count_up by done. cbn [length]. lia.
    + by apply all_counts_count_up.
    + intros r Hr. apply Hplain. by right.
  - by apply (IH _ _ Hh').
Qed.

(** X30. When the category of the settings is ['all'] and no returned
    event has a category that is the name of a property inherited from
    [Object.prototype], the counts of [countCategoriesUnderFilters] add
    up to the number of events that [filterEvents] returns (both run
    against the same clock and heap; bookmarked events are counted and
    returned). *)
Theorem countCategories_sum (events : list nat) (filters : Filters.t)
    (referenceLocation : option Location) (w : World) :
  Filters.category filters = "all" →
  (∀ r,
     r ∈ (filterEvents storage events filters referenceLocation w).1 →
     Object_prototype
       (category_or_uncategorized (category (heap w r))) = None) →
  sum_counts
    (countCategoriesUnderFilters storage events filters
       referenceLocation w).1 =
  length (filterEvents storage events filters referenceLocation w).1.
Proof.
  intros Hall. unfold countCategoriesUnderFilters, filterEvents.
  cbv zeta. cbn [fst]. rewrite Hall. intros Hplain.
  rewrite (count_filter_agree _ _ _ (heap w) events (heap w) ∅);
    [done|done| |done].
  intros k v. by rewrite lookup_empty.
Qed.

(** C2, as amended. [filterEvents] has no [now] argument: it reads the
    system clock, at most three times (inside [getMaxEventTime] and the
    boundary function it calls). Two invocations with identical events,
    settings, reference location, bookmarks and heap return identical
    results and leave identical heaps whenever these three readings
    agree. *)
Theorem filterEvents_clock (events : list nat) (filters : Filters.t)
    (referenceLocation : option Location) (w1 w2 : World) :
  heap w1 = heap w2 →
  (∀ k, (k < 3)%nat → clock w1 k = clock w2 k) →
  (filterEvents storage events filters referenceLocation w1).1 =
  (filterEvents storage events filters referenceLocation w2).1 ∧
  heap (filterEvents storage events filters referenceLocation w1).2 =
  heap (filterEvents storage events filters referenceLocation w2).2.
Proof.
  intros Hh Hc. unfold filterEvents. cbv zeta. cbn [fst snd heap].
  by rewrite (getMaxEventTime_readings _ _ _ Hc), Hh.
Qed.

(** C3, as amended. [filterEvents] returns references to the caller's own
    event objects: the result is a subsequence of [events]. It writes to
    the caller's objects, and to their [distance] only: every other field
    of every object is unchanged, objects outside [events] are untouched,
    and every returned event that has a location carries its distance
    from the reference location when there is one. The distance is
    written exactly onto the events of the list that have a location,
    when there is a reference location, and that are bookmarked or have
    passed the time gate and the category gate (so also onto events that
    are then dropped for their distance); every other object is left as
    it is. *)
Theorem filterEvents_frame (events : list nat) (filters : Filters.t)
    (referenceLocation : option Location) (w : World) :
  let result := filterEvents storage events filters referenceLocation w in
  let maxEventTime :=
    (getMaxEventTime (Filters.timeFilter filters) (clock w)).1 in
  result.1 `sublist_of` events ∧
  (∀ r, clear_distance (heap result.2 r) = clear_distance (heap w r)) ∧
  (∀ r, r ∉ events → heap result.2 r = heap w r) ∧
  (∀ r ref loc,
     r ∈ result.1 →
     referenceLocation = Some ref → location (heap w r) = Some loc →
     distance (heap result.2 r) =
       Some (calculateDistance (lat ref) (lon ref) (lat loc) (lon loc))) ∧
  (∀ r ref loc,
     r ∈ events →
     referenceLocation = Some ref → location (heap w r) = Some loc →
     measured storage maxEventTime (Filters.category filters) (heap w r) →
     heap result.2 r =
       set_distance
         (calculateDistance (lat ref) (lon ref) (lat loc) (lon loc))
         (heap w r)) ∧
  (∀ r,
     r ∉ events ∨ referenceLocation = None ∨
       location (heap w r) = None ∨
       ¬ measured storage maxEventTime (Filters.category filters)
           (heap w r) →
     heap result.2 r = heap w r).
Proof.
  unfold filterEvents. cbv zeta. cbn [fst snd heap].
  split; [apply array_filter_sublist|].
  split; [intros r; apply array_filter_frame|].
  split; [intros r; apply array_filter_outside|].
  split; [intros r ref loc; apply array_filter_distance|].
  split; [intros r ref loc; apply array_filter_written|].
  intros r. apply array_filter_not_written.
Qed.
End Filter.


(** C2 as stated fails: with the same events, settings, reference
    location, bookmarks and heap, the six-hour filter keeps the concert
    of 20:00 when the clock reads 18:00 and drops it when the clock reads
    10:00. *)
Lemma filterEvents_reads_clock :
  (EventFilter.filterEvents (rt:=CET) no_bookmarks [0%nat] next_6h None
     {| clock := frozen at_18_00; heap := heap_of [concert] |}).1 ≠
  (EventFilter.filterEvents (rt:=CET) no_bookmarks [0%nat] next_6h None
     {| clock := frozen at_10_00; heap := heap_of [concert] |}).1.
Proof. by vm_compute. Qed.



Lemma Math_atan2_0_1 : Math_atan2 0 1 = 0%R.
Proof.
  unfold Math_atan2. destruct (Rlt_dec 0 1) as [_|H]; [|exfalso; Lra.lra].
  replace (0 / 1)%R with 0%R by Lra.lra. apply atan_0.
Qed.

(** A point is at distance 0 from itself. *)
Lemma calculateDistance_same (lat lon : R) :
  EventFilter.calculateDistance lat lon lat lon = 0%R.
Proof.
  unfold EventFilter.calculateDistance. cbv zeta.
  replace ((lat - lat) * PI / 180 / 2)%R with 0%R by Lra.lra.
  replace ((lon - lon) * PI / 180 / 2)%R with 0%R by Lra.lra.
  rewrite sin_0, !Rmult_0_r, Rplus_0_l, Rminus_0_r, sqrt_0, sqrt_1,
    Math_atan2_0_1.
  Lra.lra.
Qed.

(** The callback on an event that is not bookmarked, passes the time
    gate and is within the distance: the distance is written and the
    event is kept. *)
Lemma filterEvents_callback_passes {rt : Runtime}
    (storage : EventStorage.t) (maxEventTime : Z) (maxDistance : R)
    (ref loc : Location) (event : nat) (h : Heap) :
  EventStorage.isBookmarked storage (id (h event)) = false →
  EventFilter.Date_gt (EventFilter.new_Date_of (start_time (h event)))
    maxEventTime = false →
  location (h event) = Some loc →
  ¬ (EventFilter.calculateDistance (lat ref) (lon ref) (lat loc) (lon loc) >
     maxDistance)%R →
  EventFilter.filterEvents_callback storage maxEventTime maxDistance "all"
    (Some ref) event h =
  (true,
   heap_update h event
     (set_distance
        (EventFilter.calculateDistance (lat ref) (lon ref) (lat loc) (lon loc))
        (h event))).
Proof.
  intros Hb Ht Hloc Hd. unfold EventFilter.filterEvents_callback. cbv zeta.
  rewrite Hb, Ht, Hloc. cbn [String.eqb Ascii.eqb Bool.eqb negb andb].
  by destruct (Rgt_dec _ _).
Qed.

(** C3 as stated fails: for a market at the reference location,
    [filterEvents] returns the reference it was given, and the object,
    which had no distance, has the distance 0 afterwards. *)
Lemma filterEvents_writes_distance :
  let w := {| clock := frozen at_10_00; heap := heap_of [market] |} in
  let result :=
    EventFilter.filterEvents (rt:=CET) no_bookmarks [0%nat] all_upcoming
      (Some town_square) w in
  result.1 = [0%nat] ∧
  distance (heap w 0%nat) = None ∧
  distance (heap result.2 0%nat) = Some 0%R.
Proof.
  cbv zeta. unfold EventFilter.filterEvents. cbv zeta.
  cbn [fst snd heap clock EventFilter.array_filter Filters.timeFilter
       Filters.maxDistance Filters.category all_upcoming].
  rewrite (filterEvents_callback_passes (rt:=CET) _ _ _ town_square
             town_square); [| by vm_compute..|].
  - cbn [fst snd]. rewrite heap_update_eq, calculateDistance_same. done.
  - rewrite calculateDistance_same. Lra.lra. 
Qed.

(** C6. The counts are kept in a plain object, so that a category with
    the name of an inherited property is not counted as the claim and
    the documentation of [countCategoriesUnderFilters] say: an event of
    the category [__proto__] is returned by [filterEvents] and counted
    nowhere, and the counts add up to 0 where one event is returned. *)
Lemma countCategories_inherited_name :
  let w := {| clock := frozen at_18_00; heap := heap_of [workshop] |} in
  Filters.category next_6h = "all" ∧
  sum_counts
    (EventFilter.countCategoriesUnderFilters (rt:=CET) no_bookmarks
       [0%nat] next_6h None w).1 = 0%nat ∧
  length
    (EventFilter.filterEvents (rt:=CET) no_bookmarks [0%nat] next_6h None
       w).1 = 1%nat.
Proof. cbv zeta. split; [reflexivity|]. split; vm_compute; reflexivity. Qed.

(** The counts and the filtered list for the concert at 18:00. *)
Lemma countCategories_sum_witness :
  let w := {| clock := frozen at_18_00; heap := heap_of [concert] |} in
  Filters.category next_6h = "all" ∧
  (∀ r,
     r ∈ (EventFilter.filterEvents (rt:=CET) no_bookmarks [0%nat] next_6h
            None w).1 →
     Object_prototype (Runtime:=CET)
       (EventFilter.category_or_uncategorized (category (heap w r))) =
       None) ∧
  sum_counts
    (EventFilter.countCategoriesUnderFilters (rt:=CET) no_bookmarks
       [0%nat] next_6h None w).1 =
  length
    (EventFilter.filterEvents (rt:=CET) no_bookmarks [0%nat] next_6h None
       w).1.
Proof.
  cbv zeta.
  assert (H : ∀ r,
            r ∈ (EventFilter.filterEvents (rt:=CET) no_bookmarks [0%nat]
                   next_6h None
                   {| clock := frozen at_18_00;
                      heap := heap_of [concert] |}).1 →
            Object_prototype (Runtime:=CET)
              (EventFilter.category_or_uncategorized
                 (category
                    (heap {| clock := frozen at_18_00;
                             heap := heap_of [concert] |} r))) = None).
  { assert (E : (EventFilter.filterEvents (rt:=CET) no_bookmarks [0%nat]
                   next_6h None
                   {| clock := frozen at_18_00;
                      heap := heap_of [concert] |}).1 = [0%nat])
      by (vm_compute; reflexivity).
    rewrite E. intros r ->%list_elem_of_singleton.
    vm_compute. reflexivity. }
  split; [reflexivity|]. split; [exact H|].
  exact (countCategories_sum (rt:=CET) no_bookmarks [0%nat] next_6h None
           {| clock := frozen at_18_00; heap := heap_of [concert] |}
           eq_refl H).
Defined.

(** A clock that is set back after its third reading gives the result
    of the clock that is not. *)
Lemma filterEvents_clock_witness :
  (∀ k, (k < 3)%nat → frozen at_18_00 k = clock_set_back k) ∧
  (EventFilter.filterEvents (rt:=CET) no_bookmarks [0%nat] next_6h None
     {| clock := frozen at_18_00; heap := heap_of [concert] |}).1 =
  (EventFilter.filterEvents (rt:=CET) no_bookmarks [0%nat] next_6h None
     {| clock := clock_set_back; heap := heap_of [concert] |}).1.
Proof.
  assert (H : ∀ k, (k < 3)%nat → frozen at_18_00 k = clock_set_back k).
  { intros [|[|[|k]]] Hk; [reflexivity..|lia]. }
  split; [exact H|].
  exact (proj1 (filterEvents_clock (rt:=CET) no_bookmarks [0%nat] next_6h
                  None
                  {| clock := frozen at_18_00; heap := heap_of [concert] |}
                  {| clock := clock_set_back; heap := heap_of [concert] |}
                  eq_refl H)).
Defined.

(** An object that is not in the array is not touched. *)
Lemma filterEvents_frame_witness :
  let w := {| clock := frozen at_10_00; heap := heap_of [market] |} in
  let result :=
    EventFilter.filterEvents (rt:=CET) no_bookmarks [0%nat] all_upcoming
      (Some town_square) w in
  (1%nat ∉ [0%nat]) ∧ heap (result.2) 1%nat = heap w 1%nat.
Proof.
  cbv zeta.
  assert (H : 1%nat ∉ [0%nat]).
  { intros H%list_elem_of_singleton. discriminate H. }
  split; [exact H|].
  exact (proj1 (proj2 (proj2
           (filterEvents_frame (rt:=CET) no_bookmarks [0%nat] all_upcoming
              (Some town_square)
              {| clock := frozen at_10_00; heap := heap_of [market] |})))
           1%nat H).
Defined.

(* ================================================================== *)
(** * De-duplication of the bubbles *)

(** ** Facts about [JSMap] *)

Section JSMapFacts.
Context {V : Type}.
Implicit Types (m : JSMap V) (k : string).

Lemma Map_has_elem m k : Map_has m k = bool_decide (k ∈ m.*1).
Proof.
  unfold Map_has. induction m as [|[k' v] m IH]; [done|]. cbn.
  destruct (String.eqb_spec k' k) as [->|Hne].
  - symmetry. apply bool_decide_eq_true. left.
  - rewrite IH. apply bool_decide_ext. rewrite elem_of_cons.
    split; [by right|]. by intros [?|?].
Qed.

Lemma Map_has_true m k : Map_has m k = true ↔ k ∈ m.*1.
Proof. by rewrite Map_has_elem, bool_decide_eq_true. Qed.

Lemma Map_has_false m k : Map_has m k = false ↔ k ∉ m.*1.
Proof. by rewrite Map_has_elem, bool_decide_eq_false. Qed.

Lemma Map_modify_app_l (f : V → V) m m' k :
  k ∈ m.*1 → Map_modify f (m ++ m') k = Map_modify f m k ++ m'.
Proof.
  induction m as [|[k' v] m IH]; intros Hk; [by apply elem_of_nil in Hk|].
  cbn. destruct (String.eqb_spec k' k) as [->|Hne]; [done|].
  cbn. f_equal. apply IH. cbn in Hk.
  by apply elem_of_cons in Hk as [?|?].
Qed.

Lemma Map_modify_app_r (f : V → V) m m' k :
  k ∉ m.*1 → Map_modify f (m ++ m') k = m ++ Map_modify f m' k.
Proof.
  induction m as [|[k' v] m IH]; intros Hk; [done|].
  cbn in *. apply not_elem_of_cons in Hk as [Hne Hk].
  destruct (String.eqb_spec k' k) as [->|_]; [done|].
  cbn. f_equal. by apply IH.
Qed.

Lemma Map_set_new m k (v : V) : k ∉ m.*1 → Map_set m k v = m ++ [(k, v)].
Proof. intros H. unfold Map_set. by rewrite (proj2 (Map_has_false m k)). Qed.
End JSMapFacts.

(** ** Facts about grouping *)

Section GroupingFacts.
Context {A K : Type} `{EqDecision K} (key : A → K).

Lemma with_key_snoc (k : K) (l : list A) (x : A) :
  with_key key k (l ++ [x]) =
  with_key key k l ++ (if decide (key x = k) then [x] else []).
Proof.
  unfold with_key. by rewrite filter_app.
Qed.

Lemma with_key_not_in (k : K) (l : list A) :
  k ∉ key <$> l → with_key key k l = [].
Proof.
  intros Hk. unfold with_key. induction l as [|x l IH]; [done|].
  cbn in Hk. apply not_elem_of_cons in Hk as [Hne Hk].
  rewrite filter_cons. destruct (decide (key x = k)); [done|]. by apply IH.
Qed.

Lemma first_seen_snoc (seen : list K) (l : list A) (x : A) :
  first_seen key seen (l ++ [x]) =
  first_seen key seen l ++
  (if decide (key x ∈ seen ++ (key <$> l)) then [] else [x]).
Proof.
  revert seen. induction l as [|y l IH]; intros seen; cbn.
  - rewrite app_nil_r. by destruct (decide (key x ∈ seen)).
  - destruct (decide (key y ∈ seen)) as [Hy|Hy].
    + rewrite IH. f_equal. apply decide_ext.
      rewrite !elem_of_app, elem_of_cons.
      split; [tauto|]. intros [?|[E|?]]; [tauto| |tauto]. left. by rewrite E.
    + cbn. f_equal. rewrite IH. f_equal. apply decide_ext.
      rewrite !elem_of_app, !elem_of_cons. tauto.
Qed.

Lemma elem_of_first_seen (seen : list K) (l : list A) (x : A) :
  x ∈ first_seen key seen l → x ∈ l ∧ key x ∉ seen.
Proof.
  revert seen. induction l as [|y l IH]; intros seen; cbn.
  { by intros ?%elem_of_nil. }
  destruct (decide (key y ∈ seen)) as [Hy|Hy].
  - intros [??]%IH. split; [by right|done].
  - intros [->|[? Hx]%IH]%elem_of_cons; [split; [by left|done]|].
    split; [by right|]. intros ?. apply Hx. by right.
Qed.

Lemma first_seen_keys (seen : list K) (l : list A) (k : K) :
  k ∈ key <$> first_seen key seen l ↔ k ∈ key <$> l ∧ k ∉ seen.
Proof.
  revert seen. induction l as [|y l IH]; intros seen; cbn.
  { rewrite elem_of_nil. tauto. }
  destruct (decide (key y ∈ seen)) as [Hy|Hy]; cbn.
  - rewrite IH, elem_of_cons. split; [tauto|].
    intros [[->|?] ?]; tauto.
  - rewrite !elem_of_cons, IH, elem_of_cons.
    destruct (decide (k = key y)) as [->|?]; tauto.
Qed.

Lemma first_seen_NoDup (seen : list K) (l : list A) :
  NoDup (key <$> first_seen key seen l).
Proof.
  revert seen. induction l as [|y l IH]; intros seen; cbn.
  { constructor. }
  destruct (decide (key y ∈ seen)) as [Hy|Hy]; cbn; [done|].
  constructor; [|done]. rewrite first_seen_keys, elem_of_cons. tauto.
Qed.
End GroupingFacts.

Section GroupingFold.
Context {A V : Type} (key : A → string).
Variables (G : list A → A → V) (init : A → V) (add : A → V → V).
Variable step : JSMap V → A → JSMap V.

Hypothesis G_new : ∀ l x, key x ∉ key <$> l → G (l ++ [x]) x = init x.
Hypothesis G_add : ∀ l x i, key i = key x → G (l ++ [x]) i = add x (G l i).
Hypothesis G_other : ∀ l x i, key i ≠ key x → G (l ++ [x]) i = G l i.
Hypothesis step_has :
  ∀ m x, key x ∈ m.*1 → step m x = Map_modify (add x) m (key x).
Hypothesis step_new :
  ∀ m x, key x ∉ m.*1 → step m x = m ++ [(key x, init x)].

Lemma grouped_keys (l : list A) (k : string) :
  k ∈ (grouped key G l).*1 ↔ k ∈ key <$> l.
Proof.
  unfold grouped. rewrite <- list_fmap_compose.
  change (fst ∘ _) with key. rewrite first_seen_keys.
  rewrite elem_of_nil. tauto.
Qed.

Lemma grouped_others (l fs : list A) (x : A) :
  key x ∉ key <$> fs →
  (λ i, (key i, G (l ++ [x]) i)) <$> fs = (λ i, (key i, G l i)) <$> fs.
Proof.
  intros Hx. apply list_fmap_ext. intros n i Hi. f_equal. apply G_other.
  intros E. apply Hx. rewrite <- E. apply list_elem_of_fmap_2.
  by apply list_elem_of_lookup_2 in Hi.
Qed.

Lemma grouped_modify (l fs : list A) (x : A) :
  NoDup (key <$> fs) → key x ∈ key <$> fs →
  Map_modify (add x) ((λ i, (key i, G l i)) <$> fs) (key x) =
  (λ i, (key i, G (l ++ [x]) i)) <$> fs.
Proof.
  induction fs as [|i fs IH]; intros Hnd Hx; [by apply elem_of_nil in Hx|].
  cbn in *. apply NoDup_cons in Hnd as [Hi Hnd].
  destruct (String.eqb_spec (key i) (key x)) as [E|Hne].
  - rewrite G_add by done. f_equal. symmetry. apply grouped_others.
    by rewrite <- E.
  - rewrite G_other by done. f_equal. apply IH; [done|].
    apply elem_of_cons in Hx as [?|?]; [congruence|done].
Qed.

Lemma foldl_step_grouped (l : list A) :
  foldl step [] l = grouped key G l.
Proof.
  induction l as [|x l IH] using rev_ind; [done|].
  rewrite foldl_snoc, IH.
  unfold grouped at 2. rewrite first_seen_snoc, app_nil_l.
  destruct (decide (key x ∈ key <$> l)) as [Hx|Hx].
  - rewrite app_nil_r, step_has by by apply grouped_keys.
    apply grouped_modify; [apply first_seen_NoDup|].
    rewrite first_seen_keys, elem_of_nil. tauto.
  - rewrite step_new by by rewrite grouped_keys.
    rewrite fmap_app. cbn. rewrite G_new by done. f_equal.
    symmetry. apply grouped_others.
    rewrite first_seen_keys. tauto.
Qed.
End GroupingFold.

Lemma head_with_key_first_seen {A K : Type} `{EqDecision K} (key : A → K)
    (seen : list K) (l : list A) (x : A) :
  x ∈ first_seen key seen l → with_key key (key x) l !! 0%nat = Some x.
Proof.
  revert seen. induction l as [|y l IH]; intros seen; cbn [first_seen].
  { by intros ?%elem_of_nil. }
  unfold with_key in *. rewrite filter_cons.
  destruct (decide (key y ∈ seen)) as [Hy|Hy].
  - intros Hx. destruct (elem_of_first_seen _ _ _ _ Hx) as [_ Hk].
    destruct (decide (key y = key x)) as [E|_]; [by rewrite E in Hy|].
    by apply (IH seen).
  - intros [->|Hx]%elem_of_cons; [by rewrite decide_True|].
    destruct (elem_of_first_seen _ _ _ _ Hx) as [_ Hk].
    destruct (decide (key y = key x)) as [E|_].
    + exfalso. apply Hk. rewrite E. left.
    + by apply (IH (key y :: seen)).
Qed.

Section Dedup.
Context {rt : Runtime}.
Variable Marker : Type.
Import SpeechBubbles.

(** C1, as amended. [deduplicateEvents] groups the items by the key made
    of the title, lower-cased and trimmed by the engine's [toLowerCase]
    and [trim], a bar and the start time; neither the identifier nor
    the location takes part. There is one group for each key, in the
    order of first occurrence; the first-seen item represents the
    group, [duplicates] lists the events with the key in input order
    and [duplicateCount] is their number. The simplified
    [deduplicateEvents] of speech-bubbles.js does the same with the
    lower-cased, trimmed title alone as the key. This holds for every
    engine, whatever its [toLowerCase] and [trim] do to text outside
    ASCII. *)
Theorem deduplicateEvents_groups (h : Heap)
    (eventItems : list (EventItem Marker)) (events : list nat) :
  deduplicateEvents Marker h eventItems =
    group_by Marker (item_key Marker h) eventItems ∧
  SpeechBubblesSimple.deduplicateEvents h events = group_by_title h events.
Proof.
  split.
  - unfold deduplicateEvents, group_by. cbv zeta.
    set (key := item_key Marker h).
    rewrite (foldl_step_grouped key
      (λ l i, {| item := i;
                 duplicateCount := length (with_key key (key i) l);
                 duplicates := event Marker <$> with_key key (key i) l |})
      (λ i, {| item := i; duplicateCount := 1;
               duplicates := [event Marker i] |})
      (add_duplicate Marker)).
    + unfold grouped, Map_values. rewrite <- list_fmap_compose. done.
    + intros l x Hx. rewrite with_key_snoc, decide_True by done.
      by rewrite with_key_not_in.
    + intros l x i E. rewrite with_key_snoc, decide_True by done.
      unfold add_duplicate. cbn. rewrite length_app, fmap_app. cbn.
      f_equal. lia.
    + intros l x i E. rewrite with_key_snoc, decide_False by done.
      by rewrite app_nil_r.
    + intros m x Hx. unfold deduplicate_step. fold key. cbv zeta.
      by rewrite (proj2 (Map_has_true _ _) Hx).
    + intros m x Hx. unfold deduplicate_step. fold key. cbv zeta.
      rewrite (proj2 (Map_has_false _ _) Hx). by apply Map_set_new.
  - unfold SpeechBubblesSimple.deduplicateEvents, group_by_title. cbv zeta.
    rewrite (foldl_step_grouped (SpeechBubblesSimple.event_key h)
      (λ l e, with_key (SpeechBubblesSimple.event_key h)
                (SpeechBubblesSimple.event_key h e) l)
      (λ e, [e]) (λ e group, group ++ [e])).
    + unfold grouped, Map_values. rewrite <- !list_fmap_compose.
      apply list_fmap_ext. intros n e He. cbn. f_equal.
      apply (head_with_key_first_seen _ []).
      by apply list_elem_of_lookup_2 in He.
    + intros l x Hx. rewrite with_key_snoc, decide_True by done.
      by rewrite with_key_not_in.
    + intros l x i E. by rewrite with_key_snoc, decide_True.
    + intros l x i E. rewrite with_key_snoc, decide_False by done.
      by rewrite app_nil_r.
    + intros m x Hx. unfold SpeechBubblesSimple.group_step. cbv zeta.
      by rewrite (proj2 (Map_has_true _ _) Hx).
    + intros m x Hx. unfold SpeechBubblesSimple.group_step. cbv zeta.
      rewrite (proj2 (Map_has_false _ _) Hx). cbn [negb].
      rewrite Map_set_new by done. rewrite Map_modify_app_r by done.
      cbn. by rewrite String.eqb_refl.
Qed.
End Dedup.

Section Bubbles.
Context {rt : Runtime}.
Variable Marker : Type.
Import SpeechBubbles.
Local Abbreviation UniqueMap := (JSMap (UniqueItem Marker)).

Lemma members_modify (i : EventItem Marker) (m : UniqueMap) (k : string) :
  k ∈ m.*1 →
  members Marker (Map_modify (add_duplicate Marker i) m k) ≡ₚ
    members Marker m ++ [event Marker i] ∧
  total_count Marker (Map_modify (add_duplicate Marker i) m k) =
    S (total_count Marker m).
Proof.
  unfold members, total_count, Map_values.
  induction m as [|[k' u] m IH]; intros Hk; [by apply elem_of_nil in Hk|].
  cbn in *. destruct (String.eqb_spec k' k) as [->|Hne]; cbn.
  - split; [|done]. rewrite <- !(assoc_L (++)). f_equiv.
    apply Permutation_app_comm.
  - apply elem_of_cons in Hk as [?|Hk]; [congruence|].
    destruct (IH Hk) as [IH1 IH2]. split.
    + by rewrite IH1, (assoc_L (++)).
    + rewrite IH2. lia.
Qed.

Lemma members_step (h : Heap) (m : UniqueMap) (i : EventItem Marker) :
  members Marker (deduplicate_step Marker h m i) ≡ₚ
    members Marker m ++ [event Marker i] ∧
  total_count Marker (deduplicate_step Marker h m i) = S (total_count Marker m).
Proof.
  unfold deduplicate_step. cbv zeta.
  destruct (Map_has m (item_key Marker h i)) eqn:E.
  - by apply members_modify, Map_has_true.
  - rewrite Map_set_new by by apply Map_has_false.
    unfold members, total_count, Map_values.
    rewrite !fmap_app, concat_app, sum_list_with_app. cbn.
    split; [done|lia].
Qed.

Lemma members_foldl (h : Heap) (items : list (EventItem Marker))
    (m : UniqueMap) :
  members Marker (foldl (deduplicate_step Marker h) m items) ≡ₚ
    members Marker m ++ (event Marker <$> items) ∧
  total_count Marker (foldl (deduplicate_step Marker h) m items) =
    (total_count Marker m + length items)%nat.
Proof.
  revert m. induction items as [|i items IH]; intros m;
    cbn [foldl fmap list_fmap length].
  { rewrite app_nil_r. split; [done|by rewrite Nat.add_0_r]. }
  destruct (IH (deduplicate_step Marker h m i)) as [IH1 IH2].
  destruct (members_step h m i) as [S1 S2].
  split.
  - by rewrite IH1, S1, <- (assoc_L (++)).
  - rewrite IH2, S2. lia.
Qed.

(** Every event appears in exactly one group, and the counts add up. *)
Lemma deduplicateEvents_partition (h : Heap)
    (items : list (EventItem Marker)) :
  concat (duplicates Marker <$> deduplicateEvents Marker h items) ≡ₚ
    event Marker <$> items ∧
  sum_list_with (duplicateCount Marker) (deduplicateEvents Marker h items) =
    length items.
Proof. apply (members_foldl h items []). Qed.

Lemma event_imap_gen (g : nat → nat → EventItem Marker)
    (events : list nat) :
  (∀ n e, event Marker (g n e) = e) →
  event Marker <$> imap g events = events.
Proof.
  revert g. induction events as [|e events IH]; intros g Hg; [done|].
  cbn. rewrite Hg. f_equal. apply IH. intros n e'. apply Hg.
Qed.

Lemma event_imap (markers : list Marker) (events : list nat) :
  event Marker <$>
    imap (λ index event,
            {| event := event; marker := markers !! index;
               originalIndex := index |}) events = events.
Proof. by apply event_imap_gen. Qed.

(** C9. [showAllSpeechBubbles] cuts the event list down to its first 30
    events before the de-duplication: for an input of length [n] the
    counts of the groups add up to [min n 30], the members of the groups
    are exactly the first [min n 30] events (each one in one group), the
    result is that for the first 30 events alone, and an event at index
    30 or beyond is in no group. *)
Theorem showAllSpeechBubbles_first_30 (h : Heap) (events : list nat)
    (markers : list Marker) :
  let uniqueItems := showAllSpeechBubbles Marker h events markers in
  sum_list_with (duplicateCount Marker) uniqueItems =
    (length events `min` 30)%nat ∧
  concat (duplicates Marker <$> uniqueItems) ≡ₚ take 30 events ∧
  uniqueItems = showAllSpeechBubbles Marker h (take 30 events) markers ∧
  (NoDup events →
   ∀ i r u, (30 <= i)%nat → events !! i = Some r → u ∈ uniqueItems →
     r ∉ duplicates Marker u).
Proof.
  unfold showAllSpeechBubbles, maxBubbles. cbv zeta.
  set (items := imap _ (take 30 events)).
  destruct (deduplicateEvents_partition h items) as [Hperm Hsum].
  unfold items in Hperm at 2. rewrite event_imap in Hperm.
  split; [|split; [done|split]].
  - rewrite Hsum. unfold items. rewrite length_imap, length_take. lia.
  - unfold items. by rewrite take_take, Nat.min_id.
  - intros Hnd i r u Hi Hr Hu Hin.
    assert (Hr' : r ∈ take 30 events).
    { rewrite <- Hperm. apply list_elem_of_In, in_concat.
      exists (duplicates Marker u). split; [|by apply list_elem_of_In].
      by apply list_elem_of_In, list_elem_of_fmap_2. }
    rewrite <- (take_drop 30 events) in Hnd.
    apply NoDup_app in Hnd as (_ & Hdisj & _).
    apply (Hdisj r Hr'). apply list_elem_of_lookup.
    exists (i - 30)%nat. rewrite lookup_drop. rewrite <- Hr. f_equal. lia.
Qed.
End Bubbles.

(** C1 as stated fails: two events with the identifiers a and b, the
    same title and the same start time make one group of two, where the
    identity key of the claim makes two groups of one. *)
Lemma deduplicateEvents_ignores_identifier :
  SpeechBubbles.duplicateCount unit <$>
    SpeechBubbles.deduplicateEvents (rt:=CET) unit
      (heap_of [concert_a; concert_b]) two_items = [2%nat] ∧
  SpeechBubbles.duplicateCount unit <$>
    group_by unit
      (identityKey (rt:=CET) unit (heap_of [concert_a; concert_b]))
      two_items = [1%nat; 1%nat].
Proof. split; vm_compute; reflexivity. Qed.

(** Of 32 distinct events, the one at index 31 is in no group. *)
Lemma showAllSpeechBubbles_first_30_witness :
  NoDup (seq 0 32) ∧
  ∀ u, u ∈ SpeechBubbles.showAllSpeechBubbles (rt:=CET) unit (heap_of [])
             (seq 0 32) [] →
       31%nat ∉ SpeechBubbles.duplicates unit u.
Proof.
  assert (H : NoDup (seq 0 32)) by apply NoDup_seq.
  split; [exact H|]. intros u Hu.
  exact (proj2 (proj2 (proj2
           (showAllSpeechBubbles_first_30 (rt:=CET) unit (heap_of [])
              (seq 0 32) [])))
           H 31%nat 31%nat u ltac:(lia) eq_refl Hu).
Defined.

(* ================================================================== *)
(** * Template events *)

Lemma mapM_clock_length {A B} (f : A → M B) (l : list A) (c : Clock) :
  length (mapM_clock f l c).1 = length l.
Proof.
  revert c. induction l as [|x l IH]; intros c; [done|].
  cbn. unfold mbind, M_bind. cbn. by rewrite IH.
Qed.

(** Each element of the result is the callback applied to the element of
    the input at the same index, at the clock of that moment. *)
Lemma mapM_clock_lookup {A B} (f : A → M B) (l : list A) (c : Clock)
    (i : nat) (x : A) :
  l !! i = Some x → ∃ c', (mapM_clock f l c).1 !! i = Some (f x c').1.
Proof.
  revert c i. induction l as [|y l IH]; intros c i Hi; [done|].
  cbn. unfold mbind, M_bind. cbn. destruct i as [|i].
  - injection Hi as ->. by exists c.
  - by apply IH.
Qed.

Section Templates.
Context {rt : Runtime}.
Import EventUtils.

Lemma processTemplateEvents_value (events : list Event) (c : Clock) :
  (processTemplateEvents events c).1 =
  (mapM_clock (processTemplateEvent (c 0%nat)) events (λ k, c (S k))).1.
Proof. reflexivity. Qed.

Lemma processTemplateEvent_plain (now : Z) (e : Event) (c : Clock) :
  relative_time e = None → (processTemplateEvent now e c).1 = e.
Proof. intros H. unfold processTemplateEvent. by rewrite H. Qed.

Lemma processTemplateEvent_template (now : Z) (e : Event)
    (spec : RelativeTime) (c : Clock) :
  relative_time e = Some spec →
  published_at (processTemplateEvent now e c).1 =
    Some (formatDateTime now) ∧
  relative_time (processTemplateEvent now e c).1 = Some spec.
Proof.
  intros H. unfold processTemplateEvent. rewrite H.
  unfold mbind, M_bind, mret, M_ret.
  destruct (String.eqb (type spec) "offset");
    [destruct (negb _)|destruct (String.eqb (type spec) "sunrise_relative")];
    by cbn.
Qed.

Lemma processTemplateEvent_unknown (now : Z) (e : Event)
    (spec : RelativeTime) (c : Clock) :
  relative_time e = Some spec →
  type spec ≠ "offset" → type spec ≠ "sunrise_relative" →
  processTemplateEvent now e c =
    (set_published_at (formatDateTime now) e, c).
Proof.
  intros H H1 H2. unfold processTemplateEvent. rewrite H.
  apply String.eqb_neq in H1, H2. by rewrite H1, H2.
Qed.

(** C8, as amended. Every event that [processTemplateEvents] produces
    from a template carries [published_at], the rendering of [now] by
    [formatDateTime], and keeps its [relative_time] as it was; an event
    without [relative_time] is returned as it is, and the result has one
    event for each input event. *)
Theorem processTemplateEvents_stamp (events : list Event) (c : Clock) :
  let now := c 0%nat in
  let processed := (processTemplateEvents events c).1 in
  length processed = length events ∧
  ∀ i e, events !! i = Some e →
    ∃ e', processed !! i = Some e' ∧
      (relative_time e = None → e' = e) ∧
      (∀ spec, relative_time e = Some spec →
         published_at e' = Some (formatDateTime now) ∧
         relative_time e' = Some spec).
Proof.
  cbv zeta. rewrite processTemplateEvents_value. split.
  { apply mapM_clock_length. }
  intros i e Hi.
  destruct (mapM_clock_lookup (processTemplateEvent (c 0%nat)) events
              (λ k, c (S k)) i e Hi) as [c' Hc'].
  eexists. split; [exact Hc'|]. split.
  - apply processTemplateEvent_plain.
  - intros spec. apply processTemplateEvent_template.
Qed.

(** C7, as amended. A template whose [relative_time] has a type other
    than ['offset'] and ['sunrise_relative'] is processed without an
    error and without a fallback to the offset rule: the event comes out
    with the [published_at] stamp as its only change, so its start and
    end time are those of the template, not [now] and two hours
    later. *)
Theorem processTemplateEvents_unknown_type (events : list Event)
    (c : Clock) (i : nat) (e : Event) (spec : RelativeTime) :
  events !! i = Some e → relative_time e = Some spec →
  type spec ≠ "offset" → type spec ≠ "sunrise_relative" →
  (processTemplateEvents events c).1 !! i =
    Some (set_published_at (formatDateTime (c 0%nat)) e).
Proof.
  intros Hi Hs H1 H2. rewrite processTemplateEvents_value.
  destruct (mapM_clock_lookup (processTemplateEvent (c 0%nat)) events
              (λ k, c (S k)) i e Hi) as [c' ->].
  by rewrite (processTemplateEvent_unknown _ _ spec).
Qed.
End Templates.

(** A template of type ['weekly'], processed at 18:00 on 15 July 2026,
    keeps the start and end time of 2 January. *)
Lemma processTemplateEvents_unknown_type_witness :
  let e := template (spec_of_type "weekly") in
  let processed :=
    (EventUtils.processTemplateEvents (rt:=CET) [e] (frozen at_18_00)).1 in
  processed !! 0%nat =
    Some (EventUtils.set_published_at "2026-07-15T18:00:00" e) ∧
  start_time <$> processed = [Some "2026-01-02T12:00:00"] ∧
  end_time <$> processed = [Some "2026-01-02T14:00:00"].
Proof.
  cbv zeta.
  assert (H := processTemplateEvents_unknown_type (rt:=CET)
                 [template (spec_of_type "weekly")] (frozen at_18_00) 0
                 (template (spec_of_type "weekly")) (spec_of_type "weekly")
                 eq_refl eq_refl ltac:(discriminate) ltac:(discriminate)).
  split; [|vm_compute; split; reflexivity].
  etrans; [exact H|]. vm_compute. reflexivity.
Defined.

(** C7 as stated fails: a template of type ['weekly'] with the times of
    2 January, processed at 18:00 on 15 July 2026, does not start at
    18:00 on 15 July and end at 20:00; it keeps the times of
    2 January. *)
Lemma processTemplateEvents_no_fallback :
  let processed :=
    (EventUtils.processTemplateEvents (rt:=CET)
       [template (spec_of_type "weekly")] (frozen at_18_00)).1 in
  EventUtils.formatDateTime (rt:=CET) at_18_00 = "2026-07-15T18:00:00" ∧
  EventUtils.formatDateTime (rt:=CET) (at_18_00 + 2 * msPerHour) =
    "2026-07-15T20:00:00" ∧
  start_time <$> processed = [Some "2026-01-02T12:00:00"] ∧
  end_time <$> processed = [Some "2026-01-02T14:00:00"] ∧
  start_time <$> processed ≠
    [Some (EventUtils.formatDateTime (rt:=CET) at_18_00)] ∧
  end_time <$> processed ≠
    [Some (EventUtils.formatDateTime (rt:=CET)
             (at_18_00 + 2 * msPerHour))].
Proof.
  cbv zeta.
  split; [vm_compute; reflexivity|]. split; [vm_compute; reflexivity|].
  split; [vm_compute; reflexivity|]. split; [vm_compute; reflexivity|].
  split; vm_compute; discriminate.
Qed.

(** C8 as stated fails: the processed template still has its
    [relative_time]. *)
Lemma processTemplateEvents_keeps_relative_time :
  relative_time <$>
    (EventUtils.processTemplateEvents (rt:=CET)
       [template started_30_minutes_ago] (frozen at_18_00)).1 =
  [Some started_30_minutes_ago].
Proof. by vm_compute. Qed.

(** The stamp and the specification of a template processed at 18:00. *)
Lemma processTemplateEvents_stamp_witness :
  relative_time (template started_30_minutes_ago) =
    Some started_30_minutes_ago ∧
  ∃ e',
    (EventUtils.processTemplateEvents (rt:=CET)
       [template started_30_minutes_ago] (frozen at_18_00)).1 !! 0%nat =
      Some e' ∧
    published_at e' =
      Some (EventUtils.formatDateTime (rt:=CET) at_18_00) ∧
    relative_time e' = Some started_30_minutes_ago.
Proof.
  split; [reflexivity|].
  destruct (proj2 (processTemplateEvents_stamp (rt:=CET)
                     [template started_30_minutes_ago] (frozen at_18_00))
              0%nat (template started_30_minutes_ago) eq_refl)
    as (e' & He' & _ & Hspec).
  exists e'. split; [exact He'|].
  exact (Hspec started_30_minutes_ago eq_refl).
Defined.

(* ================================================================== *)
(** * Scenarios *)

(** Three events that share title, start time and coordinates make one
    group of three, represented by the first. *)
Example market_day_three_times :
  SpeechBubbles.deduplicateEvents (rt:=CET) unit
    (heap_of [market; market; market])
    three_items =
  [ {| SpeechBubbles.item :=
         {| SpeechBubbles.event := 0%nat; SpeechBubbles.marker := None;
            SpeechBubbles.originalIndex := 0%nat |};
       SpeechBubbles.duplicateCount := 3;
       SpeechBubbles.duplicates := [0; 1; 2]%nat |} ].
Proof. reflexivity. Qed.

(** A template that started 30 minutes ago, processed at 18:00: it runs
    from 17:30 to 19:30. *)
Example started_30_minutes_ago_at_18_00 :
  (λ e, (start_time e, end_time e)) <$>
    (EventUtils.processTemplateEvents (rt:=CET)
       [template started_30_minutes_ago] (frozen at_18_00)).1 =
  [(Some "2026-07-15T17:30:00", Some "2026-07-15T19:30:00")].
Proof. vm_compute. reflexivity. Qed.

(** At 05:59:59 the sunrise boundary is 06:00 of the same day; at 06:00
    it is 06:00 of the next day. *)
Example sunrise_at_05_59_59_and_06_00 :
  (EventFilter.getNextSunrise (rt:=CET) (frozen at_05_59_59)).1 = at_06_00 ∧
  (EventFilter.getNextSunrise (rt:=CET) (frozen at_06_00)).1 =
    at_06_00 + msPerDay.
Proof. split; vm_compute; reflexivity. Qed.

(** Without a reference location and without an event location the
    distance plays no role: the concert passes at 18:00. *)
Example no_location_no_distance_gate :
  (EventFilter.filterEvents (rt:=CET) no_bookmarks [0%nat] next_6h None
     {| clock := frozen at_18_00; heap := heap_of [concert] |}).1 =
  [0%nat].
Proof. vm_compute. reflexivity. Qed.

(* ================================================================== *)
(** * Bookmarks *)

Section Bookmarks.
Import EventStorage.

Lemma indexOf_None (l : list string) (x : string) :
  indexOf l x = None ↔ x ∉ l.
Proof.
  induction l as [|y l IH]; cbn [indexOf].
  - split; [intros _; apply not_elem_of_nil|done].
  - rewrite not_elem_of_cons. destruct (String.eqb_spec y x) as [->|Hne].
    + split; [done|]. by intros [? _].
    + destruct (indexOf l x); cbn.
      * split; [done|]. intros [_ H]. by apply IH in H.
      * split; [|done]. intros _. split; [done|]. by apply IH.
Qed.

(** [indexOf] finds the first occurrence. *)
Lemma indexOf_Some (l : list string) (x : string) (i : nat) :
  indexOf l x = Some i → l !! i = Some x ∧ x ∉ take i l.
Proof.
  revert i. induction l as [|y l IH]; intros i; cbn [indexOf]; [done|].
  destruct (String.eqb_spec y x) as [->|Hne].
  - intros [= <-]. split; [done|]. apply not_elem_of_nil.
  - destruct (indexOf l x) as [j|]; cbn; [|done].
    intros [= <-]. destruct (IH j eq_refl) as [H1 H2].
    split; [done|]. cbn. rewrite not_elem_of_cons. by split.
Qed.

Lemma isBookmarked_true (storage : t) (eventId : string) :
  isBookmarked storage (Some eventId) = true ↔ eventId ∈ bookmarks storage.
Proof. unfold isBookmarked. apply bool_decide_eq_true. Qed.

Lemma isBookmarked_false (storage : t) (eventId : string) :
  isBookmarked storage (Some eventId) = false ↔ eventId ∉ bookmarks storage.
Proof. unfold isBookmarked. apply bool_decide_eq_false. Qed.

(** The two branches of [toggleBookmark]. *)
Lemma toggleBookmark_remove (storage : t) (eventId : string) :
  eventId ∈ bookmarks storage →
  ∃ index,
    (bookmarks storage !! index = Some eventId) ∧
    (eventId ∉ take index (bookmarks storage)) ∧
    toggleBookmark storage eventId =
      (false, {| bookmarks := delete index (bookmarks storage) |}).
Proof.
  intros Hin. unfold toggleBookmark.
  destruct (indexOf (bookmarks storage) eventId) as [index|] eqn:E.
  - destruct (indexOf_Some _ _ _ E) as [H1 H2]. by exists index.
  - by apply indexOf_None in E.
Qed.

Lemma toggleBookmark_add (storage : t) (eventId : string) :
  eventId ∉ bookmarks storage →
  toggleBookmark storage eventId =
    (true,
     {| bookmarks :=
          (if (MAX_BOOKMARKS <=? length (bookmarks storage))%nat
           then tail (bookmarks storage) else bookmarks storage) ++
          [eventId] |}).
Proof.
  intros Hin. apply indexOf_None in Hin. unfold toggleBookmark.
  by rewrite Hin.
Qed.

Lemma elem_of_tail (l : list string) (x : string) :
  x ∈ tail l → x ∈ l.
Proof. destruct l; cbn; [done|]. apply list_elem_of_further. Qed.

Lemma NoDup_tail (l : list string) : NoDup l → NoDup (tail l).
Proof. destruct l; cbn; [done|]. by intros [_ H]%NoDup_cons. Qed.

Lemma NoDup_delete (l : list string) (i : nat) :
  NoDup l → NoDup (delete i l).
Proof. intros H. eapply sublist_NoDup; [done|apply sublist_delete]. Qed.

Lemma elem_of_delete_NoDup (l : list string) (i : nat) (x y : string) :
  NoDup l → l !! i = Some x → (y ∈ delete i l ↔ y ∈ l ∧ y ≠ x).
Proof.
  intros Hnd Hi. rewrite delete_take_drop.
  rewrite <- (take_drop_middle l i x Hi) in Hnd.
  rewrite <- (take_drop_middle l i x Hi) at 3.
  apply NoDup_app in Hnd as (_ & Hdisj & [Hx _]%NoDup_cons).
  rewrite !elem_of_app, elem_of_cons. split.
  - intros [H|H].
    + split; [by left|]. intros ->. apply (Hdisj x H). by left.
    + split; [by right; right|]. by intros ->.
  - intros [[H|[->|H]] Hne]; [by left|done|by right].
Qed.

Lemma toggleBookmark_step_invariant (storage : t) (eventId : string) :
  NoDup (bookmarks storage) →
  (length (bookmarks storage) <= MAX_BOOKMARKS)%nat →
  NoDup (bookmarks (toggleBookmark storage eventId).2) ∧
  (length (bookmarks (toggleBookmark storage eventId).2) <=
     MAX_BOOKMARKS)%nat.
Proof.
  intros Hnd Hlen.
  destruct (decide (eventId ∈ bookmarks storage)) as [Hin|Hin].
  - destruct (toggleBookmark_remove _ _ Hin) as (index & Hi & _ & ->).
    cbn [snd bookmarks]. split; [by apply NoDup_delete|].
    rewrite length_delete by eauto. lia.
  - rewrite (toggleBookmark_add _ _ Hin). cbn [snd bookmarks].
    unfold MAX_BOOKMARKS in *.
    destruct (Nat.leb_spec 15 (length (bookmarks storage))) as [Hfull|Hfree].
    + split.
      * apply NoDup_app. split; [by apply NoDup_tail|]. split.
        -- intros x Hx ->%list_elem_of_singleton.
           by apply Hin, elem_of_tail.
        -- apply NoDup_singleton.
      * rewrite length_app. cbn [length].
        destruct (bookmarks storage); cbn [tail length] in *; lia.
    + split.
      * apply NoDup_app. split; [done|]. split.
        -- by intros x Hx ->%list_elem_of_singleton.
        -- apply NoDup_singleton.
      * rewrite length_app. cbn [length]. lia.
Qed.

(** An event for which [toggleBookmark] returns true is bookmarked
    afterwards. *)
Lemma toggleBookmark_true (storage : t) (eventId : string) :
  (toggleBookmark storage eventId).1 = true →
  isBookmarked (toggleBookmark storage eventId).2 (Some eventId) = true.
Proof.
  destruct (decide (eventId ∈ bookmarks storage)) as [Hin|Hin].
  - by destruct (toggleBookmark_remove _ _ Hin) as (index & _ & _ & ->).
  - rewrite (toggleBookmark_add _ _ Hin). intros _.
    apply isBookmarked_true. cbn [snd bookmarks].
    apply elem_of_app. right. by apply list_elem_of_singleton.
Qed.

(** X1. Toggling flips the bookmark: [toggleBookmark] returns true
    exactly when the event was not bookmarked before, and on a list
    without duplicates [isBookmarked] afterwards answers what
    [toggleBookmark] returned. *)
Theorem toggleBookmark_flips (storage : EventStorage.t)
    (eventId : string) :
  NoDup (bookmarks storage) →
  (toggleBookmark storage eventId).1 =
    negb (isBookmarked storage (Some eventId)) ∧
  isBookmarked (toggleBookmark storage eventId).2 (Some eventId) =
    (toggleBookmark storage eventId).1.
Proof.
  intros Hnd.
  destruct (decide (eventId ∈ bookmarks storage)) as [Hin|Hin].
  - rewrite (proj2 (isBookmarked_true _ _) Hin).
    destruct (toggleBookmark_remove _ _ Hin) as (index & Hi & _ & ->).
    cbn [fst snd negb]. split; [done|].
    apply isBookmarked_false. cbn [bookmarks].
    rewrite (elem_of_delete_NoDup _ _ _ _ Hnd Hi). by intros [_ ?].
  - rewrite (proj2 (isBookmarked_false _ _) Hin).
    rewrite (toggleBookmark_add _ _ Hin). cbn [fst snd negb].
    split; [done|]. apply isBookmarked_true. cbn [bookmarks].
    apply elem_of_app. right. by apply list_elem_of_singleton.
Qed.

(** X2. However the user toggles, a bookmark list that has no
    duplicates and at most 15 entries stays so: the limit of 15 is never
    exceeded. *)
Theorem toggleBookmark_invariant (storage : EventStorage.t)
    (eventIds : list string) :
  NoDup (bookmarks storage) →
  (length (bookmarks storage) <= MAX_BOOKMARKS)%nat →
  let final := foldl (λ s i, (toggleBookmark s i).2) storage eventIds in
  NoDup (getBookmarks final) ∧
  (length (getBookmarks final) <= MAX_BOOKMARKS)%nat.
Proof.
  revert storage.
  induction eventIds as [|i eventIds IH]; intros storage Hnd Hlen; [done|].
  cbn [foldl].
  destruct (toggleBookmark_step_invariant storage i Hnd Hlen) as [H1 H2].
  by apply IH.
Qed.

(** X3. Toggling one event leaves the other bookmarks alone, with one
    exception: when a new bookmark is added to a full list, the oldest
    bookmark (the first of the list) is dropped, and only that one. *)
Theorem toggleBookmark_others (storage : EventStorage.t)
    (eventId other : string) :
  NoDup (bookmarks storage) → other ≠ eventId →
  let after := (toggleBookmark storage eventId).2 in
  (isBookmarked storage (Some eventId) = true ∨
   (length (bookmarks storage) < MAX_BOOKMARKS)%nat →
   isBookmarked after (Some other) = isBookmarked storage (Some other)) ∧
  (isBookmarked storage (Some eventId) = false →
   (MAX_BOOKMARKS <= length (bookmarks storage))%nat →
   isBookmarked after (Some other) =
     isBookmarked storage (Some other) &&
     negb (bool_decide (head (bookmarks storage) = Some other))).
Proof.
  intros Hnd Hne after. subst after. split.
  - intros Hcase.
    destruct (decide (eventId ∈ bookmarks storage)) as [Hin|Hin].
    + destruct (toggleBookmark_remove _ _ Hin) as (index & Hi & _ & ->).
      cbn [snd]. unfold isBookmarked. cbn [bookmarks].
      apply bool_decide_ext.
      rewrite (elem_of_delete_NoDup _ _ _ _ Hnd Hi). tauto.
    + destruct Hcase as [Hb|Hlen]; [by apply isBookmarked_true in Hb|].
      rewrite (toggleBookmark_add _ _ Hin). cbn [snd].
      unfold MAX_BOOKMARKS in *.
      destruct (Nat.leb_spec 15 (length (bookmarks storage))); [lia|].
      unfold isBookmarked. cbn [bookmarks]. apply bool_decide_ext.
      rewrite elem_of_app, list_elem_of_singleton. tauto.
  - intros Hin%isBookmarked_false Hfull.
    rewrite (toggleBookmark_add _ _ Hin). cbn [snd].
    unfold MAX_BOOKMARKS in *.
    destruct (Nat.leb_spec 15 (length (bookmarks storage))); [|lia].
    unfold isBookmarked. cbn [bookmarks].
    destruct (bookmarks storage) as [|oldest rest]; [cbn in *; lia|].
    cbn [tail head]. apply NoDup_cons in Hnd as [Hold _].
    destruct (decide (oldest = other)) as [->|Hother].
    + rewrite (bool_decide_eq_true_2 (Some other = Some other)) by done.
      rewrite andb_false_r. apply bool_decide_eq_false.
      rewrite elem_of_app, list_elem_of_singleton. tauto.
    + rewrite (bool_decide_eq_false_2 (Some oldest = Some other))
        by congruence.
      rewrite andb_true_r. apply bool_decide_ext.
      rewrite elem_of_app, list_elem_of_singleton, elem_of_cons.
      split; [intros [?|?]; [by right|done]|].
      intros [?|?]; [congruence|by left].
Qed.

(** X4. Bookmarking an event and removing the bookmark again restores
    the bookmark list exactly, provided the list was not full. *)
Theorem toggleBookmark_twice (storage : EventStorage.t)
    (eventId : string) :
  isBookmarked storage (Some eventId) = false →
  (length (bookmarks storage) < MAX_BOOKMARKS)%nat →
  let first := toggleBookmark storage eventId in
  let second := toggleBookmark first.2 eventId in
  first.1 = true ∧ second.1 = false ∧
  getBookmarks second.2 = getBookmarks storage.
Proof.
  intros Hin%isBookmarked_false Hlen. cbv zeta.
  rewrite (toggleBookmark_add _ _ Hin). cbn [fst snd].
  unfold MAX_BOOKMARKS in *.
  destruct (Nat.leb_spec 15 (length (bookmarks storage))); [lia|].
  assert (Hin' : eventId ∈ bookmarks storage ++ [eventId]).
  { apply elem_of_app. right. by apply list_elem_of_singleton. }
  destruct (toggleBookmark_remove {| bookmarks := bookmarks storage ++ [eventId] |}
              eventId Hin') as (index & Hi & Hfirst & ->).
  cbn [fst snd bookmarks getBookmarks] in *.
  split; [done|]. split; [done|].
  assert (index = length (bookmarks storage)) as ->.
  { destruct (Nat.lt_trichotomy index (length (bookmarks storage)))
      as [Hlt|[?|Hgt]]; [|done|].
    - rewrite lookup_app_l in Hi by done.
      apply list_elem_of_lookup_2 in Hi. done.
    - apply lookup_lt_Some in Hi. rewrite length_app in Hi.
      cbn in Hi. lia. }
  rewrite delete_take_drop.
  rewrite take_app_length.
  rewrite drop_app_ge by lia.
  replace (S (length (bookmarks storage)) - length (bookmarks storage))%nat
    with 1%nat by lia.
  cbn. by rewrite app_nil_r.
Qed.
End Bookmarks.

(** From three bookmarks, toggling a new event adds it. *)
Lemma toggleBookmark_flips_witness :
  NoDup (EventStorage.bookmarks three_bookmarks) ∧
  (EventStorage.toggleBookmark three_bookmarks "film-1").1 =
    negb (EventStorage.isBookmarked three_bookmarks (Some "film-1")) ∧
  EventStorage.isBookmarked
    (EventStorage.toggleBookmark three_bookmarks "film-1").2
    (Some "film-1") =
    (EventStorage.toggleBookmark three_bookmarks "film-1").1.
Proof.
  assert (H : NoDup (EventStorage.bookmarks three_bookmarks)).
  { apply (bool_decide_unpack _). vm_compute. exact I. }
  split; [exact H|].
  exact (toggleBookmark_flips three_bookmarks "film-1" H).
Defined.

(** A full list stays within the limit when two new events are
    bookmarked and an old bookmark is removed. *)
Lemma toggleBookmark_invariant_witness :
  NoDup (EventStorage.bookmarks full_bookmarks) ∧
  (length (EventStorage.bookmarks full_bookmarks) <=
     EventStorage.MAX_BOOKMARKS)%nat ∧
  NoDup
    (EventStorage.getBookmarks
       (foldl (λ s i, (EventStorage.toggleBookmark s i).2) full_bookmarks
          ["e16"; "e03"; "e17"])) ∧
  (length
     (EventStorage.getBookmarks
        (foldl (λ s i, (EventStorage.toggleBookmark s i).2) full_bookmarks
           ["e16"; "e03"; "e17"])) <= EventStorage.MAX_BOOKMARKS)%nat.
Proof.
  assert (H1 : NoDup (EventStorage.bookmarks full_bookmarks)).
  { apply (bool_decide_unpack _). vm_compute. exact I. }
  assert (H2 : (length (EventStorage.bookmarks full_bookmarks) <=
                  EventStorage.MAX_BOOKMARKS)%nat).
  { vm_compute. lia. }
  split; [exact H1|]. split; [exact H2|].
  exact (toggleBookmark_invariant full_bookmarks ["e16"; "e03"; "e17"]
           H1 H2).
Defined.

(** Bookmarking a sixteenth event drops the oldest bookmark. *)
Lemma toggleBookmark_others_witness :
  NoDup (EventStorage.bookmarks full_bookmarks) ∧
  "e01" ≠ "e16" ∧
  EventStorage.isBookmarked full_bookmarks (Some "e16") = false ∧
  (EventStorage.MAX_BOOKMARKS <=
     length (EventStorage.bookmarks full_bookmarks))%nat ∧
  EventStorage.isBookmarked
    (EventStorage.toggleBookmark full_bookmarks "e16").2 (Some "e01") =
    EventStorage.isBookmarked full_bookmarks (Some "e01") &&
    negb (bool_decide
            (head (EventStorage.bookmarks full_bookmarks) = Some "e01")).
Proof.
  assert (H1 : NoDup (EventStorage.bookmarks full_bookmarks)).
  { apply (bool_decide_unpack _). vm_compute. exact I. }
  assert (H2 : "e01" ≠ "e16") by discriminate.
  assert (H3 : EventStorage.isBookmarked full_bookmarks (Some "e16") =
                 false) by (vm_compute; reflexivity).
  assert (H4 : (EventStorage.MAX_BOOKMARKS <=
                  length (EventStorage.bookmarks full_bookmarks))%nat).
  { vm_compute. lia. }
  split; [exact H1|]. split; [exact H2|]. split; [exact H3|].
  split; [exact H4|].
  exact (proj2 (toggleBookmark_others full_bookmarks "e16" "e01" H1 H2)
           H3 H4).
Defined.

(** Bookmarking and un-bookmarking a fourth event. *)
Lemma toggleBookmark_twice_witness :
  EventStorage.isBookmarked three_bookmarks (Some "film-1") = false ∧
  (length (EventStorage.bookmarks three_bookmarks) <
     EventStorage.MAX_BOOKMARKS)%nat ∧
  EventStorage.getBookmarks
    (EventStorage.toggleBookmark
       (EventStorage.toggleBookmark three_bookmarks "film-1").2
       "film-1").2 =
    EventStorage.getBookmarks three_bookmarks.
Proof.
  assert (H1 : EventStorage.isBookmarked three_bookmarks (Some "film-1") =
                 false) by (vm_compute; reflexivity).
  assert (H2 : (length (EventStorage.bookmarks three_bookmarks) <
                  EventStorage.MAX_BOOKMARKS)%nat).
  { vm_compute. lia. }
  split; [exact H1|]. split; [exact H2|].
  exact (proj2 (proj2 (toggleBookmark_twice three_bookmarks "film-1"
                         H1 H2))).
Defined.

(* ================================================================== *)
(** * More about the time boundaries *)

Lemma DaysInYear_range (y : Z) : 365 <= DaysInYear y <= 366.
Proof. unfold DaysInYear. repeat destruct (negb _); lia. Qed.

(** The first days of later years are later, by 365 days a year at
    least. *)
Lemma DayFromYear_mono (y1 y2 : Z) :
  y1 <= y2 → DayFromYear y1 + 365 * (y2 - y1) <= DayFromYear y2.
Proof.
  intros Hle. replace y2 with (y1 + Z.of_nat (Z.to_nat (y2 - y1))) by lia.
  generalize (Z.to_nat (y2 - y1)). intros n. induction n as [|n IH].
  - replace (y1 + Z.of_nat 0) with y1 by lia. lia.
  - replace (y1 + Z.of_nat (S n)) with (y1 + Z.of_nat n + 1) by lia.
    pose proof (DaysInYear_DayFromYear (y1 + Z.of_nat n)).
    pose proof (DaysInYear_range (y1 + Z.of_nat n)). lia.
Qed.

(** The day number of a 31st of December. *)
Lemma MakeDay_new_years_eve (y : Z) :
  MakeDay y 11 31 = DayFromYear (y + 1) - 1.
Proof.
  unfold MakeDay. cbv zeta.
  change (11 / 12) with 0. change (11 mod 12) with 11.
  rewrite Z.add_0_r. cbn [monthStart].
  pose proof (DaysInYear_DayFromYear y). unfold LeapDays. lia.
Qed.

Lemma MakeFullYear_ge (y : Z) : y <= MakeFullYear y.
Proof. unfold MakeFullYear. destruct (_ && _); lia. Qed.

Section Boundaries.
Context {rt : Runtime}.
Import EventFilter.



Lemma getNextSunrise_range (c : Clock) :
  c 0%nat < (getNextSunrise c).1 <= c 0%nat + msPerDay.
Proof.
  rewrite getNextSunrise_value. cbv zeta.
  destruct (Z.leb_spec 6 (getHours (c 0%nat))); date_arith.
Qed.

Lemma getNextSundayPrimetime_range (c : Clock) :
  c 0%nat < (getNextSundayPrimetime c).1 <= c 0%nat + 7 * msPerDay.
Proof.
  rewrite getNextSundayPrimetime_value. unfold daysUntilSunday.
  destruct (Z.eqb_spec (getDay (c 0%nat)) 0);
    [destruct (Z.leb_spec (20 * 60 + 15)
                 (getHours (c 0%nat) * 60 + getMinutes (c 0%nat)))|];
    date_arith.
Qed.

(** The boundary of ['all'] is more than 3649 days ahead. *)
Lemma all_boundary_lower (now : Z) :
  now + 3649 * msPerDay < Date_ymd (getFullYear now + 10) 11 31.
Proof.
  unfold Date_ymd, getFullYear. rewrite MakeDay_new_years_eve.
  pose proof (YearFromTime_spec (LocalTime now)) as [_ Hy].
  pose proof (MakeFullYear_ge (YearFromTime (LocalTime now) + 10)) as Hf.
  assert (Hm := DayFromYear_mono (YearFromTime (LocalTime now) + 1)
                  (MakeFullYear (YearFromTime (LocalTime now) + 10) + 1)).
  specialize (Hm ltac:(lia)).
  revert Hy Hm Hf.
  generalize (DayFromYear (YearFromTime (LocalTime now) + 1)).
  generalize
    (DayFromYear (MakeFullYear (YearFromTime (LocalTime now) + 10) + 1)).
  generalize (MakeFullYear (YearFromTime (LocalTime now) + 10)).
  generalize (YearFromTime (LocalTime now)).
  intros y f d2 d1 Hy Hm Hf. date_arith.
Qed.

Lemma fullMoon_morning_range (now : Z) :
  now < morningAfter (foundFullMoon (sundayMidnight (frozen now)) now) <
    now + 38 * msPerDay.
Proof.
  set (S := sundayMidnight (frozen now)).
  assert (HS : S = UTC (MakeDate (Day (LocalTime now) + daysUntilSunday now)
                          0)).
  { unfold S. by rewrite sundayMidnight_value. }
  pose proof (daysUntilSunday_range now) as Hk.
  destruct (foundFullMoon_spec S now) as (_ & _ & Hlt & _).
  assert (Hup : (foundFullMoon S now - lunarCycle <= inject_Z S)%Q).
  { apply foundFullMoon_first.
    pose proof lunarCycle_day as HL.
    assert (Hlow : now - msPerDay < S).
    { rewrite HS. revert Hk. generalize (daysUntilSunday now). intros k Hk.
      date_arith. }
    assert (HQ : (inject_Z (now - msPerDay) <= inject_Z S)%Q).
    { rewrite <- Zle_Qle. lia. }
    unfold Z.sub in HQ. rewrite inject_Z_plus, inject_Z_opp in HQ. lra. }
  rewrite morningAfter_value. unfold wholeMs.
  assert (Hw1 : S <= Qfloor (foundFullMoon S now)).
  { apply Qlt_le_weak, Qfloor_resp_le in Hlt. by rewrite Qfloor_Z in Hlt. }
  assert (Hw2 : Qfloor (foundFullMoon S now) <= S + 2557440000).
  { assert (HL : (lunarCycle <= inject_Z 2557440000)%Q)
      by (by vm_compute).
    assert (H : (foundFullMoon S now <= inject_Z (S + 2557440000))%Q).
    { rewrite inject_Z_plus. lra. }
    apply Qfloor_resp_le in H. by rewrite Qfloor_Z in H. }
  revert Hw1 Hw2. generalize (Qfloor (foundFullMoon S now)). intros w.
  rewrite HS. revert Hk. generalize (daysUntilSunday now). intros k Hk.
  date_arith.
Qed.
End Boundaries.

Section BoundaryTheorems.
Context {rt : Runtime}.
Import EventFilter.

(** X5. In local calendar terms, the Sunday primetime boundary is the
    first Sunday 20:15:00.000 after the clock reading: it is a Sunday at
    20:15:00.000 local time, it is strictly after the clock reading, its
    calendar day is the day of the clock reading or one of the seven
    days that follow, and no Sunday 20:15:00.000 lies between the clock
    reading and it. *)
Theorem getNextSundayPrimetime_next (c : Clock) :
  let now := c 0%nat in
  let primetime := (getNextSundayPrimetime c).1 in
  getDay primetime = 0 ∧
  TimeWithinDay (LocalTime primetime) = MakeTime 20 15 0 0 ∧
  now < primetime ∧
  Day (LocalTime now) <= Day (LocalTime primetime) <=
    Day (LocalTime now) + 7 ∧
  (∀ d, now < d → getDay d = 0 →
        TimeWithinDay (LocalTime d) = MakeTime 20 15 0 0 →
        primetime <= d).
Proof.
  cbv zeta. rewrite getNextSundayPrimetime_value.
  split; [|split; [|split; [|split]]].
  - unfold daysUntilSunday.
    destruct (Z.eqb_spec (getDay (c 0%nat)) 0);
      [destruct (Z.leb_spec (20 * 60 + 15)
                   (getHours (c 0%nat) * 60 + getMinutes (c 0%nat)))|];
      date_arith.
  - by rewrite TimeWithinDay_setHours.
  - rewrite <- getNextSundayPrimetime_value.
    apply getNextSundayPrimetime_range.
  - pose proof (daysUntilSunday_range (c 0%nat)) as Hk.
    rewrite Day_setHours by done.
    rewrite Day_LocalTime_add_days. lia.
  - intros d Hd Hsun Htime. unfold daysUntilSunday.
    destruct (Z.eqb_spec (getDay (c 0%nat)) 0);
      [destruct (Z.leb_spec (20 * 60 + 15)
                   (getHours (c 0%nat) * 60 + getMinutes (c 0%nat)))|];
      date_arith.
Qed.

(** X6. With the clock standing at [now], the full-moon boundary is
    strictly after [now] and less than 38 days after it. *)
Theorem getNextFullMoonMorning_range (now : Z) :
  now < (getNextFullMoonMorning (frozen now)).1 < now + 38 * msPerDay.
Proof.
  rewrite getNextFullMoonMorning_value. change (frozen now 1%nat) with now.
  apply fullMoon_morning_range.
Qed.

Lemma getMaxEventTime_after_now (timeFilter : string) (now : Z) :
  now < (getMaxEventTime timeFilter (frozen now)).1.
Proof.
  rewrite getMaxEventTime_value. cbv zeta.
  rewrite getNextFullMoonMorning_value.
  change (frozen now 0%nat) with now.
  change (frozen now 2%nat) with now.
  change (λ k : nat, frozen now (S k)) with (frozen now).
  pose proof (getNextSunrise_range (frozen now)) as Hsun.
  pose proof (getNextSundayPrimetime_range (frozen now)) as Hprime.
  pose proof (fullMoon_morning_range now) as Hmoon.
  pose proof (all_boundary_lower now) as Hall.
  change (frozen now 0%nat) with now in Hsun, Hprime.
  repeat match goal with
         | |- context [String.eqb timeFilter ?s] =>
             destruct (String.eqb timeFilter s)
         end; try lia; unfold msPerDay in *; lia.
Qed.

(** X7. Whatever the time filter is called, known or not, the boundary
    of [getMaxEventTime] is strictly after the clock reading when the
    clock stands still; the boundary of ['all'] is more than 3649 days
    ahead. *)
Theorem getMaxEventTime_future (timeFilter : string) (now : Z) :
  now < (getMaxEventTime timeFilter (frozen now)).1 ∧
  now + 3649 * msPerDay < (getMaxEventTime "all" (frozen now)).1.
Proof.
  split; [apply getMaxEventTime_after_now|].
  rewrite getMaxEventTime_value. cbv zeta.
  change (frozen now 0%nat) with now.
  cbn [String.eqb Ascii.eqb Bool.eqb]. apply all_boundary_lower.
Qed.
End BoundaryTheorems.

(* ================================================================== *)
(** * More about filtering *)

Section FilterMore.
Context {rt : Runtime}.
Variable storage : EventStorage.t.
Import EventFilter.

Section Decision.
Variables (maxEventTime : Z) (maxDistance : R) (category : string)
  (referenceLocation : option Location).

Local Abbreviation callback :=
  (filterEvents_callback storage maxEventTime maxDistance category
     referenceLocation).

(** The decision of the callback, in terms of the gates. *)
Lemma callback_passes (event : nat) (h : Heap) :
  (callback event h).1 = true ↔
  passes storage maxEventTime maxDistance category referenceLocation
    (h event).
Proof.
  unfold filterEvents_callback, passes. cbv zeta.
  destruct (EventStorage.isBookmarked storage (id (h event))) eqn:Hb.
  { destruct referenceLocation, (location (h event)); cbn [fst];
      split; auto. }
  destruct (Date_gt _ _) eqn:Ht.
  { cbn [fst]. split; [done|]. intros [?|(H & _)]; [done|].
    pose proof (proj2 (Date_gt_false _ _) H). congruence. }
  pose proof (proj1 (Date_gt_false _ _) Ht) as Ht'.
  destruct (negb _ && _) eqn:Hc.
  { cbn [fst]. split; [done|]. intros [?|(_ & H & _)]; [done|].
    pose proof (proj2 (category_gate _ _) H). unfold event_category in *.
    congruence. }
  pose proof (proj1 (category_gate _ _) Hc) as Hc'.
  destruct referenceLocation as [ref|], (location (h event)) as [loc|];
    cbn [fst].
  - destruct (Rgt_dec _ _) as [Hgt|Hle]; cbn [fst].
    + split; [done|]. intros [?|(_ & _ & H)]; [done|].
      specialize (H ref loc eq_refl eq_refl). exfalso. Lra.lra.
    + split; [|done]. intros _. right. split; [done|]. split; [done|].
      intros ref' loc' [= <-] [= <-]. Lra.lra.
  - split; [|done]. intros _. right. split; [done|]. split; [done|]. done.
  - split; [|done]. intros _. right. split; [done|]. split; [done|]. done.
  - split; [|done]. intros _. right. split; [done|]. split; [done|]. done.
Qed.

(** The decision does not read the distance. *)
Lemma callback_decision_frame (event : nat) (h h' : Heap) :
  clear_distance (h event) = clear_distance (h' event) →
  (callback event h).1 = (callback event h').1.
Proof.
  intros H.
  pose proof (f_equal id H) as Hid.
  pose proof (f_equal start_time H) as Hst.
  pose proof (f_equal location H) as Hloc.
  pose proof (f_equal event_category H) as Hcat.
  change (event_category (h event) = event_category (h' event)) in Hcat.
  cbn in Hid, Hst, Hloc.
  unfold filterEvents_callback. cbv zeta.
  rewrite Hid, Hst, Hloc, Hcat.
  destruct (EventStorage.isBookmarked _ _).
  { by destruct referenceLocation, (location (h' event)). }
  destruct (Date_gt _ _); [done|].
  destruct (negb _ && _); [done|].
  destruct referenceLocation, (location (h' event)); [|done..].
  by destruct (Rgt_dec _ _).
Qed.

(** The writes of the callback change no later decision: the selection
    is the one made on the heap before the pass. *)
Lemma array_filter_selection (events : list nat) (h0 h : Heap) :
  (∀ r, clear_distance (h r) = clear_distance (h0 r)) →
  (array_filter callback events h).1 =
  List.filter (λ r, (callback r h0).1) events.
Proof.
  revert h. induction events as [|event rest IH]; intros h Hh; [done|].
  cbn [array_filter fst List.filter].
  rewrite (callback_decision_frame event h h0) by done.
  rewrite (IH (callback event h).2).
  - by destruct ((callback event h0).1).
  - intros r. by rewrite callback_frame.
Qed.

Lemma array_filter_member (events : list nat) (h : Heap) (r : nat) :
  r ∈ (array_filter callback events h).1 ↔
  r ∈ events ∧
  passes storage maxEventTime maxDistance category referenceLocation (h r).
Proof.
  rewrite (array_filter_selection events h h) by done.
  rewrite list_elem_of_In, filter_In, <- list_elem_of_In.
  by rewrite callback_passes.
Qed.

(** Where there is no reference location, or the event has no
    location, the callback writes nothing. *)
Lemma callback_heap_same (event : nat) (h : Heap) :
  referenceLocation = None ∨ location (h event) = None →
  (callback event h).2 = h.
Proof.
  intros H. unfold filterEvents_callback. cbv zeta.
  destruct H as [-> | ->].
  - destruct (EventStorage.isBookmarked _ _); [done|].
    destruct (Date_gt _ _); [done|]. by destruct (negb _ && _).
  - destruct (EventStorage.isBookmarked _ _);
      [by destruct referenceLocation|].
    destruct (Date_gt _ _); [done|]. destruct (negb _ && _); [done|].
    by destruct referenceLocation.
Qed.

Lemma array_filter_heap_same (events : list nat) (h : Heap) (r : nat) :
  referenceLocation = None ∨ location (h r) = None →
  (array_filter callback events h).2 r = h r.
Proof.
  revert h. induction events as [|event rest IH]; intros h H; [done|].
  cbn [array_filter snd].
  assert (Hr : (callback event h).2 r = h r).
  { destruct (decide (r = event)) as [->|Hne].
    - by rewrite callback_heap_same.
    - by apply callback_outside. }
  rewrite IH; [done|].
  destruct H as [H|H]; [by left|right]. by rewrite Hr.
Qed.
End Decision.

Lemma filter_sublist_impl (p q : nat → bool) (l : list nat) :
  (∀ r, r ∈ l → p r = true → q r = true) →
  List.filter p l `sublist_of` List.filter q l.
Proof.
  induction l as [|r l IH]; intros H; [done|]. cbn [List.filter].
  assert (IH' : List.filter p l `sublist_of` List.filter q l).
  { apply IH. intros r' Hr'. apply H. by right. }
  destruct (p r) eqn:Hp.
  - rewrite (H r) by (done || by left). by constructor.
  - destruct (q r); [by constructor|done].
Qed.

(** Wider gates keep more. *)
Lemma array_filter_mono (maxEventTime1 maxEventTime2 : Z)
    (maxDistance1 maxDistance2 : R) (category1 category2 : string)
    (referenceLocation : option Location) (events : list nat) (h : Heap) :
  maxEventTime1 <= maxEventTime2 →
  (maxDistance1 <= maxDistance2)%R →
  category2 = "all" ∨ category1 = category2 →
  (array_filter
     (filterEvents_callback storage maxEventTime1 maxDistance1 category1
        referenceLocation) events h).1 `sublist_of`
  (array_filter
     (filterEvents_callback storage maxEventTime2 maxDistance2 category2
        referenceLocation) events h).1.
Proof.
  intros Ht Hd Hc.
  rewrite !(array_filter_selection _ _ _ _ events h h) by done.
  apply filter_sublist_impl. intros r _.
  rewrite !callback_passes. unfold passes.
  intros [Hb|(H1 & H2 & H3)]; [by left|right].
  split; [|split].
  - intros t Hs. specialize (H1 t Hs). lia.
  - destruct Hc as [->| <-]; [by left|done].
  - intros ref loc Href Hloc. specialize (H3 ref loc Href Hloc). Lra.lra.
Qed.

Lemma filter_filter_same (p : nat → bool) (l : list nat) :
  List.filter p (List.filter p l) = List.filter p l.
Proof.
  induction l as [|r l IH]; [done|]. cbn [List.filter].
  destruct (p r) eqn:Hp; [|done]. cbn [List.filter]. by rewrite Hp, IH.
Qed.

(** The clock that stands still stands still after the boundary has been
    computed. *)
Lemma getMaxEventTime_frozen (timeFilter : string) (now : Z) :
  (getMaxEventTime timeFilter (frozen now)).2 = frozen now.
Proof.
  unfold getMaxEventTime, mbind, M_bind, new_Date. cbn [fst snd].
  repeat match goal with
         | |- context [String.eqb timeFilter ?s] =>
             destruct (String.eqb timeFilter s)
         end; reflexivity.
Qed.

(** A pass over events whose distance is already written changes
    nothing. *)
Lemma array_filter_settled (maxEventTime : Z) (maxDistance : R)
    (category : string) (referenceLocation : option Location)
    (events : list nat) (h : Heap) :
  (∀ r ref loc,
     r ∈ events → referenceLocation = Some ref →
     location (h r) = Some loc →
     distance (h r) =
       Some (calculateDistance (lat ref) (lon ref) (lat loc) (lon loc))) →
  ∀ r,
    (array_filter
       (filterEvents_callback storage maxEventTime maxDistance category
          referenceLocation) events h).2 r = h r.
Proof.
  revert h. induction events as [|event rest IH]; intros h Hs r; [done|].
  cbn [array_filter snd].
  assert (Hstep : ∀ r',
            (filterEvents_callback storage maxEventTime maxDistance
               category referenceLocation event h).2 r' = h r').
  { intros r'.
    destruct (callback_heap storage maxEventTime maxDistance category
                referenceLocation event h)
      as [->|(ref & loc & Href & Hloc & ->)]; [done|].
    destruct (decide (r' = event)) as [->|Hne];
      [|by rewrite heap_update_ne].
    rewrite heap_update_eq.
    specialize (Hs event ref loc ltac:(by left) Href Hloc).
    destruct (h event). cbn in *. by rewrite Hs. }
  rewrite IH; [apply Hstep|].
  intros r' ref loc Hin Href Hloc. rewrite Hstep in Hloc |- *.
  apply Hs; [by right|done..].
Qed.

(** ** The counts *)

Lemma lookup_count_up (cat cat' : string) (m : gmap string JSValue)
    (a : nat) :
  Object_prototype cat' = None → m !! cat' = count_entry a →
  count_up cat m !! cat' =
    count_entry (a + if decide (cat = cat') then 1 else 0).
Proof.
  intros Hp Hm. destruct (decide (cat = cat')) as [->|Hne].
  - rewrite (count_up_plain _ _ Hp), lookup_insert_eq, Hm.
    unfold count_entry. destruct a as [|a]; cbn.
    + done.
    + by rewrite Nat.add_1_r.
  - rewrite Nat.add_0_r, <- Hm. unfold count_up, Object_set.
    destruct (_ && _); [done|]. by rewrite lookup_insert_ne.
Qed.

Lemma foldl_count (maxEventTime : Z) (maxDistance : R)
    (referenceLocation : option Location) (h : Heap) (cat : string)
    (events : list nat) (acc : gmap string JSValue) (a : nat) :
  Object_prototype cat = None → acc !! cat = count_entry a →
  foldl
    (countCategories_callback storage maxEventTime maxDistance
       referenceLocation h) acc events !! cat =
  count_entry
    (a +
     length
       (filter (λ r, category_or_uncategorized (category (h r)) = cat)
          (List.filter
             (λ r, (filterEvents_callback storage maxEventTime maxDistance
                      "all" referenceLocation r h).1) events))).
Proof.
  intros Hp. revert acc a.
  induction events as [|event rest IH]; intros acc a Hacc.
  { cbn. by rewrite Nat.add_0_r. }
  cbn [foldl List.filter].
  rewrite (count_filter_step storage _ _ _ h h) by done.
  destruct ((filterEvents_callback storage maxEventTime maxDistance "all"
               referenceLocation event h).1); [|by apply IH].
  rewrite (IH _ _ (lookup_count_up _ _ _ _ Hp Hacc)).
  f_equal. rewrite filter_cons.
  destruct (decide (category_or_uncategorized (category (h event)) = cat));
    cbn [length]; lia.
Qed.

Lemma category_or_uncategorized_eq (c : option string) (cat : string) :
  cat ≠ "uncategorized" → cat ≠ EmptyString →
  category_or_uncategorized c = cat ↔ c = Some cat.
Proof.
  intros H1 H2. unfold category_or_uncategorized.
  destruct c as [c'|]; [|done].
  destruct (String.eqb_spec c' EmptyString) as [->|Hne].
  - split; [done|]. by intros [= <-].
  - split; [by intros ->|by intros [= ->]].
Qed.

Lemma length_filter_filter (P : nat → Prop) `{!∀ r, Decision (P r)}
    (p q : nat → bool) (l : list nat) :
  (∀ r, r ∈ l → q r = true ↔ p r = true ∧ P r) →
  length (filter P (List.filter p l)) = length (List.filter q l).
Proof.
  induction l as [|r l IH]; intros Hpq; [done|]. cbn [List.filter].
  assert (IH' : length (filter P (List.filter p l)) =
                length (List.filter q l)).
  { apply IH. intros r' Hr'. apply Hpq. by right. }
  specialize (Hpq r ltac:(by left)).
  destruct (p r) eqn:Hp, (q r) eqn:Hq.
  - rewrite filter_cons, decide_True by (by apply Hpq). cbn [length].
    by rewrite IH'.
  - rewrite filter_cons, decide_False; [done|].
    intros HP. by pose proof (proj2 Hpq (conj eq_refl HP)).
  - by pose proof (proj1 (proj1 Hpq eq_refl)).
  - done.
Qed.

(** X8. The heap writes of [filterEvents] change none of its decisions:
    the result is the list of the events that the callback keeps on the
    heap as it was before the call, in the order of the input and with
    its repetitions. *)
Theorem filterEvents_selection (events : list nat) (filters : Filters.t)
    (referenceLocation : option Location) (w : World) :
  (filterEvents storage events filters referenceLocation w).1 =
  List.filter
    (λ r,
       (filterEvents_callback storage
          (getMaxEventTime (Filters.timeFilter filters) (clock w)).1
          (Filters.maxDistance filters) (Filters.category filters)
          referenceLocation r (heap w)).1)
    events.
Proof.
  unfold filterEvents. cbv zeta. cbn [fst].
  by apply array_filter_selection.
Qed.

(** X9. With the distance computed in exact real arithmetic (where the
    haversine formula always yields a number, never NaN),
    [filterEvents] returns exactly the events of the list that are
    bookmarked or pass all three gates: a start time that is not after
    the boundary (an unreadable start time passes), the category of the
    settings unless that is ['all'], and a distance within the radius
    when the reference location and the event location are both
    known. *)
Theorem filterEvents_member (events : list nat) (filters : Filters.t)
    (referenceLocation : option Location) (w : World) (r : nat) :
  r ∈ (filterEvents storage events filters referenceLocation w).1 ↔
  r ∈ events ∧
  passes storage
    (getMaxEventTime (Filters.timeFilter filters) (clock w)).1
    (Filters.maxDistance filters) (Filters.category filters)
    referenceLocation (heap w r).
Proof.
  unfold filterEvents. cbv zeta. cbn [fst]. apply array_filter_member.
Qed.

(** X10. [filterEvents] writes nothing when there is no reference
    location, and it never writes to an event that has no location. *)
Theorem filterEvents_untouched (events : list nat) (filters : Filters.t)
    (referenceLocation : option Location) (w : World) (r : nat) :
  referenceLocation = None ∨ location (heap w r) = None →
  heap (filterEvents storage events filters referenceLocation w).2 r =
  heap w r.
Proof.
  intros H. unfold filterEvents. cbv zeta. cbn [snd heap].
  by apply array_filter_heap_same.
Qed.

(** X11. Wider settings show more: with the same time filter, a radius
    that is not smaller and the same category or ['all'], every event of
    the narrower result is in the wider result, in the same order. *)
Theorem filterEvents_widen (events : list nat) (filters1 filters2 : Filters.t)
    (referenceLocation : option Location) (w : World) :
  Filters.timeFilter filters1 = Filters.timeFilter filters2 →
  (Filters.maxDistance filters1 <= Filters.maxDistance filters2)%R →
  Filters.category filters2 = "all" ∨
    Filters.category filters1 = Filters.category filters2 →
  (filterEvents storage events filters1 referenceLocation w).1
    `sublist_of`
  (filterEvents storage events filters2 referenceLocation w).1.
Proof.
  intros Ht Hd Hc. unfold filterEvents. cbv zeta. cbn [fst].
  rewrite Ht. by apply array_filter_mono.
Qed.

(** X12. The time windows nest: of the time filters 6h, 12h, 24h, 48h
    and all, a later one shows every event that an earlier one shows,
    whatever the clock reads. *)
Theorem filterEvents_windows (events : list nat) (filters : Filters.t)
    (referenceLocation : option Location) (w : World) (i j : nat)
    (narrow wide : string) :
  time_windows !! i = Some narrow → time_windows !! j = Some wide →
  (i <= j)%nat →
  (filterEvents storage events (with_timeFilter narrow filters)
     referenceLocation w).1 `sublist_of`
  (filterEvents storage events (with_timeFilter wide filters)
     referenceLocation w).1.
Proof.
  intros Hi Hj Hij. unfold filterEvents. cbv zeta.
  cbn [fst with_timeFilter Filters.timeFilter Filters.maxDistance
       Filters.category].
  apply array_filter_mono; [|Lra.lra|by right].
  rewrite !getMaxEventTime_value. cbv zeta.
  pose proof (all_boundary_lower (clock w 0%nat)) as Hall.
  unfold msPerDay in Hall.
  destruct i as [|[|[|[|[|i]]]]]; cbn in Hi; try discriminate Hi;
    injection Hi as <-;
    destruct j as [|[|[|[|[|j]]]]]; cbn in Hj; try discriminate Hj;
    injection Hj as <-; try lia;
    cbn [String.eqb Ascii.eqb Bool.eqb]; lia.
Qed.

(** X13. Filtering the result again at the same instant changes
    nothing: with the clock standing still, [filterEvents] on its own
    result returns that result and leaves every event as it is. *)
Theorem filterEvents_again (events : list nat) (filters : Filters.t)
    (referenceLocation : option Location) (now : Z) (h : Heap) :
  let first :=
    filterEvents storage events filters referenceLocation
      {| clock := frozen now; heap := h |} in
  let second :=
    filterEvents storage first.1 filters referenceLocation first.2 in
  second.1 = first.1 ∧ ∀ r, heap second.2 r = heap first.2 r.
Proof.
  cbv zeta. unfold filterEvents. cbv zeta. cbn [fst snd clock heap].
  rewrite getMaxEventTime_frozen.
  set (maxEventTime :=
         (getMaxEventTime (Filters.timeFilter filters) (frozen now)).1).
  split.
  - rewrite (array_filter_selection _ _ _ _ _ h)
      by (intros r; apply array_filter_frame).
    rewrite (array_filter_selection _ _ _ _ events h h) by done.
    apply filter_filter_same.
  - apply array_filter_settled. intros r ref loc Hin Href Hloc.
    apply array_filter_distance; [done..|].
    rewrite <- Hloc. symmetry.
    apply (location_frame h), array_filter_frame.
Qed.

(** X14. For a category whose name is not the name of a property
    inherited from [Object.prototype], [countCategoriesUnderFilters]
    holds the number of events with that category (['uncategorized'] for
    an event without one) among the events that [filterEvents] returns
    when the category of the settings is ['all']; when there is no such
    event the category has no entry. *)
Theorem countCategories_per_category (events : list nat)
    (filters : Filters.t) (referenceLocation : option Location)
    (w : World) (cat : string) :
  Object_prototype cat = None →
  let counts :=
    (countCategoriesUnderFilters storage events filters
       referenceLocation w).1 in
  let shown :=
    (filterEvents storage events (with_category "all" filters)
       referenceLocation w).1 in
  counts !! cat =
    count_entry
      (length
         (filter
            (λ r, category_or_uncategorized (category (heap w r)) = cat)
            shown)).
Proof.
  intros Hp. cbv zeta.
  unfold countCategoriesUnderFilters, filterEvents. cbv zeta.
  cbn [fst with_category Filters.timeFilter Filters.maxDistance
       Filters.category].
  rewrite (array_filter_selection _ _ _ _ events (heap w) (heap w)) by done.
  by rewrite (foldl_count _ _ _ _ cat events ∅ 0 Hp (lookup_empty _)).
Qed.

(** X15. When no event of the list is bookmarked, the count of a
    category is the number of events that [filterEvents] returns once
    that category is chosen, and the category has no entry when that
    number is 0; this for a category other than ['all'],
    ['uncategorized'] and the empty name, whose name is not the name of
    a property inherited from [Object.prototype]. *)
Theorem countCategories_matches_filter (events : list nat)
    (filters : Filters.t) (referenceLocation : option Location)
    (w : World) (cat : string) :
  Object_prototype cat = None →
  (∀ r, r ∈ events →
        EventStorage.isBookmarked storage (id (heap w r)) = false) →
  cat ≠ "all" → cat ≠ "uncategorized" → cat ≠ EmptyString →
  (countCategoriesUnderFilters storage events filters
     referenceLocation w).1 !! cat =
  count_entry
    (length
       (filterEvents storage events (with_category cat filters)
          referenceLocation w).1).
Proof.
  intros Hp Hb Hall Hun Hem.
  unfold countCategoriesUnderFilters, filterEvents. cbv zeta.
  cbn [fst with_category Filters.timeFilter Filters.maxDistance
       Filters.category].
  rewrite (array_filter_selection _ _ _ _ events (heap w) (heap w)) by done.
  rewrite (foldl_count _ _ _ _ cat events ∅ 0 Hp (lookup_empty _)).
  f_equal. cbn [plus].
  apply length_filter_filter. intros r Hr.
  rewrite !callback_passes, category_or_uncategorized_eq by done.
  unfold passes, event_category. rewrite (Hb r Hr). split.
  - intros [?|(H1 & [?|H2] & H3)]; [done..|].
    split; [|done]. right. split; [done|]. split; [by left|done].
  - intros [[?|(H1 & _ & H3)] H2]; [done|].
    right. split; [done|]. split; [by right|done].
Qed.
End FilterMore.

(** X29. The time filter never hides an event for having started: with
    the clock standing still at [now], whatever the time filter is, an
    event of the list whose start time is not after [now] is returned,
    when the category of the settings is ['all'] and the event has no
    location (so that the other two gates are open). *)
Theorem filterEvents_keeps_started {rt : Runtime}
    (storage : EventStorage.t) (events : list nat) (filters : Filters.t)
    (referenceLocation : option Location) (now : Z) (h : Heap) (r : nat)
    (t : Z) :
  r ∈ events →
  EventFilter.new_Date_of (start_time (h r)) = Some t → t <= now →
  Filters.category filters = "all" → location (h r) = None →
  r ∈ (EventFilter.filterEvents storage events filters referenceLocation
         {| clock := frozen now; heap := h |}).1.
Proof.
  intros Hr Hs Ht Hc Hl. unfold EventFilter.filterEvents. cbv zeta.
  cbn [fst clock heap].
  apply array_filter_member. split; [done|]. right.
  split; [|split].
  - intros t' Hs'. rewrite Hs in Hs'. injection Hs' as <-.
    pose proof (getMaxEventTime_after_now (Filters.timeFilter filters)
                  now). lia.
  - by left.
  - intros ref loc _ Hloc. congruence.
Qed.

(** X28. A bookmark overrides the filters: once [toggleBookmark] has
    returned true for the identifier of an event, [filterEvents] returns
    that event whenever it is in the list, whatever the settings, the
    reference location and the clock are. *)
Theorem toggleBookmark_filterEvents {rt : Runtime}
    (storage : EventStorage.t) (eventId : string) (events : list nat)
    (filters : Filters.t) (referenceLocation : option Location)
    (w : World) (r : nat) :
  (EventStorage.toggleBookmark storage eventId).1 = true →
  r ∈ events → id (heap w r) = Some eventId →
  r ∈ (EventFilter.filterEvents
         (EventStorage.toggleBookmark storage eventId).2 events filters
         referenceLocation w).1.
Proof.
  intros Ht Hr Hid. unfold EventFilter.filterEvents. cbv zeta. cbn [fst].
  apply array_filter_member. split; [done|]. left.
  rewrite Hid. by apply toggleBookmark_true.
Qed.

(** Without a reference location the concert is not written to. *)
Lemma filterEvents_untouched_witness :
  let w := {| clock := frozen at_18_00; heap := heap_of [concert] |} in
  (@None Location = None ∨ location (heap w 0%nat) = None) ∧
  heap
    (EventFilter.filterEvents (rt:=CET) no_bookmarks [0%nat] next_6h None
       w).2 0%nat = heap w 0%nat.
Proof.
  cbv zeta.
  assert (H : @None Location = None ∨
              location
                (heap {| clock := frozen at_18_00;
                         heap := heap_of [concert] |} 0%nat) = None).
  { left. reflexivity. }
  split; [exact H|].
  exact (filterEvents_untouched (rt:=CET) no_bookmarks [0%nat] next_6h None
           {| clock := frozen at_18_00; heap := heap_of [concert] |}
           0%nat H).
Defined.

(** The music of the next six hours is among everything of the next six
    hours. *)
Lemma filterEvents_widen_witness :
  let w := {| clock := frozen at_18_00; heap := heap_of [concert] |} in
  Filters.timeFilter (with_category "music" next_6h) =
    Filters.timeFilter next_6h ∧
  (Filters.maxDistance (with_category "music" next_6h) <=
     Filters.maxDistance next_6h)%R ∧
  (Filters.category next_6h = "all" ∨
   Filters.category (with_category "music" next_6h) =
     Filters.category next_6h) ∧
  (EventFilter.filterEvents (rt:=CET) no_bookmarks [0%nat]
     (with_category "music" next_6h) None w).1 `sublist_of`
  (EventFilter.filterEvents (rt:=CET) no_bookmarks [0%nat] next_6h None
     w).1.
Proof.
  cbv zeta.
  assert (H1 : Filters.timeFilter (with_category "music" next_6h) =
               Filters.timeFilter next_6h) by reflexivity.
  assert (H2 : (Filters.maxDistance (with_category "music" next_6h) <=
                  Filters.maxDistance next_6h)%R) by apply Rle_refl.
  assert (H3 : Filters.category next_6h = "all" ∨
               Filters.category (with_category "music" next_6h) =
                 Filters.category next_6h) by (left; reflexivity).
  split; [exact H1|]. split; [exact H2|]. split; [exact H3|].
  exact (filterEvents_widen (rt:=CET) no_bookmarks [0%nat]
           (with_category "music" next_6h) next_6h None
           {| clock := frozen at_18_00; heap := heap_of [concert] |}
           H1 H2 H3).
Defined.

(** What the six-hour window shows at 10:00, the 24-hour window shows
    too. *)
Lemma filterEvents_windows_witness :
  let w := {| clock := frozen at_10_00; heap := heap_of [concert] |} in
  time_windows !! 0%nat = Some "6h" ∧
  time_windows !! 2%nat = Some "24h" ∧
  (0 <= 2)%nat ∧
  (EventFilter.filterEvents (rt:=CET) no_bookmarks [0%nat]
     (with_timeFilter "6h" next_6h) None w).1 `sublist_of`
  (EventFilter.filterEvents (rt:=CET) no_bookmarks [0%nat]
     (with_timeFilter "24h" next_6h) None w).1.
Proof.
  cbv zeta.
  assert (H1 : time_windows !! 0%nat = Some "6h") by reflexivity.
  assert (H2 : time_windows !! 2%nat = Some "24h") by reflexivity.
  assert (H3 : (0 <= 2)%nat) by lia.
  split; [exact H1|]. split; [exact H2|]. split; [exact H3|].
  exact (filterEvents_windows (rt:=CET) no_bookmarks [0%nat] next_6h None
           {| clock := frozen at_10_00; heap := heap_of [concert] |}
           0%nat 2%nat "6h" "24h" H1 H2 H3).
Defined.

(** One concert at 18:00: the count of music is 1, and one event is
    shown once music is chosen. *)
Lemma countCategories_matches_filter_witness :
  let w := {| clock := frozen at_18_00; heap := heap_of [concert] |} in
  Object_prototype (Runtime:=CET) "music" = None ∧
  (∀ r, r ∈ [0%nat] →
        EventStorage.isBookmarked no_bookmarks (id (heap w r)) = false) ∧
  "music" ≠ "all" ∧ "music" ≠ "uncategorized" ∧ "music" ≠ EmptyString ∧
  (EventFilter.countCategoriesUnderFilters (rt:=CET) no_bookmarks
     [0%nat] next_6h None w).1 !! "music" =
  count_entry
    (length
       (EventFilter.filterEvents (rt:=CET) no_bookmarks [0%nat]
          (with_category "music" next_6h) None w).1).
Proof.
  cbv zeta.
  assert (H0 : Object_prototype (Runtime:=CET) "music" = None)
    by (vm_compute; reflexivity).
  assert (H1 : ∀ r, r ∈ [0%nat] →
            EventStorage.isBookmarked no_bookmarks
              (id (heap {| clock := frozen at_18_00;
                           heap := heap_of [concert] |} r)) = false).
  { intros r ->%list_elem_of_singleton. vm_compute. reflexivity. }
  assert (H2 : "music" ≠ "all") by discriminate.
  assert (H3 : "music" ≠ "uncategorized") by discriminate.
  assert (H4 : "music" ≠ EmptyString) by discriminate.
  split; [exact H0|]. split; [exact H1|]. split; [exact H2|].
  split; [exact H3|]. split; [exact H4|].
  exact (countCategories_matches_filter (rt:=CET) no_bookmarks [0%nat]
           next_6h None
           {| clock := frozen at_18_00; heap := heap_of [concert] |}
           "music" H0 H1 H2 H3 H4).
Defined.

(** The count of music for one concert at 18:00. *)
Lemma countCategories_per_category_witness :
  let w := {| clock := frozen at_18_00; heap := heap_of [concert] |} in
  Object_prototype (Runtime:=CET) "music" = None ∧
  (EventFilter.countCategoriesUnderFilters (rt:=CET) no_bookmarks
     [0%nat] next_6h None w).1 !! "music" =
  count_entry
    (length
       (filter
          (λ r, EventFilter.category_or_uncategorized
                  (category (heap w r)) = "music")
          (EventFilter.filterEvents (rt:=CET) no_bookmarks [0%nat]
             (with_category "all" next_6h) None w).1)).
Proof.
  cbv zeta.
  assert (H0 : Object_prototype (Runtime:=CET) "music" = None)
    by (vm_compute; reflexivity).
  split; [exact H0|].
  exact (countCategories_per_category (rt:=CET) no_bookmarks [0%nat]
           next_6h None
           {| clock := frozen at_18_00; heap := heap_of [concert] |}
           "music" H0).
Defined.

(** The concert of 20:00 is outside the six-hour window at 10:00, and
    shown all the same once it is bookmarked. *)
Lemma toggleBookmark_filterEvents_witness :
  let w := {| clock := frozen at_10_00; heap := heap_of [concert] |} in
  (EventStorage.toggleBookmark no_bookmarks "concert-1").1 = true ∧
  0%nat ∈ [0%nat] ∧
  id (heap w 0%nat) = Some "concert-1" ∧
  0%nat ∈
    (EventFilter.filterEvents (rt:=CET)
       (EventStorage.toggleBookmark no_bookmarks "concert-1").2 [0%nat]
       next_6h None w).1.
Proof.
  cbv zeta.
  assert (H1 : (EventStorage.toggleBookmark no_bookmarks "concert-1").1 =
               true) by reflexivity.
  assert (H2 : 0%nat ∈ [0%nat]) by (by left).
  assert (H3 : id (heap {| clock := frozen at_10_00;
                           heap := heap_of [concert] |} 0%nat) =
               Some "concert-1") by reflexivity.
  split; [exact H1|]. split; [exact H2|]. split; [exact H3|].
  exact (toggleBookmark_filterEvents (rt:=CET) no_bookmarks "concert-1"
           [0%nat] next_6h None
           {| clock := frozen at_10_00; heap := heap_of [concert] |}
           0%nat H1 H2 H3).
Defined.

(** At 22:00 the concert of 20:00 is still shown by the six-hour
    filter. *)
Lemma filterEvents_keeps_started_witness :
  0%nat ∈ [0%nat] ∧
  EventFilter.new_Date_of (rt:=CET) (start_time (heap_of [concert] 0%nat)) =
    Some at_20_00 ∧
  at_20_00 <= at_22_00 ∧
  Filters.category next_6h = "all" ∧
  location (heap_of [concert] 0%nat) = None ∧
  0%nat ∈
    (EventFilter.filterEvents (rt:=CET) no_bookmarks [0%nat] next_6h None
       {| clock := frozen at_22_00; heap := heap_of [concert] |}).1.
Proof.
  assert (H1 : 0%nat ∈ [0%nat]) by (by left).
  assert (H2 : EventFilter.new_Date_of (rt:=CET)
                 (start_time (heap_of [concert] 0%nat)) = Some at_20_00)
    by (vm_compute; reflexivity).
  assert (H3 : at_20_00 <= at_22_00) by (vm_compute; discriminate).
  assert (H4 : Filters.category next_6h = "all") by reflexivity.
  assert (H5 : location (heap_of [concert] 0%nat) = None) by reflexivity.
  split; [exact H1|]. split; [exact H2|]. split; [exact H3|].
  split; [exact H4|]. split; [exact H5|].
  exact (filterEvents_keeps_started (rt:=CET) no_bookmarks [0%nat] next_6h
           None at_22_00 (heap_of [concert]) 0%nat at_20_00
           H1 H2 H3 H4 H5).
Defined.

(* ================================================================== *)
(** * More about template events *)


Lemma mapM_clock_cons {A B} (f : A → M B) (x : A) (l : list A)
    (c : Clock) :
  mapM_clock f (x :: l) c =
  ((f x c).1 :: (mapM_clock f l (f x c).2).1,
   (mapM_clock f l (f x c).2).2).
Proof. reflexivity. Qed.

Section TemplatesMore.
Context {rt : Runtime}.
Import EventUtils.







(** The fields that [processTemplateEvents] leaves alone. *)
Lemma processTemplateEvent_fields (now : Z) (e : Event) (c : Clock) :
  let e' := (processTemplateEvent now e c).1 in
  id e' = id e ∧ title e' = title e ∧
  event_category e' = event_category e ∧ location e' = location e ∧
  distance e' = distance e ∧ relative_time e' = relative_time e.
Proof.
  cbv zeta. unfold processTemplateEvent.
  destruct (relative_time e) as [spec|] eqn:E;
    [|unfold mret, M_ret; cbn [fst]; by rewrite E].
  unfold mbind, M_bind, mret, M_ret.
  destruct (String.eqb (type spec) "offset");
    [destruct (negb _)|destruct (String.eqb (type spec) "sunrise_relative")];
    by cbn.
Qed.

(** Processing an event that has been processed before gives what
    processing the original gives. *)
Lemma processTemplateEvent_again (now1 now2 : Z) (e : Event)
    (c1 c2 : Clock) :
  processTemplateEvent now2 (processTemplateEvent now1 e c1).1 c2 =
  processTemplateEvent now2 e c2.
Proof.
  unfold processTemplateEvent.
  destruct (relative_time e) as [spec|] eqn:E;
    [|unfold mret, M_ret; cbn [fst]; by rewrite E].
  unfold mbind, M_bind, mret, M_ret.
  destruct (String.eqb (type spec) "offset") eqn:E1;
    [destruct (negb (number_or (timezone_offset spec) 0 =? 0)) eqn:E3
    |destruct (String.eqb (type spec) "sunrise_relative") eqn:E2];
    cbn [fst snd relative_time set_published_at set_times];
    rewrite ?E; cbn [fst snd]; rewrite ?E1, ?E2, ?E3; reflexivity.
Qed.

Lemma mapM_clock_again (now1 now2 : Z) (events : list Event)
    (c1 c2 : Clock) :
  mapM_clock (processTemplateEvent now2)
    (mapM_clock (processTemplateEvent now1) events c1).1 c2 =
  mapM_clock (processTemplateEvent now2) events c2.
Proof.
  revert c1 c2. induction events as [|e events IH]; intros c1 c2; [done|].
  rewrite (mapM_clock_cons _ e events c1). cbn [fst].
  rewrite !mapM_clock_cons.
  by rewrite processTemplateEvent_again, IH.
Qed.



(** X18. [processTemplateEvents] changes the start time, the end time
    and the publication stamp only: identifier, title, category,
    location, distance and the specification of the relative time of
    every event come out as they went in, in the same order. *)
Theorem processTemplateEvents_frame (events : list Event) (c : Clock) :
  Forall2
    (λ e e',
       id e' = id e ∧ title e' = title e ∧
       event_category e' = event_category e ∧
       location e' = location e ∧ distance e' = distance e ∧
       relative_time e' = relative_time e)
    events (processTemplateEvents events c).1.
Proof.
  rewrite processTemplateEvents_value.
  generalize (c 0%nat) (λ k : nat, c (S k)). intros now c'. revert c'.
  induction events as [|e events IH]; intros c'; [by constructor|].
  rewrite mapM_clock_cons. cbn [fst snd].
  constructor; [apply processTemplateEvent_fields|apply IH].
Qed.

(** X19. Earlier processing leaves no trace: processing the result of
    an earlier [processTemplateEvents] gives the same events, and reads
    the clock as often, as processing the original events. *)
Theorem processTemplateEvents_again (events : list Event)
    (c1 c2 : Clock) :
  processTemplateEvents (processTemplateEvents events c1).1 c2 =
  processTemplateEvents events c2.
Proof.
  unfold processTemplateEvents, mbind, M_bind, new_Date. cbn [fst snd].
  apply mapM_clock_again.
Qed.
End TemplatesMore.



(* ================================================================== *)
(** * Bubble texts and positions *)

Lemma length_append (s1 s2 : string) :
  String.length (s1 +:+ s2) = (String.length s1 + String.length s2)%nat.
Proof.
  induction s1 as [|a s1 IH]; [done|].
  change (S (String.length (s1 +:+ s2)) =
          S (String.length s1 + String.length s2)).
  by rewrite IH.
Qed.

Lemma length_substring_0 (n : nat) (s : string) :
  String.length (substring 0 n s) = (n `min` String.length s)%nat.
Proof.
  revert s. induction n as [|n IH]; intros [|a s]; cbn; [done..|].
  by rewrite IH.
Qed.

Lemma substring_0_append (n : nat) (s1 s2 : string) :
  (n <= String.length s1)%nat →
  substring 0 n (s1 +:+ s2) = substring 0 n s1.
Proof.
  revert s1. induction n as [|n IH]; intros [|a s1] Hn; cbn in Hn;
    [by destruct s2|done|lia|].
  change (String a (substring 0 n (s1 +:+ s2)) =
          String a (substring 0 n s1)).
  rewrite IH; [done|lia].
Qed.

Lemma substring_0_idemp (n : nat) (s : string) :
  substring 0 n (substring 0 n s) = substring 0 n s.
Proof.
  revert s. induction n as [|n IH]; intros [|a s]; cbn; [done..|].
  by rewrite IH.
Qed.

(** [text.substring(0, n)] is the prefix of [text] of length [n], cut to
    the range from 0 to the length of [text]. *)
Lemma String_substring_0 (text : string) (n : Z) :
  String_substring text 0 n =
  substring 0 (Z.to_nat n `min` String.length text) text.
Proof.
  unfold String_substring. cbv zeta.
  set (len := Z.of_nat (String.length text)).
  assert (Hlen : 0 <= len) by (unfold len; lia).
  replace (Z.min (Z.max 0 0) len) with 0 by lia.
  replace (Z.min 0 (Z.min (Z.max n 0) len)) with 0 by lia.
  replace (Z.max 0 (Z.min (Z.max n 0) len))
    with (Z.min (Z.max n 0) len) by lia.
  cbn [Z.to_nat]. f_equal. unfold len. lia.
Qed.

Lemma clamp_range (lo hi v : Q) :
  (lo <= Qmax lo (Qmin v hi))%Q ∧
  ((lo <= hi)%Q → (Qmax lo (Qmin v hi) <= hi)%Q).
Proof.
  split.
  - apply Q.le_max_l.
  - intros H. apply Q.max_lub; [done|]. apply Q.le_min_r.
Qed.

Lemma clamp_inject_Z (lo hi v : Z) :
  (Qmax (inject_Z lo) (Qmin (inject_Z v) (inject_Z hi)) ==
   inject_Z (Z.max lo (Z.min v hi)))%Q.
Proof.
  destruct (Z.min_spec v hi) as [[H1 ->]|[H1 ->]].
  - rewrite (Q.min_l (inject_Z v) (inject_Z hi))
      by (rewrite <- Zle_Qle; lia).
    destruct (Z.max_spec lo v) as [[H2 ->]|[H2 ->]].
    + apply Q.max_r. rewrite <- Zle_Qle. lia.
    + apply Q.max_l. rewrite <- Zle_Qle. lia.
  - rewrite (Q.min_r (inject_Z v) (inject_Z hi))
      by (rewrite <- Zle_Qle; lia).
    destruct (Z.max_spec lo hi) as [[H2 ->]|[H2 ->]].
    + apply Q.max_r. rewrite <- Zle_Qle. lia.
    + apply Q.max_l. rewrite <- Zle_Qle. lia.
Qed.

(** The vertical position is a whole number of pixels. *)
Lemma calculateSimplePosition_y (viewportWidth viewportHeight : Z)
    (index : nat) :
  let columns := Z.max 1 (viewportWidth / 235) in
  let row := Z.of_nat index / columns in
  let randomY := ((Z.of_nat index * 13 + 7) mod 100 * 17) mod 11 - 5 in
  (SpeechBubblesSimple.y
     (SpeechBubblesSimple.calculateSimplePosition viewportWidth
        viewportHeight index) ==
   inject_Z
     (Z.max 10 (Z.min (row * 155 + 10 + randomY) (viewportHeight - 150))))%Q.
Proof.
  cbv zeta. unfold SpeechBubblesSimple.calculateSimplePosition.
  cbv zeta. cbn [SpeechBubblesSimple.y].
  unfold SpeechBubblesSimple.bubbleWidth, SpeechBubblesSimple.bubbleHeight,
    SpeechBubblesSimple.margin, SpeechBubblesSimple.spacing.
  change (220 + 15) with 235. change (140 + 15) with 155.
  rewrite <- !inject_Z_plus.
  replace (viewportHeight - 140 - 10) with (viewportHeight - 150) by lia.
  apply clamp_inject_Z.
Qed.

(** X20. A text that fits is returned as it is. A longer text is cut to
    its first [maxLength - 3] characters followed by three dots, so that
    for a [maxLength] of 3 or more the result has exactly [maxLength]
    characters and is never longer than allowed. The two variants of
    [truncateText] agree for every [maxLength] that is not negative. *)
Theorem truncateText_length (text : string) (maxLength : Z) :
  3 <= maxLength →
  let result := SpeechBubbles.truncateText text maxLength in
  SpeechBubblesSimple.truncateText text maxLength = result ∧
  Z.of_nat (String.length result) =
    Z.min (Z.of_nat (String.length text)) maxLength ∧
  (Z.of_nat (String.length text) <= maxLength → result = text) ∧
  (maxLength < Z.of_nat (String.length text) →
   ∃ kept,
     result = kept +:+ "..." ∧
     Z.of_nat (String.length kept) = maxLength - 3 ∧
     kept = substring 0 (Z.to_nat (maxLength - 3)) text).
Proof.
  intros Hmax. cbv zeta.
  unfold SpeechBubbles.truncateText, SpeechBubblesSimple.truncateText.
  rewrite String_substring_0.
  destruct (Z.leb_spec (Z.of_nat (String.length text)) maxLength)
    as [Hfit|Hlong].
  - rewrite orb_true_r. split; [done|]. split; [lia|]. split; [done|lia].
  - assert (Hne : String.eqb text EmptyString = false).
    { apply String.eqb_neq. intros ->. cbn in Hlong. lia. }
    rewrite Hne. cbn [orb].
    replace (Z.to_nat (maxLength - 3) `min` String.length text)%nat
      with (Z.to_nat (maxLength - 3)) by lia.
    split; [done|]. split; [|split; [lia|]].
    + rewrite length_append, length_substring_0. cbn [String.length]. lia.
    + intros _. eexists. split; [reflexivity|]. split; [|done].
      rewrite length_substring_0. lia.
Qed.

(** X21. The bubble position of the simplified layout is never left of
    or above the margin of 10 pixels, and when the map is at least 240
    pixels wide (160 pixels high) the bubble of 220 by 140 pixels ends
    at least 10 pixels before the right (lower) edge of the map. *)
Theorem calculateSimplePosition_in_viewport
    (viewportWidth viewportHeight : Z) (index : nat) :
  let position :=
    SpeechBubblesSimple.calculateSimplePosition viewportWidth
      viewportHeight index in
  (10 <= SpeechBubblesSimple.x position)%Q ∧
  (10 <= SpeechBubblesSimple.y position)%Q ∧
  (240 <= viewportWidth →
   (SpeechBubblesSimple.x position + 220 + 10 <=
      inject_Z viewportWidth)%Q) ∧
  (160 <= viewportHeight →
   (SpeechBubblesSimple.y position + 140 + 10 <=
      inject_Z viewportHeight)%Q).
Proof.
  cbv zeta. unfold SpeechBubblesSimple.calculateSimplePosition.
  cbv zeta. cbn [SpeechBubblesSimple.x SpeechBubblesSimple.y].
  unfold SpeechBubblesSimple.bubbleWidth, SpeechBubblesSimple.bubbleHeight,
    SpeechBubblesSimple.margin.
  change (inject_Z 10) with 10%Q.
  split; [apply clamp_range|]. split; [apply clamp_range|]. split.
  - intros HW.
    match goal with
    | |- (Qmax _ (Qmin ?v ?hi) + _ + _ <= _)%Q =>
        pose proof (proj2 (clamp_range 10 hi v)) as Hc
    end.
    unfold Z.sub in Hc |- *. rewrite !inject_Z_plus, !inject_Z_opp in Hc |- *.
    change (inject_Z 220) with 220%Q in *.
    change (inject_Z 10) with 10%Q in *.
    assert (HQ : (240 <= inject_Z viewportWidth)%Q).
    { change 240%Q with (inject_Z 240). by rewrite <- Zle_Qle. }
    specialize (Hc ltac:(lra)). lra.
  - intros HH.
    match goal with
    | |- (Qmax _ (Qmin ?v ?hi) + _ + _ <= _)%Q =>
        pose proof (proj2 (clamp_range 10 hi v)) as Hc
    end.
    unfold Z.sub in Hc |- *. rewrite !inject_Z_plus, !inject_Z_opp in Hc |- *.
    change (inject_Z 140) with 140%Q in *.
    change (inject_Z 10) with 10%Q in *.
    assert (HQ : (160 <= inject_Z viewportHeight)%Q).
    { change 160%Q with (inject_Z 160). by rewrite <- Zle_Qle. }
    specialize (Hc ltac:(lra)). lra.
Qed.

(** X22. Bubbles of different rows of the simplified layout do not
    overlap: when the lower row still fits into the map, a bubble of a
    row above ends at least 5 pixels above every bubble of that row. *)
Theorem calculateSimplePosition_rows (viewportWidth viewportHeight : Z)
    (i j : nat) :
  let columns := Z.max 1 (viewportWidth / 235) in
  let row (index : nat) := Z.of_nat index / columns in
  row i < row j →
  row j * 155 + 165 <= viewportHeight →
  (SpeechBubblesSimple.y
     (SpeechBubblesSimple.calculateSimplePosition viewportWidth
        viewportHeight i) + 140 + 5 <=
   SpeechBubblesSimple.y
     (SpeechBubblesSimple.calculateSimplePosition viewportWidth
        viewportHeight j))%Q.
Proof.
  cbv zeta beta. intros Hrow Hfit.
  rewrite !calculateSimplePosition_y. cbv zeta.
  change 140%Q with (inject_Z 140). change 5%Q with (inject_Z 5).
  rewrite <- !inject_Z_plus, <- Zle_Qle.
  assert (Hi : 0 <= Z.of_nat i / Z.max 1 (viewportWidth / 235)).
  { apply Z.div_pos; lia. }
  revert Hrow Hfit Hi.
  generalize (Z.of_nat i / Z.max 1 (viewportWidth / 235)).
  generalize (Z.of_nat j / Z.max 1 (viewportWidth / 235)).
  intros rj ri Hrow Hfit Hi.
  pose proof (Z.mod_pos_bound
                ((Z.of_nat i * 13 + 7) mod 100 * 17) 11 ltac:(lia)).
  pose proof (Z.mod_pos_bound
                ((Z.of_nat j * 13 + 7) mod 100 * 17) 11 ltac:(lia)).
  lia.
Qed.

(** A title of 58 characters is cut to 50. *)
Lemma truncateText_length_witness :
  3 <= 50 ∧
  Z.of_nat (String.length (SpeechBubbles.truncateText long_title 50)) =
    Z.min (Z.of_nat (String.length long_title)) 50.
Proof.
  assert (H : 3 <= 50) by lia.
  split; [exact H|].
  exact (proj1 (proj2 (truncateText_length long_title 50 H))).
Defined.

(** The eighth bubble on a map of 800 by 600 pixels. *)
Lemma calculateSimplePosition_in_viewport_witness :
  240 <= 800 ∧ 160 <= 600 ∧
  (SpeechBubblesSimple.x
     (SpeechBubblesSimple.calculateSimplePosition 800 600 7) + 220 + 10 <=
     inject_Z 800)%Q ∧
  (SpeechBubblesSimple.y
     (SpeechBubblesSimple.calculateSimplePosition 800 600 7) + 140 + 10 <=
     inject_Z 600)%Q.
Proof.
  assert (H1 : 240 <= 800) by lia.
  assert (H2 : 160 <= 600) by lia.
  split; [exact H1|]. split; [exact H2|]. split.
  - exact (proj1 (proj2 (proj2
             (calculateSimplePosition_in_viewport 800 600 7))) H1).
  - exact (proj2 (proj2 (proj2
             (calculateSimplePosition_in_viewport 800 600 7))) H2).
Defined.

(** On a map of 800 by 600 pixels, with three columns, the second bubble
    is in the first row and the fifth in the second. *)
Lemma calculateSimplePosition_rows_witness :
  Z.of_nat 1 / Z.max 1 (800 / 235) < Z.of_nat 4 / Z.max 1 (800 / 235) ∧
  Z.of_nat 4 / Z.max 1 (800 / 235) * 155 + 165 <= 600 ∧
  (SpeechBubblesSimple.y
     (SpeechBubblesSimple.calculateSimplePosition 800 600 1) + 140 + 5 <=
   SpeechBubblesSimple.y
     (SpeechBubblesSimple.calculateSimplePosition 800 600 4))%Q.
Proof.
  assert (H1 : Z.of_nat 1 / Z.max 1 (800 / 235) <
               Z.of_nat 4 / Z.max 1 (800 / 235)) by (vm_compute; reflexivity).
  assert (H2 : Z.of_nat 4 / Z.max 1 (800 / 235) * 155 + 165 <= 600)
    by (vm_compute; discriminate).
  split; [exact H1|]. split; [exact H2|].
  exact (calculateSimplePosition_rows 800 600 1 4 H1 H2).
Defined.

(* ================================================================== *)
(** * The great-circle distance *)

Section Distance.
Import EventFilter.
Local Open Scope R_scope.

(** The haversine term of two points, by latitude and longitude in
    radians. *)
Lemma haversine_range (φ1 φ2 Δλ : R) :
  0 <= sin ((φ2 - φ1) / 2) * sin ((φ2 - φ1) / 2) +
       cos φ1 * cos φ2 * sin (Δλ / 2) * sin (Δλ / 2) <= 1.
Proof.
  set (s := sin (Δλ / 2) * sin (Δλ / 2)).
  assert (Hs : 0 <= s <= 1).
  { unfold s. pose proof (SIN_bound (Δλ / 2)) as [H1 H2].
    split; [apply Rle_0_sqr|].
    pose proof (sin2_cos2 (Δλ / 2)) as H. unfold Rsqr in H.
    pose proof (Rle_0_sqr (cos (Δλ / 2))) as Hc. unfold Rsqr in Hc.
    Lra.lra. }
  assert (Hhalf : sin ((φ2 - φ1) / 2) * sin ((φ2 - φ1) / 2) =
                  (1 - cos (φ2 - φ1)) / 2).
  { pose proof (cos_2a_sin ((φ2 - φ1) / 2)) as H.
    replace (2 * ((φ2 - φ1) / 2)) with (φ2 - φ1) in H by Lra.lra.
    Lra.lra. }
  assert (Hprod : cos φ1 * cos φ2 = (cos (φ2 - φ1) + cos (φ2 + φ1)) / 2).
  { rewrite cos_minus, cos_plus. Lra.lra. }
  replace (sin ((φ2 - φ1) / 2) * sin ((φ2 - φ1) / 2) +
           cos φ1 * cos φ2 * sin (Δλ / 2) * sin (Δλ / 2))
    with ((1 - cos (φ2 - φ1)) / 2 +
          (cos (φ2 - φ1) + cos (φ2 + φ1)) / 2 * s)
    by (rewrite <- Hhalf, <- Hprod; unfold s; ring).
  pose proof (COS_bound (φ2 - φ1)) as [HC1 HC2].
  pose proof (COS_bound (φ2 + φ1)) as [HD1 HD2].
  generalize dependent (cos (φ2 - φ1)). intros C _ _ HC1 HC2.
  generalize dependent (cos (φ2 + φ1)). intros D HD1 HD2.
  clearbody s.
  assert (H1 : 0 <= (1 - s) * (1 - C)) by (apply Rmult_le_pos; Lra.lra).
  assert (H2 : 0 <= s * (1 + D)) by (apply Rmult_le_pos; Lra.lra).
  assert (H3 : 0 <= (1 - s) * (1 + C)) by (apply Rmult_le_pos; Lra.lra).
  assert (H4 : 0 <= s * (1 - D)) by (apply Rmult_le_pos; Lra.lra).
  split; Lra.nra.
Qed.

(** [Math.atan2] of two numbers that are not negative is an angle of the
    first quadrant. *)
Lemma Math_atan2_quadrant (y x : R) :
  0 <= y → 0 <= x → 0 <= Math_atan2 y x <= PI / 2.
Proof.
  intros Hy Hx. unfold Math_atan2. pose proof PI_RGT_0 as Hpi.
  destruct (Rlt_dec 0 x) as [Hpos|Hnpos].
  - pose proof (atan_bound (y / x)) as [_ Hup].
    split; [|Lra.lra].
    destruct (Rle_lt_or_eq_dec 0 y Hy) as [Hlt| <-].
    + apply Rlt_le. rewrite <- atan_0. apply atan_increasing.
      by apply Rdiv_lt_0_compat.
    + replace (0 / x) with 0 by (field; Lra.lra). rewrite atan_0. Lra.lra.
  - destruct (Rlt_dec x 0); [Lra.lra|].
    destruct (Rlt_dec 0 y); [Lra.lra|].
    destruct (Rlt_dec y 0); Lra.lra.
Qed.

(** X23. The distance does not depend on the direction: from the
    reference location to the event it is what it is from the event to
    the reference location. *)
Theorem calculateDistance_symmetric (lat1 lon1 lat2 lon2 : R) :
  calculateDistance lat1 lon1 lat2 lon2 =
  calculateDistance lat2 lon2 lat1 lon1.
Proof.
  unfold calculateDistance. cbv zeta.
  replace ((lat1 - lat2) * PI / 180 / 2)
    with (- ((lat2 - lat1) * PI / 180 / 2)) by Lra.lra.
  replace ((lon1 - lon2) * PI / 180 / 2)
    with (- ((lon2 - lon1) * PI / 180 / 2)) by Lra.lra.
  rewrite !sin_neg.
  set (s1 := sin ((lat2 - lat1) * PI / 180 / 2)).
  set (s2 := sin ((lon2 - lon1) * PI / 180 / 2)).
  replace (- s1 * - s1 +
           cos (lat2 * PI / 180) * cos (lat1 * PI / 180) * - s2 * - s2)
    with (s1 * s1 + cos (lat1 * PI / 180) * cos (lat2 * PI / 180) * s2 * s2)
    by ring.
  reflexivity.
Qed.

(** X24. For all coordinates the distance is a number from 0 to half
    the circumference of the Earth, 6371 π kilometres (the square roots
    of the haversine formula are never taken of a negative number), and
    a point is at distance 0 from itself. *)
Theorem calculateDistance_range (lat1 lon1 lat2 lon2 : R) :
  0 <= calculateDistance lat1 lon1 lat2 lon2 <= 6371 * PI ∧
  calculateDistance lat1 lon1 lat1 lon1 = 0.
Proof.
  split; [|apply calculateDistance_same].
  unfold calculateDistance. cbv zeta.
  match goal with
  | |- context [sqrt (1 - ?a)] => set (hav := a)
  end.
  assert (Hhav : 0 <= hav <= 1).
  { unfold hav.
    replace ((lat2 - lat1) * PI / 180 / 2)
      with ((lat2 * PI / 180 - lat1 * PI / 180) / 2) by Lra.lra.
    replace ((lon2 - lon1) * PI / 180 / 2)
      with ((lon2 - lon1) * PI / 180 / 2) by Lra.lra.
    apply haversine_range. }
  pose proof (Math_atan2_quadrant (sqrt hav) (sqrt (1 - hav))
                (sqrt_pos _) (sqrt_pos _)) as Hq.
  Lra.lra.
Qed.
End Distance.

(* ================================================================== *)
(** * More about the de-duplication *)

Lemma sum_list_with_ext_in {A} (f g : A → nat) (l : list A) :
  (∀ x, x ∈ l → f x = g x) → sum_list_with f l = sum_list_with g l.
Proof.
  induction l as [|x l IH]; intros H; [done|]. cbn.
  rewrite (H x) by (by left). rewrite IH; [done|].
  intros y Hy. apply H. by right.
Qed.

Lemma sum_list_with_fmap' {A B} (f : B → nat) (g : A → B) (l : list A) :
  sum_list_with f (g <$> l) = sum_list_with (f ∘ g) l.
Proof. induction l as [|x l IH]; [done|]. cbn. by rewrite IH. Qed.

Lemma length_filter_all {A} (P : A → Prop) `{!∀ x, Decision (P x)}
    (l : list A) :
  (∀ x, P x) → length (filter P l) = length l.
Proof.
  intros HP. induction l as [|x l IH]; [done|].
  rewrite filter_cons, decide_True by done. cbn. by rewrite IH.
Qed.

Section GroupingMore.
Context {A K : Type} `{EqDecision K} (key : A → K).

Lemma first_seen_length (seen : list K) (l : list A) :
  (length (first_seen key seen l) <= length l)%nat.
Proof.
  revert seen. induction l as [|x l IH]; intros seen; cbn; [done|].
  destruct (decide (key x ∈ seen)); cbn.
  - specialize (IH seen). lia.
  - specialize (IH (key x :: seen)). lia.
Qed.

(** Items with distinct keys are all first seen. *)
Lemma first_seen_NoDup_id (seen : list K) (l : list A) :
  NoDup (key <$> l) → (∀ x, x ∈ l → key x ∉ seen) →
  first_seen key seen l = l.
Proof.
  revert seen. induction l as [|x l IH]; intros seen Hnd Hs; [done|].
  cbn in *. apply NoDup_cons in Hnd as [Hx Hnd].
  rewrite decide_False by (apply Hs; by left). f_equal.
  apply IH; [done|]. intros y Hy. rewrite not_elem_of_cons. split.
  - intros E. apply Hx. rewrite <- E. by apply list_elem_of_fmap_2.
  - apply Hs. by right.
Qed.

(** Among items with distinct keys, an item is the only one with its
    key. *)
Lemma with_key_NoDup (l : list A) (x : A) :
  NoDup (key <$> l) → x ∈ l → with_key key (key x) l = [x].
Proof.
  unfold with_key. induction l as [|y l IH]; intros Hnd Hx.
  { by apply elem_of_nil in Hx. }
  cbn in Hnd. apply NoDup_cons in Hnd as [Hy Hnd].
  rewrite filter_cons. apply elem_of_cons in Hx as [->|Hx].
  - rewrite decide_True by done. f_equal.
    apply (with_key_not_in key). done.
  - rewrite decide_False; [by apply IH|].
    intros E. apply Hy. rewrite E. by apply list_elem_of_fmap_2.
Qed.

Lemma with_key_length_pos (l : list A) (x : A) :
  x ∈ l → (1 <= length (with_key key (key x) l))%nat.
Proof.
  intros Hx. assert (H : x ∈ with_key key (key x) l).
  { unfold with_key. by apply list_elem_of_filter. }
  destruct (with_key key (key x) l); [by apply elem_of_nil in H|].
  cbn. lia.
Qed.

Lemma with_key_cons_ne (k : K) (y : A) (l : list A) :
  key y ≠ k → with_key key k (y :: l) = with_key key k l.
Proof. intros H. unfold with_key. by rewrite filter_cons, decide_False. Qed.

Lemma filter_split_key (seen : list K) (k : K) (l : list A) :
  k ∉ seen →
  length (filter (λ x, key x ∉ seen) l) =
  (length (with_key key k l) +
   length (filter (λ x, key x ∉ k :: seen) l))%nat.
Proof.
  intros Hk. unfold with_key. induction l as [|x l IH]; [done|].
  rewrite !filter_cons.
  destruct (decide (key x = k)) as [E|Hne].
  - rewrite decide_True by (by rewrite E).
    rewrite (decide_False (P := key x ∉ k :: seen))
      by (rewrite not_elem_of_cons; tauto).
    cbn [length]. lia.
  - destruct (decide (key x ∉ seen)) as [Hx|Hx].
    + rewrite (decide_True (P := key x ∉ k :: seen))
        by (rewrite not_elem_of_cons; tauto).
      cbn [length]. lia.
    + rewrite (decide_False (P := key x ∉ k :: seen))
        by (rewrite not_elem_of_cons; tauto).
      lia.
Qed.

(** The sizes of the groups add up to the number of items. *)
Lemma first_seen_sizes (seen : list K) (l : list A) :
  sum_list_with (λ i, length (with_key key (key i) l))
    (first_seen key seen l) =
  length (filter (λ x, key x ∉ seen) l).
Proof.
  revert seen. induction l as [|y l IH]; intros seen; [done|].
  cbn [first_seen]. rewrite filter_cons.
  assert (Hext : ∀ seen',
            key y ∈ seen' →
            sum_list_with (λ i, length (with_key key (key i) (y :: l)))
              (first_seen key seen' l) =
            sum_list_with (λ i, length (with_key key (key i) l))
              (first_seen key seen' l)).
  { intros seen' Hy. apply sum_list_with_ext_in. intros i Hi.
    destruct (elem_of_first_seen key _ _ _ Hi) as [_ Hk].
    rewrite with_key_cons_ne; [done|]. intros E. by rewrite E in Hy. }
  destruct (decide (key y ∈ seen)) as [Hy|Hy].
  - rewrite decide_False by tauto. by rewrite Hext, IH.
  - rewrite decide_True by done. cbn [sum_list_with length].
    rewrite Hext by (by left). rewrite IH.
    rewrite (filter_split_key seen (key y) l Hy).
    unfold with_key at 1. rewrite filter_cons, decide_True by done.
    cbn [length]. unfold with_key. lia.
Qed.
End GroupingMore.

Section DedupMore.
Context {rt : Runtime}.
Variable Marker : Type.
Import SpeechBubbles.

(** The groups of [deduplicateEvents], item by item. *)
Lemma deduplicateEvents_grouped (h : Heap)
    (eventItems : list (EventItem Marker)) :
  let key := item_key Marker h in
  deduplicateEvents Marker h eventItems =
    (λ i, {| item := i;
             duplicateCount := length (with_key key (key i) eventItems);
             duplicates :=
               event Marker <$> with_key key (key i) eventItems |})
      <$> first_seen key [] eventItems.
Proof.
  cbv zeta. unfold deduplicateEvents. cbv zeta.
  set (key := item_key Marker h).
  rewrite (foldl_step_grouped key
    (λ l i, {| item := i;
               duplicateCount := length (with_key key (key i) l);
               duplicates := event Marker <$> with_key key (key i) l |})
    (λ i, {| item := i; duplicateCount := 1;
             duplicates := [event Marker i] |})
    (add_duplicate Marker)).
  - unfold grouped, Map_values. by rewrite <- list_fmap_compose.
  - intros l x Hx. rewrite with_key_snoc, decide_True by done.
    by rewrite with_key_not_in.
  - intros l x i E. rewrite with_key_snoc, decide_True by done.
    unfold add_duplicate. cbn. rewrite length_app, fmap_app. cbn.
    f_equal. lia.
  - intros l x i E. rewrite with_key_snoc, decide_False by done.
    by rewrite app_nil_r.
  - intros m x Hx. unfold deduplicate_step. fold key. cbv zeta.
    by rewrite (proj2 (Map_has_true _ _) Hx).
  - intros m x Hx. unfold deduplicate_step. fold key. cbv zeta.
    rewrite (proj2 (Map_has_false _ _) Hx). by apply Map_set_new.
Qed.

(** X25. The groups of [deduplicateEvents] have pairwise distinct keys.
    The representative of a group is an item of the input, its event is
    the first of the group's [duplicates], and [duplicateCount], which
    is 1 at least, is the number of [duplicates]. There are no more
    groups than items. *)
Theorem deduplicateEvents_distinct (h : Heap)
    (eventItems : list (EventItem Marker)) :
  let uniqueItems := deduplicateEvents Marker h eventItems in
  NoDup ((λ u, item_key Marker h (item Marker u)) <$> uniqueItems) ∧
  Forall
    (λ u,
       item Marker u ∈ eventItems ∧
       head (duplicates Marker u) = Some (event Marker (item Marker u)) ∧
       duplicateCount Marker u = length (duplicates Marker u) ∧
       (1 <= duplicateCount Marker u)%nat)
    uniqueItems ∧
  (length uniqueItems <= length eventItems)%nat.
Proof.
  cbv zeta. rewrite deduplicateEvents_grouped. cbv zeta.
  set (key := item_key Marker h). split; [|split].
  - rewrite <- list_fmap_compose. apply (first_seen_NoDup key).
  - apply Forall_fmap, Forall_forall. intros i Hi. cbn.
    destruct (elem_of_first_seen key _ _ _ Hi) as [Hin _].
    split; [done|]. split; [|split].
    + rewrite head_lookup, list_lookup_fmap.
      by rewrite (head_with_key_first_seen key [] eventItems i Hi).
    + by rewrite length_fmap.
    + by apply with_key_length_pos.
  - rewrite length_fmap. apply first_seen_length.
Qed.

(** X26. De-duplicating the representatives again changes nothing: each
    of them comes back as the representative of a group of one, in the
    same order. *)
Theorem deduplicateEvents_again (h : Heap)
    (eventItems : list (EventItem Marker)) :
  let representatives :=
    item Marker <$> deduplicateEvents Marker h eventItems in
  deduplicateEvents Marker h representatives =
    (λ i, {| item := i; duplicateCount := 1;
             duplicates := [event Marker i] |}) <$> representatives.
Proof.
  cbv zeta. rewrite (deduplicateEvents_grouped h eventItems). cbv zeta.
  rewrite <- list_fmap_compose.
  set (key := item_key Marker h).
  change (item Marker ∘ _) with (@Datatypes.id (EventItem Marker)).
  rewrite list_fmap_id.
  rewrite deduplicateEvents_grouped. cbv zeta. fold key.
  pose proof (first_seen_NoDup key [] eventItems) as Hnd.
  rewrite (first_seen_NoDup_id key [] _ Hnd)
    by (intros; apply not_elem_of_nil).
  apply list_fmap_ext. intros n i Hi.
  apply list_elem_of_lookup_2 in Hi.
  by rewrite (with_key_NoDup key _ i Hnd Hi).
Qed.

(** The groups of the simplified [deduplicateEvents], event by event. *)
Lemma deduplicateEvents_simple_grouped (h : Heap) (events : list nat) :
  let key := SpeechBubblesSimple.event_key h in
  SpeechBubblesSimple.deduplicateEvents h events =
    (λ e, {| SpeechBubblesSimple.event := Some e;
             SpeechBubblesSimple.groupSize :=
               length (with_key key (key e) events);
             SpeechBubblesSimple.duplicateCount :=
               length (with_key key (key e) events) |})
      <$> first_seen key [] events.
Proof.
  cbv zeta. unfold SpeechBubblesSimple.deduplicateEvents. cbv zeta.
  rewrite (foldl_step_grouped (SpeechBubblesSimple.event_key h)
    (λ l e, with_key (SpeechBubblesSimple.event_key h)
              (SpeechBubblesSimple.event_key h e) l)
    (λ e, [e]) (λ e group, group ++ [e])).
  - unfold grouped, Map_values. rewrite <- !list_fmap_compose.
    apply list_fmap_ext. intros n e He. cbn. f_equal.
    apply (head_with_key_first_seen _ []).
    by apply list_elem_of_lookup_2 in He.
  - intros l x Hx. rewrite with_key_snoc, decide_True by done.
    by rewrite with_key_not_in.
  - intros l x i E. by rewrite with_key_snoc, decide_True.
  - intros l x i E. rewrite with_key_snoc, decide_False by done.
    by rewrite app_nil_r.
  - intros m x Hx. unfold SpeechBubblesSimple.group_step. cbv zeta.
    by rewrite (proj2 (Map_has_true _ _) Hx).
  - intros m x Hx. unfold SpeechBubblesSimple.group_step. cbv zeta.
    rewrite (proj2 (Map_has_false _ _) Hx). cbn [negb].
    rewrite Map_set_new by done. rewrite Map_modify_app_r by done.
    cbn. by rewrite String.eqb_refl.
Qed.

(** X27. The simplified [deduplicateEvents] makes groups with pairwise
    distinct keys. Every group has a representative, an event of the
    input; its [groupSize] and [duplicateCount] are the same number, 1 at
    least, and the group sizes add up to the number of events. *)
Theorem deduplicateEvents_simple_groups (h : Heap) (events : list nat) :
  let groups := SpeechBubblesSimple.deduplicateEvents h events in
  Forall
    (λ g,
       (∃ r, SpeechBubblesSimple.event g = Some r ∧ r ∈ events) ∧
       SpeechBubblesSimple.duplicateCount g =
         SpeechBubblesSimple.groupSize g ∧
       (1 <= SpeechBubblesSimple.groupSize g)%nat)
    groups ∧
  NoDup
    ((λ g, SpeechBubblesSimple.event_key h <$>
             SpeechBubblesSimple.event g) <$> groups) ∧
  sum_list_with SpeechBubblesSimple.groupSize groups = length events.
Proof.
  cbv zeta. rewrite deduplicateEvents_simple_grouped. cbv zeta.
  set (key := SpeechBubblesSimple.event_key h). split; [|split].
  - apply Forall_fmap, Forall_forall. intros e He. cbn.
    destruct (elem_of_first_seen key _ _ _ He) as [Hin _].
    split; [by exists e|]. split; [done|].
    by apply with_key_length_pos.
  - rewrite <- list_fmap_compose.
    change (NoDup ((Some ∘ key) <$> first_seen key [] events)).
    rewrite list_fmap_compose. apply (NoDup_fmap_2 _).
    apply (first_seen_NoDup key).
  - rewrite sum_list_with_fmap'.
    change (sum_list_with (λ e, length (with_key key (key e) events))
              (first_seen key [] events) = length events).
    rewrite (first_seen_sizes key [] events).
    apply length_filter_all. intros. apply not_elem_of_nil.
Qed.
End DedupMore.
